(** * PromptP: a shallow embedding of the prompt enhancer, the quality
    analyzer, the template manager, the in-memory storage and the REST
    handlers, with the properties stated about them.

    JavaScript strings are sequences of UTF-16 code units; a code unit is
    an [N].  Numbers that the code only uses as integers (ids, counters,
    match counts, timestamps in milliseconds) are [Z] or [nat]; the one
    floating-point computation, the weighted quality score, is carried out
    in IEEE 754 binary64 with the executable operations of [SpecFloat]. *)

From Stdlib Require Import ZArith NArith Arith Lia List Bool String Ascii.
From Stdlib Require Import Floats.SpecFloat.
From Stdlib Require Import Sorting.Sorted Sorting.Permutation.
Import ListNotations.

Set Implicit Arguments.

(* ================================================================== *)
(** * JavaScript strings *)
(* ================================================================== *)

Module JS.

Definition char := N.
Definition jsstring := list char.

(** A source literal (ASCII only) as a sequence of code units. *)
Fixpoint lit (s : string) : jsstring :=
  match s with
  | EmptyString => []
  | String a s' => N_of_ascii a :: lit s'
  end.

Definition char_eqb (a b : char) : bool := N.eqb a b.

Fixpoint str_eqb (a b : jsstring) : bool :=
  match a, b with
  | [], [] => true
  | x :: a', y :: b' => char_eqb x y && str_eqb a' b'
  | _, _ => false
  end.

Definition in_range (c : char) (r : N * N) : bool :=
  (N.leb (fst r) c && N.leb c (snd r))%bool.

Definition in_ranges (c : char) (rs : list (N * N)) : bool :=
  existsb (in_range c) rs.

(** ECMAScript WhiteSpace and LineTerminator code points: what [\s]
    matches and what [String.prototype.trim] strips. *)
Definition ws_ranges : list (N * N) :=
  [ (9, 13); (32, 32); (160, 160); (5760, 5760); (8192, 8202);
    (8232, 8233); (8239, 8239); (8287, 8287); (12288, 12288);
    (65279, 65279) ]%N.

Definition isSpace (c : char) : bool := in_ranges c ws_ranges.

(** LineTerminator: what [.] does not match. *)
Definition isLineTerminator (c : char) : bool :=
  in_ranges c [ (10, 10); (13, 13); (8232, 8233) ]%N.

Definition digit_ranges : list (N * N) := [ (48, 57) ]%N.
Definition word_ranges : list (N * N) :=
  [ (48, 57); (65, 90); (95, 95); (97, 122) ]%N.

Definition isWordChar (c : char) : bool := in_ranges c word_ranges.

(** [s.trim()] *)
Fixpoint trimStart (s : jsstring) : jsstring :=
  match s with
  | [] => []
  | c :: s' => if isSpace c then trimStart s' else s
  end.

Definition trimEnd (s : jsstring) : jsstring := rev (trimStart (rev s)).

Definition trim (s : jsstring) : jsstring := trimEnd (trimStart s).

(** [s.split(/\s+/)]: the pieces between maximal runs of white space.  A
    string that starts (ends) with white space yields an empty first
    (last) piece, and the empty string yields one empty piece. *)
Fixpoint split_ws_aux (in_sep : bool) (cur : jsstring) (s : jsstring)
  : list jsstring :=
  match s with
  | [] => [rev cur]
  | c :: s' =>
      if isSpace c
      then if in_sep then split_ws_aux true [] s'
           else rev cur :: split_ws_aux true [] s'
      else split_ws_aux false (c :: cur) s'
  end.

Definition split_ws (s : jsstring) : list jsstring :=
  split_ws_aux false [] s.

(** [Boolean(piece)] for a string: non-empty. *)
Definition truthy (s : jsstring) : bool :=
  match s with [] => false | _ => true end.

(** [a.includes(b)] *)
Fixpoint startsWith (p s : jsstring) : bool :=
  match p, s with
  | [], _ => true
  | x :: p', y :: s' => char_eqb x y && startsWith p' s'
  | _ :: _, [] => false
  end.

Fixpoint includes (s p : jsstring) : bool :=
  startsWith p s ||
  match s with
  | [] => false
  | _ :: s' => includes s' p
  end.

(** [parts.join(sep)] *)
Fixpoint join (sep : jsstring) (parts : list jsstring) : jsstring :=
  match parts with
  | [] => []
  | [p] => p
  | p :: rest => p ++ sep ++ join sep rest
  end.

End JS.

(* ================================================================== *)
(** * Regular expressions: the fragment of ECMAScript the sources use *)
(* ================================================================== *)

Module RegExp.
Import JS.

(** Pattern syntax.  [Rep lo hi greedy r] is [r{lo,hi}] ([hi = None] for
    an open bound), [Ahead true r] is [(?=r)], [Ahead false r] is [(?!r)],
    [NotAfter rs] is a negative look-behind of one class, [(?<![rs])]. *)
Inductive regex : Type :=
| Emp : regex
| Chr : char -> regex
| Cls : bool -> list (N * N) -> regex
| Dot : regex
| Cat : regex -> regex -> regex
| Alt : regex -> regex -> regex
| Rep : nat -> option nat -> bool -> regex -> regex
| Ahead : bool -> regex -> regex
| NotAfter : list (N * N) -> regex
| WordB : regex
| Bol : regex
| Eol : regex.

(** Flags that change matching: [i] and [m]. *)
Record flags := { ignoreCase : bool; multiline : bool }.

(** A position in the subject: the code unit before it (if any), its
    index and the code units from it on. *)
Record cursor := { before : option char; index : nat; rest : jsstring }.

Definition start_of (s : jsstring) : cursor :=
  {| before := None; index := 0; rest := s |}.

Definition advance (c : cursor) : option cursor :=
  match rest c with
  | [] => None
  | x :: s => Some {| before := Some x; index := S (index c); rest := s |}
  end.

(** Canonicalize without the [u] flag: upper case, where a code unit
    outside ASCII never maps into ASCII; the patterns hold ASCII letters
    only, for which this is the ASCII upper case. *)
Definition canon (f : flags) (c : char) : char :=
  if ignoreCase f && in_range c (97, 122)%N then (c - 32)%N else c.

Definition lower (c : char) : char :=
  if in_range c (65, 90)%N then (c + 32)%N else c.

Definition chr_matches (f : flags) (p c : char) : bool :=
  char_eqb (canon f p) (canon f c).

Definition cls_matches (f : flags) (neg : bool) (rs : list (N * N))
  (c : char) : bool :=
  let hit := in_ranges c rs
             || (ignoreCase f
                 && (in_ranges (canon f c) rs || in_ranges (lower c) rs)) in
  if neg then negb hit else hit.

Definition opt_word (o : option char) : bool :=
  match o with Some c => isWordChar c | None => false end.

Definition at_word_boundary (c : cursor) : bool :=
  xorb (opt_word (before c)) (opt_word (hd_error (rest c))).

Definition at_bol (f : flags) (c : cursor) : bool :=
  match before c with
  | None => true
  | Some x => multiline f && isLineTerminator x
  end.

Definition at_eol (f : flags) (c : cursor) : bool :=
  match rest c with
  | [] => true
  | x :: _ => multiline f && isLineTerminator x
  end.

Definition pred_bound (hi : option nat) : option nat :=
  match hi with Some n => Some (pred n) | None => None end.

Definition bound_is_zero (hi : option nat) : bool :=
  match hi with Some 0 => true | _ => false end.

(** The backtracking matcher in continuation-passing style: [run f r k c]
    matches [r] at [c] and hands the position reached to [k]; alternatives
    are tried in the order of the specification (left alternative first,
    greedy quantifiers longest first).  An iteration of a quantifier that
    consumes nothing once the lower bound is met is rejected, as
    RepeatMatcher does, so [length (rest c) + lo + 1] iterations suffice. *)
Fixpoint run (f : flags) (r : regex) (k : cursor -> option cursor)
  (c : cursor) {struct r} : option cursor :=
  match r with
  | Emp => k c
  | Chr p =>
      match rest c with
      | x :: _ => if chr_matches f p x
                  then match advance c with Some c' => k c' | None => None end
                  else None
      | [] => None
      end
  | Cls neg rs =>
      match rest c with
      | x :: _ => if cls_matches f neg rs x
                  then match advance c with Some c' => k c' | None => None end
                  else None
      | [] => None
      end
  | Dot =>
      match rest c with
      | x :: _ => if isLineTerminator x then None
                  else match advance c with Some c' => k c' | None => None end
      | [] => None
      end
  | Cat r1 r2 => run f r1 (run f r2 k) c
  | Alt r1 r2 =>
      match run f r1 k c with
      | Some e => Some e
      | None => run f r2 k c
      end
  | Rep lo hi greedy r1 =>
      (fix loop (fuel lo : nat) (hi : option nat) (c : cursor)
         {struct fuel} : option cursor :=
         match fuel with
         | 0 => None
         | S fuel' =>
             if bound_is_zero hi then k c
             else
               let iter :=
                 run f r1
                   (fun c' =>
                      if (lo =? 0) && (index c' =? index c) then None
                      else loop fuel' (pred lo) (pred_bound hi) c') c in
               if 0 <? lo then iter
               else if greedy
                    then match iter with Some e => Some e | None => k c end
                    else match k c with Some e => Some e | None => iter end
         end) (S (lo + List.length (rest c))) lo hi c
  | Ahead positive r1 =>
      match run f r1 (fun c' => Some c') c with
      | Some _ => if positive then k c else None
      | None => if positive then None else k c
      end
  | NotAfter rs =>
      match before c with
      | Some x => if in_ranges x rs then None else k c
      | None => k c
      end
  | WordB => if at_word_boundary c then k c else None
  | Bol => if at_bol f c then k c else None
  | Eol => if at_eol f c then k c else None
  end.

(** One attempt at one position: the end of the match. *)
Definition match_at (f : flags) (r : regex) (c : cursor) : option cursor :=
  run f r (fun c' => Some c') c.

(** The search of RegExpBuiltinExec: the first position from [c] on where
    the pattern matches, with the end of that match. *)
Fixpoint search_list (f : flags) (r : regex) (b : option char) (i : nat)
  (s : jsstring) : option (nat * cursor) :=
  match match_at f r {| before := b; index := i; rest := s |} with
  | Some e => Some (i, e)
  | None =>
      match s with
      | [] => None
      | x :: s' => search_list f r (Some x) (S i) s'
      end
  end.

Definition search (f : flags) (r : regex) (c : cursor)
  : option (nat * cursor) :=
  search_list f r (before c) (index c) (rest c).

(** [r.test(s)] for a pattern without the [g] flag: no state. *)
Definition test (f : flags) (r : regex) (s : jsstring) : bool :=
  match search f r (start_of s) with Some _ => true | None => false end.

(** [(s.match(r) || []).length] for a pattern with the [g] flag:
    [lastIndex] is set to 0 first, the matches are taken one after the
    other, an empty match moves one code unit on, and [lastIndex] is 0
    again at the end. *)
Fixpoint count_from (f : flags) (r : regex) (fuel : nat) (c : cursor)
  : nat :=
  match fuel with
  | 0 => 0
  | S fuel' =>
      match search f r c with
      | None => 0
      | Some (b, e) =>
          if index e =? b
          then match advance e with
               | Some e' => S (count_from f r fuel' e')
               | None => 1
               end
          else S (count_from f r fuel' e)
      end
  end.

Definition match_count (f : flags) (r : regex) (s : jsstring) : nat :=
  count_from f r (S (List.length s)) (start_of s).

(** The position [lastIndex] of a subject, if it lies within it. *)
Fixpoint cursor_at (b : option char) (i : nat) (s : jsstring) (n : nat)
  : option cursor :=
  match n with
  | 0 => Some {| before := b; index := i; rest := s |}
  | S n' =>
      match s with
      | [] => None
      | x :: s' => cursor_at (Some x) (S i) s' n'
      end
  end.

(** [r.test(s)] for a pattern with the [g] flag.  The search starts at
    the pattern's [lastIndex], a success leaves [lastIndex] at the end of
    the match, a failure (or a [lastIndex] beyond the subject) resets it
    to 0.  The result is the answer and the new [lastIndex]. *)
Definition test_g (f : flags) (r : regex) (s : jsstring) (lastIndex : nat)
  : bool * nat :=
  match cursor_at None 0 s lastIndex with
  | None => (false, 0)
  | Some c =>
      match search f r c with
      | Some (_, e) => (true, index e)
      | None => (false, 0)
      end
  end.

(** Pattern-building helpers. *)
Fixpoint word (s : jsstring) : regex :=
  match s with
  | [] => Emp
  | [c] => Chr c
  | c :: s' => Cat (Chr c) (word s')
  end.

Fixpoint alts (rs : list regex) : regex :=
  match rs with
  | [] => Cls false []
  | [r] => r
  | r :: rs' => Alt r (alts rs')
  end.

Definition words (l : list string) : regex :=
  alts (map (fun s => word (lit s)) l).

Fixpoint cats (rs : list regex) : regex :=
  match rs with
  | [] => Emp
  | [r] => r
  | r :: rs' => Cat r (cats rs')
  end.

Definition star (r : regex) : regex := Rep 0 None true r.
Definition plus (r : regex) : regex := Rep 1 None true r.
Definition opt (r : regex) : regex := Rep 0 (Some 1) true r.
Definition digit : regex := Cls false digit_ranges.
Definition space : regex := Cls false ws_ranges.
Definition wordchar : regex := Cls false word_ranges.
Definition not_char (c : string) : regex :=
  Cls true (map (fun x => (x, x)) (lit c)).

Definition flags_i : flags := {| ignoreCase := true; multiline := false |}.
Definition flags_m : flags := {| ignoreCase := false; multiline := true |}.
Definition flags_none : flags :=
  {| ignoreCase := false; multiline := false |}.

End RegExp.

(* ================================================================== *)
(** * IEEE 754 binary64, as far as the score needs it *)
(* ================================================================== *)

Module Number.

Definition prec : Z := 53.
Definition emax : Z := 1024.

Definition of_Z (n : Z) : spec_float := binary_normalize prec emax n 0 false.
Definition mul : spec_float -> spec_float -> spec_float := SFmul prec emax.
Definition add : spec_float -> spec_float -> spec_float := SFadd prec emax.
Definition div : spec_float -> spec_float -> spec_float := SFdiv prec emax.

(** A decimal literal [p/q] of the source denotes the double nearest to
    it, which is the correctly rounded quotient of the two integers. *)
Definition literal (p q : Z) : spec_float := div (of_Z p) (of_Z q).

Definition is_finite (x : spec_float) : bool :=
  match x with
  | S754_zero _ | S754_finite _ _ _ => true
  | _ => false
  end.

(** [Math.round]: the integer nearest to a finite number, a tie going
    up, computed exactly from mantissa and exponent.  It is only applied
    to finite numbers here (see [score_finite]); 0 stands in elsewhere. *)
Definition Math_round (x : spec_float) : Z :=
  match x with
  | S754_finite s m e =>
      let sm := if s then Z.neg m else Z.pos m in
      match e with
      | Z.neg p => (2 * sm + Z.pow 2 (Z.pos p)) / (2 * Z.pow 2 (Z.pos p))
      | _ => sm * Z.pow 2 e
      end
  | _ => 0
  end%Z.

End Number.

(* ================================================================== *)
(** * server/prompt-quality-analyzer.ts *)
(* ================================================================== *)

Module QualityAnalyzer.
Import JS RegExp.

(** A pattern of [qualityPatterns] with its [i]/[m] flags; whether it
    carries [g] shows in the operation applied to it. *)
Definition pattern : Type := flags * regex.

Definition bounded_by (l : list string) : regex :=
  cats [WordB; words l; WordB].

Definition not_followed_by (l : list string) : regex :=
  Ahead false (words l).

Module qualityPatterns.
Local Open Scope string_scope.

Definition clarity_vague : list pattern :=
  [ (flags_i, cats [WordB;
       alts [word (lit "something"); word (lit "somehow");
             word (lit "thing"); word (lit "stuff");
             Cat (word (lit "etc")) (opt (Chr 46%N))];
       WordB]);
    (flags_i, Cat (bounded_by ["good"; "nice"; "great"; "better"; "best";
                               "awesome"; "amazing"])
                  (not_followed_by [" practice"]));
    (flags_i, Cat (bounded_by ["many"; "multiple"; "various"; "several";
                               "few"; "some"])
                  (not_followed_by [" of"])) ].

Definition clarity_ambiguous : list pattern :=
  [ (flags_i, Cat (bounded_by ["it"; "they"; "them"; "those"; "these";
                               "this"; "that"])
                  (not_followed_by [" is"; " are"; " were"; " was"]));
    (flags_i, Cat (bounded_by ["he"; "she"; "his"; "her"; "their"; "its"])
                  (not_followed_by [" is"; " are"; " were"; " was"])) ].

Definition specificity_lacking : list pattern :=
  [ (flags_i, Cat (NotAfter digit_ranges)
                  (bounded_by ["large"; "small"; "big"; "tiny"; "huge";
                               "enormous"]));
    (flags_i, bounded_by ["quickly"; "slowly"; "fast"; "rapid"; "soon";
                          "recent"]);
    (flags_i, bounded_by ["often"; "sometimes"; "frequently";
                          "occasionally"; "rarely"]) ].

Definition specificity_measures : list pattern :=
  [ (flags_i, cats [plus digit; star space;
       words ["%"; "percent"; "px"; "em"; "rem"; "seconds"; "minutes";
              "hours"; "days"; "weeks"; "months"; "years"]]);
    (flags_i, alts [Cat (Chr 36%N) (plus digit);
       Cat (Cls false [(8383, 8383); (163, 163); (8364, 8364);
                       (165, 165)]%N) (plus digit);
       cats [plus digit; plus space;
             words ["dollars"; "euros"; "pounds"; "yen"]]]);
    (flags_i, cats [WordB; plus digit; star space;
                    words ["kb"; "mb"; "gb"; "tb"]; WordB]) ].

Definition end_of_sentence : regex := Ahead true (Alt (Chr 46%N) Eol).

Definition context_defined : list pattern :=
  [ (flags_i, cats [WordB; words ["for"; "to use in"]; space;
       Rep 5 (Some 50) true (not_char "."); end_of_sentence]);
    (flags_i, cats [WordB;
       words ["context"; "background"; "situation"; "scenario"];
       star space; Chr 58%N; star space;
       Rep 5 (Some 100) true (not_char "."); end_of_sentence]) ].

Definition context_missing : list pattern :=
  [ (flags_i, cats [Bol;
       Ahead false (cats [Rep 0 None false Dot;
          bounded_by ["for"; "to use in"; "context"; "background";
                      "situation"; "scenario"; "setting"; "environment"]]);
       Rep 0 (Some 50) true Dot; Eol]) ].

Definition numbered_item : regex :=
  cats [plus digit; Chr 46%N; plus space; plus wordchar].

Definition structure_sections : list pattern :=
  [ (flags_i, cats [WordB;
       words ["section"; "part"; "chapter"; "segment"; "module";
              "component"; "phase"; "step"];
       star space; plus digit; WordB]);
    (flags_m, Cat WordB numbered_item);
    (flags_i, bounded_by ["firstly"; "secondly"; "thirdly"; "finally";
                          "subsequently"; "moreover"; "furthermore"]) ].

Definition structure_formatting : list pattern :=
  [ (flags_m, cats [Chr 45%N; plus space; plus wordchar]);
    (flags_m, cats [Chr 42%N; plus space; plus wordchar]);
    (flags_m, numbered_item) ].

Definition completeness_goals : pattern :=
  (flags_i, bounded_by ["goal"; "objective"; "aim"; "purpose"; "target";
                        "intention"; "outcome"]).

Definition completeness_constraints : pattern :=
  (flags_i, bounded_by ["constraint"; "limitation"; "restriction";
                        "boundary"; "requirement"; "must not";
                        "should not"; "avoid"]).

Definition completeness_audience : pattern :=
  (flags_i, bounded_by ["audience"; "reader"; "viewer"; "user"; "customer";
                        "client"; "target market"; "demographic"]).

End qualityPatterns.
Import qualityPatterns.

(** [(text.match(pattern) || []).length], summed over the patterns. *)
Definition count_matches (text : jsstring) (patterns : list pattern) : nat :=
  fold_left (fun matches p => matches + match_count (fst p) (snd p) text)
            patterns 0.

Definition calculateAspectScore (text : jsstring) (patterns : list pattern)
  (positive : bool) : Z :=
  let matches := Z.of_nat (count_matches text patterns) in
  if positive then Z.min 100 (matches * 20)
  else Z.max 0 (100 - matches * 20).

(** [patterns.some(pattern => pattern.test(text))] for patterns without
    the [g] flag. *)
Definition some_test (patterns : list pattern) (text : jsstring) : bool :=
  existsb (fun p => test (fst p) (snd p) text) patterns.

(** The three completeness patterns carry the [g] flag and are applied
    with [test], so each keeps a [lastIndex] from one call to the next:
    this is the module's mutable state. *)
Record RegExpState := {
  goals_lastIndex : nat;
  constraints_lastIndex : nat;
  audience_lastIndex : nat
}.

Definition fresh_state : RegExpState :=
  {| goals_lastIndex := 0; constraints_lastIndex := 0;
     audience_lastIndex := 0 |}.

Record Completeness := {
  hasGoals : bool;
  hasConstraints : bool;
  hasAudience : bool
}.

(** The block [hasGoals = ...; hasConstraints = ...; hasAudience = ...]
    that [identifyIssues], [identifyStrengths] and [calculateOverallScore]
    each run. *)
Definition completeness_tests (text : jsstring) (st : RegExpState)
  : Completeness * RegExpState :=
  let '(g, gi) := test_g (fst completeness_goals) (snd completeness_goals)
                    text (goals_lastIndex st) in
  let '(c, ci) := test_g (fst completeness_constraints)
                    (snd completeness_constraints)
                    text (constraints_lastIndex st) in
  let '(a, ai) := test_g (fst completeness_audience)
                    (snd completeness_audience)
                    text (audience_lastIndex st) in
  ({| hasGoals := g; hasConstraints := c; hasAudience := a |},
   {| goals_lastIndex := gi; constraints_lastIndex := ci;
      audience_lastIndex := ai |}).

Inductive QualityIssueType :=
| clarity | specificity | context | structure | completeness | tone
| technical.

Inductive Severity := low | medium | high.

(** The eight issues [identifyIssues] can report; each stands for its
    fixed explanation and suggestion texts. *)
Inductive IssueText :=
| VagueLanguage | AmbiguousPronouns | NoMeasurements | LacksContext
| LacksStructure | NoGoal | NoConstraints | NoAudience.

Record QualityIssue := {
  issue_type : QualityIssueType;
  severity : Severity;
  explanation : IssueText
}.

Definition push {A} (cond : bool) (x : A) (l : list A) : list A :=
  if cond then l ++ [x] else l.

(** [text.split(/\s+/).length] *)
Definition wordCount (text : jsstring) : nat := List.length (split_ws text).

Definition identifyIssues (text : jsstring) (st : RegExpState)
  : list QualityIssue * RegExpState :=
  let wc := wordCount text in
  let vagueMatches := count_matches text clarity_vague in
  let ambiguousMatches := count_matches text clarity_ambiguous in
  let issues := [] in
  let issues :=
    push (0 <? vagueMatches)
      {| issue_type := clarity;
         severity := if 3 <? vagueMatches then high else medium;
         explanation := VagueLanguage |} issues in
  let issues :=
    push (0 <? ambiguousMatches)
      {| issue_type := clarity;
         severity := if 3 <? ambiguousMatches then high else medium;
         explanation := AmbiguousPronouns |} issues in
  let lacksSpecificsCount := count_matches text specificity_lacking in
  let hasMeasuresCount := count_matches text specificity_measures in
  let issues :=
    push ((2 <? lacksSpecificsCount) && (hasMeasuresCount =? 0))
      {| issue_type := specificity; severity := medium;
         explanation := NoMeasurements |} issues in
  let missingContextMatch := some_test context_missing text in
  let hasContextMatch := some_test context_defined text in
  let issues :=
    push (missingContextMatch && negb hasContextMatch && (wc <? 50))
      {| issue_type := context; severity := high;
         explanation := LacksContext |} issues in
  let hasSectionsCount := count_matches text structure_sections in
  let hasFormattingCount := count_matches text structure_formatting in
  let issues :=
    push ((50 <? wc) && (hasSectionsCount =? 0) && (hasFormattingCount =? 0))
      {| issue_type := structure; severity := medium;
         explanation := LacksStructure |} issues in
  let '(has, st') := completeness_tests text st in
  let issues :=
    push (negb (hasGoals has) && (20 <? wc))
      {| issue_type := completeness; severity := medium;
         explanation := NoGoal |} issues in
  let issues :=
    push (negb (hasConstraints has) && (30 <? wc))
      {| issue_type := completeness; severity := low;
         explanation := NoConstraints |} issues in
  let issues :=
    push (negb (hasAudience has) && (40 <? wc))
      {| issue_type := completeness; severity := low;
         explanation := NoAudience |} issues in
  (issues, st').

Inductive Strength :=
| GoodStructure | SpecificMeasurements | ClearContext | StatesGoal
| IncludesConstraints | SpecifiesAudience | Concise | GoodDetail
| Comprehensive.

Definition identifyStrengths (text : jsstring) (st : RegExpState)
  : list Strength * RegExpState :=
  let wc := wordCount text in
  let hasSectionsCount := count_matches text structure_sections in
  let hasFormattingCount := count_matches text structure_formatting in
  let strengths :=
    push ((0 <? hasSectionsCount) || (0 <? hasFormattingCount))
         GoodStructure [] in
  let hasMeasuresCount := count_matches text specificity_measures in
  let strengths := push (0 <? hasMeasuresCount) SpecificMeasurements
                        strengths in
  let strengths := push (some_test context_defined text) ClearContext
                        strengths in
  let '(has, st') := completeness_tests text st in
  let strengths := push (hasGoals has) StatesGoal strengths in
  let strengths := push (hasConstraints has) IncludesConstraints
                        strengths in
  let strengths := push (hasAudience has) SpecifiesAudience strengths in
  let strengths :=
    if (10 <? wc) && (wc <? 20) then strengths ++ [Concise]
    else if (20 <=? wc) && (wc <=? 100) then strengths ++ [GoodDetail]
    else if 100 <? wc then strengths ++ [Comprehensive]
    else strengths in
  (strengths, st').

(** The five messages of [generateOverallFeedback]; the fourth one
    quotes the number of issues. *)
Inductive OverallFeedback :=
| Excellent | Good | Decent | NeedsImprovement (issueCount : nat)
| SignificantRevision.

Definition generateOverallFeedback (score : Z) (issueCount : nat)
  : OverallFeedback :=
  if (90 <=? score)%Z then Excellent
  else if (75 <=? score)%Z then Good
  else if (60 <=? score)%Z then Decent
  else if (40 <=? score)%Z then NeedsImprovement issueCount
  else SignificantRevision.

(** The arithmetic of [calculateOverallScore], in binary64 and in the
    source's order of evaluation. *)
Definition weighted_score (clarity lacking measures context sections
  formatting completeness : Z) : spec_float :=
  let n := Number.of_Z in
  let specificity :=
    Number.add (Number.mul (n lacking) (Number.literal 4 10))
               (Number.mul (n measures) (Number.literal 6 10)) in
  let structure :=
    Number.add (Number.mul (n sections) (Number.literal 5 10))
               (Number.mul (n formatting) (Number.literal 5 10)) in
  Number.add
    (Number.add
       (Number.add
          (Number.add (Number.mul (n clarity) (Number.literal 25 100))
                      (Number.mul specificity (Number.literal 25 100)))
          (Number.mul (n context) (Number.literal 2 10)))
       (Number.mul structure (Number.literal 15 100)))
    (Number.mul (n completeness) (Number.literal 15 100)).

Definition completeness_points (has : Completeness) : Z :=
  ((if hasGoals has then 40 else 0)
   + (if hasConstraints has then 30 else 0)
   + (if hasAudience has then 30 else 0))%Z.

Definition calculateOverallScore (text : jsstring) (st : RegExpState)
  : Z * RegExpState :=
  let clarity :=
    calculateAspectScore text (clarity_vague ++ clarity_ambiguous) false in
  let lacking := calculateAspectScore text specificity_lacking false in
  let measures := calculateAspectScore text specificity_measures true in
  let hasContext := some_test context_defined text in
  let context := (if hasContext then 80 else 40)%Z in
  let sections := calculateAspectScore text structure_sections true in
  let formatting := calculateAspectScore text structure_formatting true in
  let '(has, st') := completeness_tests text st in
  (Number.Math_round
     (weighted_score clarity lacking measures context sections formatting
        (completeness_points has)),
   st')%Z.

Record PromptQualityFeedback := {
  score : Z;
  issues : list QualityIssue;
  strengths : list Strength;
  overallFeedback : OverallFeedback
}.

Definition analyzePromptQuality (text : jsstring) (st : RegExpState)
  : PromptQualityFeedback * RegExpState :=
  let '(issues, st1) := identifyIssues text st in
  let '(strengths, st2) := identifyStrengths text st1 in
  let '(score, st3) := calculateOverallScore text st2 in
  ({| score := score; issues := issues; strengths := strengths;
      overallFeedback :=
        generateOverallFeedback score (List.length issues) |}, st3).

End QualityAnalyzer.

(* ================================================================== *)
(** * client/src/lib/utils/ai-engine.ts *)
(* ================================================================== *)

Module AiEngine.
Import JS RegExp.

Inductive UserRole := writer | developer | designer | marketer.

Inductive Specificity := low | medium | high.

Record WordCount := { wc_original : nat; wc_enhanced : nat }.

Record EnhancedPrompt := {
  original : jsstring;
  enhanced : jsstring;
  wordCount : WordCount;
  specificity : Specificity
}.

Definition nl : jsstring := [10%N].

Module enhancementTemplates.
Local Open Scope string_scope.

Definition context : list jsstring := map lit
  [ "Provide context about the project/situation where this will be used";
    "Include background information on the topic";
    "Specify the intended audience for this content";
    "Clarify the purpose of this request" ].

Definition structure : list jsstring := map lit
  [ "Break this down into numbered steps";
    "Organize this into sections with headings";
    "Use bullet points to list out key requirements";
    "Include both examples and counter-examples" ].

Definition details : list jsstring := map lit
  [ "Include specific metrics or measurements";
    "Add technical specifications";
    "Describe visual elements in detail";
    "Mention required formats and dimensions" ].

Definition style : list jsstring := map lit
  [ "Specify the desired tone (e.g., professional, casual, technical)";
    "Reference examples of preferred style";
    "Include any branding guidelines to follow";
    "Note any terminology preferences or restrictions" ].

Definition delivery : list jsstring := map lit
  [ "Set expectations for the length/scope of the response";
    "Include formatting requirements";
    "Specify any constraints or limitations";
    "Request specific file formats or deliverables" ].

End enhancementTemplates.

Section Tables.
Local Open Scope string_scope.

Definition roleSpecificEnhancements (role : UserRole) : list jsstring :=
  map lit
    match role with
    | writer =>
        [ "Include character development guidelines";
          "Specify narrative style (first-person, third-person, etc.)";
          "Define the pacing and structure of the content";
          "Request specific literary devices or techniques" ]
    | developer =>
        [ "Specify programming language and environment";
          "Include performance requirements";
          "Define API specifications or interfaces";
          "Request code comments and documentation style" ]
    | designer =>
        [ "Specify color schemes and visual styling";
          "Include brand guidelines to follow";
          "Define target devices and screen sizes";
          "Request specific file formats and resolutions" ]
    | marketer =>
        [ "Define target audience demographics";
          "Specify call-to-action requirements";
          "Include brand voice guidelines";
          "Request SEO considerations and keywords" ]
    end.

(** The keys in insertion order, which is the order of [Object.keys]. *)
Definition topicKeywords : list (jsstring * list jsstring) :=
  map (fun kv => (lit (fst kv), map lit (snd kv)))
    [ ("technology", ["code"; "app"; "website"; "software"; "tech";
                      "program"; "develop"; "algorithm"]);
      ("business", ["brand"; "market"; "company"; "startup"; "product";
                    "customer"; "client"; "strategy"]);
      ("creative", ["design"; "story"; "write"; "art"; "create"; "content";
                    "visual"; "brand"]);
      ("education", ["learn"; "teach"; "course"; "explain"; "student";
                     "concept"; "understand"]) ].

Definition specific_terms : regex :=
  words ["specific"; "exactly"; "precise"; "detailed"].

Definition measurement : regex :=
  cats [plus digit; star space;
        words ["px"; "em"; "rem"; "cm"; "mm"; "%"; "seconds"; "minutes"]].

Definition sections : list jsstring := map lit
  [ "1. Clear context and background information";
    "2. Specific details and requirements";
    "3. Desired format and structure";
    "4. Style and tone guidelines";
    "5. Examples or references if applicable" ].

Definition empty_message : jsstring :=
  lit "Please provide a prompt to enhance.".

End Tables.

Definition calculateSpecificity (text : jsstring) : Specificity :=
  let wordCount := List.length (split_ws text) in
  let hasSpecificTerms := test flags_i specific_terms text in
  let hasMeasurements := test flags_i measurement text in
  if ((15 <? wordCount) && hasSpecificTerms) || hasMeasurements then high
  else if 8 <? wordCount then medium
  else low.

(** [text.split(/\s+/).filter(Boolean).length] *)
Definition countWords (text : jsstring) : nat :=
  List.length (filter truthy (split_ws text)).

Definition bullets (l : list jsstring) : jsstring :=
  join nl (map (fun e => lit "- " ++ e) l).

Section Runtime.

(** [String.prototype.toLowerCase], a built-in that follows the Unicode
    case tables: taken as given. *)
Variable toLowerCase : jsstring -> jsstring.

Definition detectTopics (input : jsstring) : list jsstring :=
  let lowercaseInput := toLowerCase input in
  map fst
    (filter (fun kv => existsb (fun keyword => includes lowercaseInput keyword)
                               (snd kv))
            topicKeywords).

Definition enhancePrompt (originalPrompt : jsstring) (role : UserRole)
  (shouldAddSections : bool) : EnhancedPrompt :=
  let trimmedPrompt := trim originalPrompt in
  if negb (truthy trimmedPrompt) then
    {| original := [];
       enhanced := empty_message;
       wordCount := {| wc_original := 0; wc_enhanced := 7 |};
       specificity := low |}
  else
    let detectedTopics := detectTopics trimmedPrompt in
    let originalWords := countWords trimmedPrompt in
    let enhancedText :=
      if originalWords <? 5 then
        let enhancedText :=
          lit "Provide a detailed and comprehensive "
          ++ (if 0 <? List.length detectedTopics
              then join (lit "/") detectedTopics ++ lit " " else [])
          ++ trimmedPrompt ++ lit " that includes:" ++ nl ++ nl in
        let enhancedText :=
          if shouldAddSections then enhancedText ++ join nl sections
          else enhancedText in
        let roleEnhancements := firstn 2 (roleSpecificEnhancements role) in
        if 0 <? List.length roleEnhancements
        then enhancedText ++ (nl ++ nl ++ lit "Also include:" ++ nl)
                          ++ bullets roleEnhancements
        else enhancedText
      else if originalWords <? 15 then
        let enhancedText :=
          trimmedPrompt ++ nl ++ nl ++ lit "Please include:" ++ nl in
        let relevantEnhancements :=
          firstn 1 enhancementTemplates.context
          ++ firstn 1 enhancementTemplates.structure
          ++ firstn 2 enhancementTemplates.details
          ++ firstn 2 (roleSpecificEnhancements role) in
        enhancedText ++ bullets relevantEnhancements
      else
        let enhancedText :=
          trimmedPrompt
          ++ (nl ++ nl ++ lit "Additional requirements:" ++ nl) in
        let topEnhancements := firstn 3 (roleSpecificEnhancements role) in
        let enhancedText := enhancedText ++ bullets topEnhancements in
        enhancedText
        ++ (nl ++ nl
            ++ lit "Ensure the output is comprehensive, well-structured, and aligned with professional standards for this type of content.")
    in
    {| original := originalPrompt;
       enhanced := enhancedText;
       wordCount := {| wc_original := originalWords;
                       wc_enhanced := countWords enhancedText |};
       specificity := calculateSpecificity enhancedText |}.

End Runtime.

(** The ASCII part of [toLowerCase], for running examples on ASCII
    input. *)
Definition ascii_toLowerCase (s : jsstring) : jsstring := map lower s.

End AiEngine.

(* ================================================================== *)
(** * The built-in [Map]: an association list in insertion order *)
(* ================================================================== *)

Module JSMap.
Section Map.

Variables K V : Type.
Variable eqb : K -> K -> bool.

Definition t : Type := list (K * V).

Definition empty : t := [].

Fixpoint get (k : K) (m : t) : option V :=
  match m with
  | [] => None
  | (k', v) :: m' => if eqb k k' then Some v else get k m'
  end.

(** [set] keeps the position of a key that is present and appends a new
    key at the end. *)
Fixpoint set (k : K) (v : V) (m : t) : t :=
  match m with
  | [] => [(k, v)]
  | (k', v') :: m' =>
      if eqb k k' then (k, v) :: m' else (k', v') :: set k v m'
  end.

Definition delete (k : K) (m : t) : t :=
  filter (fun kv => negb (eqb k (fst kv))) m.

Definition values (m : t) : list V := map snd m.

Definition keys (m : t) : list K := map fst m.

End Map.
End JSMap.

(* ================================================================== *)
(** * shared/schema.ts and server/storage.ts (class MemStorage) *)
(* ================================================================== *)

Module Storage.
Import JS.
Export AiEngine(UserRole, writer, developer, designer, marketer).

(** A [Date] is its time value, the milliseconds since the epoch. *)
Definition Date := Z.

(** The calendar of the host in its local time zone: the built-ins the
    code calls on a [Date].  [setDate d n] is the time value after
    [d.setDate(n)]. *)
Record Calendar := {
  getFullYear : Date -> Z;
  getMonth : Date -> Z;
  getDate : Date -> Z;
  setDate : Date -> Z -> Date
}.

(** The calendar of a host whose time zone is UTC (the proleptic
    Gregorian calendar, months counted from 0), for running examples. *)
Definition ms_per_day : Z := 86400000.

Definition civil (d : Date) : Z * Z * Z :=
  let z := (d / ms_per_day + 719468)%Z in
  let era := (z / 146097)%Z in
  let doe := (z - era * 146097)%Z in
  let yoe := ((doe - doe / 1460 + doe / 36524 - doe / 146096) / 365)%Z in
  let doy := (doe - (365 * yoe + yoe / 4 - yoe / 100))%Z in
  let mp := ((5 * doy + 2) / 153)%Z in
  let day := (doy - (153 * mp + 2) / 5 + 1)%Z in
  let month := (if mp <? 10 then mp + 3 else mp - 9)%Z in
  let year := (yoe + era * 400 + (if month <=? 2 then 1 else 0))%Z in
  (year, (month - 1)%Z, day).

Definition utc : Calendar :=
  {| getFullYear := fun d => fst (fst (civil d));
     getMonth := fun d => snd (fst (civil d));
     getDate := fun d => snd (civil d);
     setDate := fun d n => (d + (n - snd (civil d)) * ms_per_day)%Z |}.

Inductive Plan := free | pro.

Record User := {
  user_id : Z;
  username : jsstring;
  password : jsstring;
  clerkId : option jsstring;
  user_role : option UserRole;
  plan : option Plan;
  promptsUsedToday : option Z;
  lastPromptDate : option Date;
  user_createdAt : option Date
}.

Record InsertUser := {
  iu_username : jsstring;
  iu_password : jsstring;
  iu_clerkId : option jsstring;
  iu_role : option UserRole;
  iu_plan : option Plan
}.

Record Prompt := {
  prompt_id : Z;
  userId : option Z;
  originalPrompt : jsstring;
  enhancedPrompt : jsstring;
  prompt_role : option UserRole;
  createdAt : option Date
}.

Record InsertPrompt := {
  ip_userId : option Z;
  ip_originalPrompt : jsstring;
  ip_enhancedPrompt : jsstring;
  ip_role : option UserRole
}.

Record MemStorage := {
  users : JSMap.t Z User;
  prompts : JSMap.t Z Prompt;
  userIdCounter : Z;
  promptIdCounter : Z
}.

(** [new MemStorage()] *)
Definition constructor : MemStorage :=
  {| users := JSMap.empty Z User; prompts := JSMap.empty Z Prompt;
     userIdCounter := 1; promptIdCounter := 1 |}.

(** The outcome of a method that may throw. *)
Inductive outcome (A : Type) :=
| Returns (a : A)
| Throws (message : string).
Arguments Returns {A} a.
Arguments Throws {A} message.

(** [x || d] on a nullable string, number or enumeration. *)
Definition or_string (x : option jsstring) : option jsstring :=
  match x with
  | Some s => if truthy s then Some s else None
  | None => None
  end.

Definition or_number (x : option Z) : option Z :=
  match x with
  | Some n => if (n =? 0)%Z then None else Some n
  | None => None
  end.

Definition or_zero (x : option Z) : Z :=
  match x with Some n => n | None => 0%Z end.

Definition opt_string_eqb (a : option jsstring) (b : jsstring) : bool :=
  match a with Some s => str_eqb s b | None => false end.

Definition opt_Z_eqb (a : option Z) (b : Z) : bool :=
  match a with Some n => (n =? b)%Z | None => false end.

(** ** User operations *)

Definition getUser (id : Z) (s : MemStorage) : option User :=
  JSMap.get Z.eqb id (users s).

Definition getUserByUsername (name : jsstring) (s : MemStorage)
  : option User :=
  find (fun user => str_eqb (username user) name) (JSMap.values (users s)).

Definition getUserByClerkId (cid : jsstring) (s : MemStorage)
  : option User :=
  find (fun user => opt_string_eqb (clerkId user) cid)
       (JSMap.values (users s)).

Definition createUser (now : Date) (insertUser : InsertUser)
  (s : MemStorage) : User * MemStorage :=
  let id := userIdCounter s in
  let user :=
    {| user_id := id;
       username := iu_username insertUser;
       password := iu_password insertUser;
       clerkId := or_string (iu_clerkId insertUser);
       user_role := iu_role insertUser;
       plan := match iu_plan insertUser with
               | Some p => Some p
               | None => Some free
               end;
       promptsUsedToday := Some 0%Z;
       lastPromptDate := Some now;
       user_createdAt := Some now |} in
  (user,
   {| users := JSMap.set Z.eqb id user (users s);
      prompts := prompts s;
      userIdCounter := (id + 1)%Z;
      promptIdCounter := promptIdCounter s |}).

Definition with_role (u : User) (r : option UserRole) : User :=
  {| user_id := user_id u; username := username u; password := password u;
     clerkId := clerkId u; user_role := r; plan := plan u;
     promptsUsedToday := promptsUsedToday u;
     lastPromptDate := lastPromptDate u;
     user_createdAt := user_createdAt u |}.

Definition with_usage (u : User) (n : Z) (d : Date) : User :=
  {| user_id := user_id u; username := username u; password := password u;
     clerkId := clerkId u; user_role := user_role u; plan := plan u;
     promptsUsedToday := Some n;
     lastPromptDate := Some d;
     user_createdAt := user_createdAt u |}.

(** The updated record is stored under the key [userId] that was asked
    for; [...user] copies the fields, its [id] included. *)
Definition put_user (userId : Z) (u : User) (s : MemStorage) : MemStorage :=
  {| users := JSMap.set Z.eqb userId u (users s);
     prompts := prompts s;
     userIdCounter := userIdCounter s;
     promptIdCounter := promptIdCounter s |}.

Definition updateUserRole (userId : Z) (role : UserRole) (s : MemStorage)
  : outcome (User * MemStorage) :=
  match getUser userId s with
  | None => Throws "User not found"
  | Some user =>
      let updatedUser := with_role user (Some role) in
      Returns (updatedUser, put_user userId updatedUser s)
  end.

Definition resetUserPromptUsage (now : Date) (userId : Z) (s : MemStorage)
  : outcome MemStorage :=
  match getUser userId s with
  | None => Throws "User not found"
  | Some user => Returns (put_user userId (with_usage user 0 now) s)
  end.

Definition incrementUserPromptUsage (now : Date) (userId : Z)
  (s : MemStorage) : outcome MemStorage :=
  match getUser userId s with
  | None => Throws "User not found"
  | Some user =>
      Returns (put_user userId
                 (with_usage user (or_zero (promptsUsedToday user) + 1) now)
                 s)
  end.

(** ** Prompt operations *)

Definition getPromptById (id : Z) (s : MemStorage) : option Prompt :=
  JSMap.get Z.eqb id (prompts s).

(** The time value the comparator and the cut-off use for a prompt. *)
Definition time_or (d : Date) (p : Prompt) : Date :=
  match createdAt p with Some t => t | None => d end.

(** [Array.prototype.sort] is stable; with the comparator
    [dateB - dateA] the newest prompt comes first and prompts of equal
    time keep their order. *)
Fixpoint insert_newest_first (p : Prompt) (l : list Prompt) : list Prompt :=
  match l with
  | [] => [p]
  | q :: l' =>
      if (time_or 0 p <? time_or 0 q)%Z
      then q :: insert_newest_first p l'
      else p :: l
  end.

Definition sort_newest_first (l : list Prompt) : list Prompt :=
  fold_right insert_newest_first [] l.

Section Calendar.

Variable cal : Calendar.

(** [now] is the reading of the clock for the cut-off and [later] the
    reading taken for a prompt without a creation date. *)
Definition getPromptsByUserId (now later : Date) (uid : Z)
  (limitDays : option Z) (s : MemStorage) : list Prompt :=
  let userPrompts :=
    sort_newest_first
      (filter (fun prompt => opt_Z_eqb (userId prompt) uid)
              (JSMap.values (prompts s))) in
  match or_number limitDays with
  | Some days =>
      let cutoffDate := setDate cal now (getDate cal now - days) in
      filter (fun prompt => (cutoffDate <=? time_or later prompt)%Z)
             userPrompts
  | None => userPrompts
  end.

End Calendar.

Definition createPrompt (now : Date) (insertPrompt : InsertPrompt)
  (s : MemStorage) : Prompt * MemStorage :=
  let id := promptIdCounter s in
  let prompt :=
    {| prompt_id := id;
       userId := or_number (ip_userId insertPrompt);
       originalPrompt := ip_originalPrompt insertPrompt;
       enhancedPrompt := ip_enhancedPrompt insertPrompt;
       prompt_role := ip_role insertPrompt;
       createdAt := Some now |} in
  (prompt,
   {| users := users s;
      prompts := JSMap.set Z.eqb id prompt (prompts s);
      userIdCounter := userIdCounter s;
      promptIdCounter := (id + 1)%Z |}).

Definition deletePrompt (id : Z) (s : MemStorage) : MemStorage :=
  {| users := users s;
     prompts := JSMap.delete Z.eqb id (prompts s);
     userIdCounter := userIdCounter s;
     promptIdCounter := promptIdCounter s |}.

(** ** Stats *)

Record UsageStats := {
  totalPrompts : nat;
  lastWeekPrompts : nat;
  roleBreakdown : JSMap.t (option UserRole) nat
}.

Definition role_eqb (a b : UserRole) : bool :=
  match a, b with
  | writer, writer | developer, developer | designer, designer
  | marketer, marketer => true
  | _, _ => false
  end.

(** The key of the breakdown: a role, or [None] for ["unknown"]. *)
Definition role_key_eqb (a b : option UserRole) : bool :=
  match a, b with
  | Some x, Some y => role_eqb x y
  | None, None => true
  | _, _ => false
  end.

Definition count_role (m : JSMap.t (option UserRole) nat) (p : Prompt)
  : JSMap.t (option UserRole) nat :=
  let role := prompt_role p in
  let n := match JSMap.get role_key_eqb role m with
           | Some k => k
           | None => 0
           end in
  JSMap.set role_key_eqb role (n + 1) m.

Section CalendarStats.

Variable cal : Calendar.

Definition getUserUsageStats (now later : Date) (uid : Z) (s : MemStorage)
  : UsageStats :=
  let userPrompts :=
    filter (fun prompt => opt_Z_eqb (userId prompt) uid)
           (JSMap.values (prompts s)) in
  let oneWeekAgo := setDate cal now (getDate cal now - 7) in
  {| totalPrompts := List.length userPrompts;
     lastWeekPrompts :=
       List.length
         (filter (fun prompt => (oneWeekAgo <=? time_or later prompt)%Z)
                 userPrompts);
     roleBreakdown :=
       fold_left count_role userPrompts (JSMap.empty (option UserRole) nat)
  |}.

End CalendarStats.

End Storage.

(* ================================================================== *)
(** * server/routes.ts: the handlers registered by [registerRoutes] *)
(* ================================================================== *)

Module Routes.
Import JS Storage.

Definition FREE_TIER_DAILY_LIMIT : Z := 10.

Inductive Body :=
| Message (message : string)
| LimitReached (message : string) (limit : Z)
| Enhanced (promptId : option Z) (originalPrompt enhancedPrompt : jsstring)
    (saved : bool)
| Saved (promptId : Z)
| PromptList (prompts : list Prompt)
| PromptBody (prompt : Prompt)
| Success
| UserBody (user : User)
| Me (id : Z) (role : UserRole) (plan : option Plan) (promptsUsedToday : Z)
| Usage (stats : UsageStats) (plan : option Plan) (dailyLimit : option Z)
    (promptsUsedToday : Z).

Record Response := { status : Z; body : Body }.

(** [res.json(b)] and [res.status(n).json(b)] *)
Definition json (b : Body) : Response := {| status := 200; body := b |}.
Definition status_json (n : Z) (b : Body) : Response :=
  {| status := n; body := b |}.

(** The header [x-clerk-user-id]: absent, or a string; [!clerkId] holds
    for an absent header and for the empty string. *)
Definition Header := option jsstring.

Definition authenticated (h : Header) : option jsstring := or_string h.

(** A request body after [schema.parse]: [None] when the parse throws. *)
Record PromptBodyIn := {
  in_originalPrompt : jsstring;
  in_enhancedPrompt : jsstring;
  in_role : UserRole
}.

Record ClerkBodyIn := { in_clerkId : jsstring; in_email : jsstring }.

Record OnboardingBodyIn := { in_userId : jsstring; in_onb_role : UserRole }.

Definition plan_is_free (u : User) : bool :=
  match plan u with Some free => true | _ => false end.

Section Handlers.

Variable cal : Calendar.

Definition isSameDay (date1 date2 : Date) : bool :=
  ((getFullYear cal date1 =? getFullYear cal date2)
   && (getMonth cal date1 =? getMonth cal date2)
   && (getDate cal date1 =? getDate cal date2))%Z.

(** POST /api/users/clerk *)
Definition post_users_clerk (now : Date) (parsed : option ClerkBodyIn)
  (s : MemStorage) : Response * MemStorage :=
  match parsed with
  | None => (status_json 400 (Message "Invalid request"), s)
  | Some b =>
      match getUserByClerkId (in_clerkId b) s with
      | Some user => (json (UserBody user), s)
      | None =>
          let '(user, s') :=
            createUser now
              {| iu_username := in_email b; iu_password := [];
                 iu_clerkId := Some (in_clerkId b); iu_role := None;
                 iu_plan := Some free |} s in
          (json (UserBody user), s')
      end
  end.

(** POST /api/users/onboarding *)
Definition post_users_onboarding (parsed : option OnboardingBodyIn)
  (s : MemStorage) : Response * MemStorage :=
  match parsed with
  | None => (status_json 400 (Message "Invalid request"), s)
  | Some b =>
      match getUserByClerkId (in_userId b) s with
      | None => (status_json 404 (Message "User not found"), s)
      | Some user =>
          match updateUserRole (user_id user) (in_onb_role b) s with
          | Throws _ => (status_json 400 (Message "Invalid request"), s)
          | Returns (_, s') => (json Success, s')
          end
      end
  end.

(** GET /api/users/me *)
Definition get_users_me (h : Header) (s : MemStorage)
  : Response * MemStorage :=
  match authenticated h with
  | None => (status_json 401 (Message "Unauthorized"), s)
  | Some cid =>
      match getUserByClerkId cid s with
      | None => (status_json 404 (Message "User not found"), s)
      | Some user =>
          (json (Me (user_id user)
                    (match user_role user with Some r => r | None => writer
                     end)
                    (plan user) (or_zero (promptsUsedToday user))), s)
      end
  end.

(** The last steps of POST /api/prompts/enhance: count the usage, store
    the prompt, answer.  A throw of the storage ends in the handler's
    [catch]. *)
Definition record_enhancement (tIncrement tCreate : Date)
  (b : PromptBodyIn) (user : User) (s : MemStorage)
  : Response * MemStorage :=
  match incrementUserPromptUsage tIncrement (user_id user) s with
  | Throws _ => (status_json 400 (Message "Invalid request"), s)
  | Returns s2 =>
      let '(prompt, s3) :=
        createPrompt tCreate
          {| ip_userId := Some (user_id user);
             ip_originalPrompt := in_originalPrompt b;
             ip_enhancedPrompt := in_enhancedPrompt b;
             ip_role := Some (in_role b) |} s2 in
      (json (Enhanced (Some (prompt_id prompt)) (in_originalPrompt b)
               (in_enhancedPrompt b) true), s3)
  end.

(** The steps of POST /api/prompts/enhance after the user is found; the
    four clock readings are those of the handler, of
    [resetUserPromptUsage], of [incrementUserPromptUsage] and of
    [createPrompt], in this order. *)
Definition enhance_for_user (today tReset tIncrement tCreate : Date)
  (b : PromptBodyIn) (user : User) (s : MemStorage)
  : Response * MemStorage :=
  if plan_is_free user then
    let lastPromptDate := lastPromptDate user in
    if match lastPromptDate with
       | Some d => negb (isSameDay today d)
       | None => true
       end
    then
      match resetUserPromptUsage tReset (user_id user) s with
      | Throws _ => (status_json 400 (Message "Invalid request"), s)
      | Returns s1 => record_enhancement tIncrement tCreate b user s1
      end
    else if (FREE_TIER_DAILY_LIMIT <=? or_zero (promptsUsedToday user))%Z
    then (status_json 402
            (LimitReached "Free tier daily limit reached"
               FREE_TIER_DAILY_LIMIT), s)
    else record_enhancement tIncrement tCreate b user s
  else record_enhancement tIncrement tCreate b user s.

(** POST /api/prompts/enhance *)
Definition post_prompts_enhance (today tReset tIncrement tCreate : Date)
  (h : Header) (parsed : option PromptBodyIn) (s : MemStorage)
  : Response * MemStorage :=
  match parsed with
  | None => (status_json 400 (Message "Invalid request"), s)
  | Some b =>
      match authenticated h with
      | None =>
          (json (Enhanced None (in_originalPrompt b) (in_enhancedPrompt b)
                   false), s)
      | Some cid =>
          match getUserByClerkId cid s with
          | None => (status_json 404 (Message "User not found"), s)
          | Some user =>
              enhance_for_user today tReset tIncrement tCreate b user s
          end
      end
  end.

(** POST /api/prompts/save *)
Definition post_prompts_save (now : Date) (h : Header)
  (parsed : option PromptBodyIn) (s : MemStorage)
  : Response * MemStorage :=
  match parsed with
  | None => (status_json 400 (Message "Invalid request"), s)
  | Some b =>
      match authenticated h with
      | None => (status_json 401 (Message "Unauthorized"), s)
      | Some cid =>
          match getUserByClerkId cid s with
          | None => (status_json 404 (Message "User not found"), s)
          | Some user =>
              let '(prompt, s') :=
                createPrompt now
                  {| ip_userId := Some (user_id user);
                     ip_originalPrompt := in_originalPrompt b;
                     ip_enhancedPrompt := in_enhancedPrompt b;
                     ip_role := Some (in_role b) |} s in
              (json (Saved (prompt_id prompt)), s')
          end
      end
  end.

(** GET /api/prompts/history *)
Definition get_prompts_history (now later : Date) (h : Header)
  (s : MemStorage) : Response * MemStorage :=
  match authenticated h with
  | None => (status_json 401 (Message "Unauthorized"), s)
  | Some cid =>
      match getUserByClerkId cid s with
      | None => (status_json 404 (Message "User not found"), s)
      | Some user =>
          let limitDays := if plan_is_free user then Some 7%Z else None in
          (json (PromptList
                   (getPromptsByUserId cal now later (user_id user)
                      limitDays s)), s)
      end
  end.

(** GET /api/prompts/:id.  [promptId] is [parseInt(req.params.id)],
    [None] for [NaN], which is the key of no prompt. *)
Definition get_prompt (h : Header) (promptId : option Z) (s : MemStorage)
  : Response * MemStorage :=
  match authenticated h with
  | None => (status_json 401 (Message "Unauthorized"), s)
  | Some cid =>
      match getUserByClerkId cid s with
      | None => (status_json 404 (Message "User not found"), s)
      | Some user =>
          match
            match promptId with
            | Some id => getPromptById id s
            | None => None
            end
          with
          | None => (status_json 404 (Message "Prompt not found"), s)
          | Some prompt =>
              if negb (opt_Z_eqb (userId prompt) (user_id user))
              then (status_json 404 (Message "Prompt not found"), s)
              else (json (PromptBody prompt), s)
          end
      end
  end.

(** DELETE /api/prompts/:id.  [Map.prototype.delete] of [NaN] removes
    nothing. *)
Definition delete_prompt (h : Header) (promptId : option Z) (s : MemStorage)
  : Response * MemStorage :=
  match authenticated h with
  | None => (status_json 401 (Message "Unauthorized"), s)
  | Some cid =>
      match getUserByClerkId cid s with
      | None => (status_json 404 (Message "User not found"), s)
      | Some user =>
          match
            match promptId with
            | Some id => getPromptById id s
            | None => None
            end
          with
          | None => (status_json 404 (Message "Prompt not found"), s)
          | Some prompt =>
              if negb (opt_Z_eqb (userId prompt) (user_id user))
              then (status_json 404 (Message "Prompt not found"), s)
              else
                (json Success,
                 match promptId with
                 | Some id => deletePrompt id s
                 | None => s
                 end)
          end
      end
  end.

(** GET /api/stats/usage *)
Definition get_stats_usage (now later : Date) (h : Header) (s : MemStorage)
  : Response * MemStorage :=
  match authenticated h with
  | None => (status_json 401 (Message "Unauthorized"), s)
  | Some cid =>
      match getUserByClerkId cid s with
      | None => (status_json 404 (Message "User not found"), s)
      | Some user =>
          (json (Usage (getUserUsageStats cal now later (user_id user) s)
                   (plan user)
                   (if plan_is_free user then Some FREE_TIER_DAILY_LIMIT
                    else None)
                   (or_zero (promptsUsedToday user))), s)
      end
  end.

End Handlers.

End Routes.

(* ================================================================== *)
(** * server/template-manager.ts *)
(* ================================================================== *)

Module TemplateManager.
Import JS.

Record TemplateVariable := {
  var_id : jsstring;
  var_name : jsstring;
  var_description : jsstring;
  defaultValue : jsstring;
  required : bool
}.

Record PromptTemplate := {
  id : jsstring;
  name : jsstring;
  description : jsstring;
  createdAt : Storage.Date;
  updatedAt : Storage.Date;
  userId : Z;
  role : AiEngine.UserRole;
  category : jsstring;
  tags : list jsstring;
  content : jsstring;
  variables : list TemplateVariable;
  usageCount : Z;
  isPublic : bool;
  version : Z;
  previousVersionId : option jsstring
}.

Record TemplateVariableValue := { vv_id : jsstring; value : jsstring }.

Definition LB : char := 123%N.
Definition RB : char := 125%N.

(** The longest prefix without a closing brace, and what follows it: the
    only way [[^}]+] can match in front of [\}\}], since giving back a
    code unit leaves one that is not a closing brace. *)
Fixpoint span_name (s : jsstring) : jsstring * jsstring :=
  match s with
  | [] => ([], [])
  | c :: s' =>
      if char_eqb c RB then ([], s)
      else let '(n, r) := span_name s' in (c :: n, r)
  end.

(** A match of [/\{\{([^}]+)\}\}/] at the start of [s]: the capture and
    what follows the match. *)
Definition token_at (s : jsstring) : option (jsstring * jsstring) :=
  match s with
  | a :: b :: s' =>
      if char_eqb a LB && char_eqb b LB then
        match span_name s' with
        | (c :: n, x :: y :: r) =>
            if char_eqb x RB && char_eqb y RB then Some (c :: n, r)
            else None
        | _ => None
        end
      else None
  | _ => None
  end.

(** The captures [match[1]] of the loop
    [while ((match = variableRegex.exec(content)) !== null)]: the search
    moves on one code unit where there is no match and resumes behind a
    match. *)
Fixpoint exec_loop (fuel : nat) (s : jsstring) : list jsstring :=
  match fuel with
  | 0 => []
  | S fuel' =>
      match token_at s with
      | Some (capture, r) => capture :: exec_loop fuel' r
      | None =>
          match s with
          | [] => []
          | _ :: s' => exec_loop fuel' s'
          end
      end
  end.

Definition captures (content : jsstring) : list jsstring :=
  exec_loop (S (List.length content)) content.

(** [/\{\{([^}]+)\}\}/.test(s)]: some [{{...}}] token is left in [s]. *)
Fixpoint has_token (s : jsstring) : bool :=
  match token_at s with
  | Some _ => true
  | None =>
      match s with
      | [] => false
      | _ :: s' => has_token s'
      end
  end.

Section Ids.

(** [generateId()] draws on [Math.random]: the identifier of the [k]-th
    call is taken as given. *)
Variable generateId : nat -> jsstring.

Fixpoint collect (variableNames : list jsstring) (k : nat)
  (caps : list jsstring) : list TemplateVariable :=
  match caps with
  | [] => []
  | capture :: caps' =>
      let name := trim capture in
      if existsb (str_eqb name) variableNames then
        collect variableNames k caps'
      else
        {| var_id := generateId k;
           var_name := name;
           var_description := lit "Value for " ++ name;
           defaultValue := [];
           required := true |}
        :: collect (name :: variableNames) (S k) caps'
  end.

Definition extractVariablesFromContent (content : jsstring)
  : list TemplateVariable :=
  collect [] 0 (captures content).

End Ids.

(** The characters with a meaning in a pattern.  A name without them,
    spliced into [new RegExp(`\\{\\{${name}\\}\\}`, 'g')], gives a
    pattern that matches the text [{{name}}] and nothing else. *)
Definition regex_special (c : char) : bool :=
  existsb (char_eqb c) (lit "\^$.*+?()[]{}|").

Definition literal_name (name : jsstring) : bool :=
  forallb (fun c => negb (regex_special c)) name.

Definition DOLLAR : char := 36%N.

(** [GetSubstitution] for a pattern without capture groups: in the
    replacement string, [$$] stands for [$], [$&] for the matched text,
    [$`] for the part of the string in front of the match and [$'] for
    the part behind it; a [$] in front of anything else, a digit or [<]
    included, stays as it is. *)
Fixpoint expand (matched before after v : jsstring) : jsstring :=
  match v with
  | [] => []
  | d :: rest =>
      if char_eqb d DOLLAR then
        match rest with
        | [] => [DOLLAR]
        | c :: v' =>
            if char_eqb c DOLLAR then
              DOLLAR :: expand matched before after v'
            else if char_eqb c 38%N then
              matched ++ expand matched before after v'
            else if char_eqb c 96%N then
              before ++ expand matched before after v'
            else if char_eqb c 39%N then
              after ++ expand matched before after v'
            else DOLLAR :: expand matched before after rest
        end
      else d :: expand matched before after rest
  end.

(** [s.replace(re, v)] for a global pattern that matches the text [pat]
    and nothing else: every occurrence, from the left, the search
    resuming behind each; [before] is what the search has left behind
    of the string. *)
Fixpoint replace_from (fuel : nat) (pat v before s : jsstring) : jsstring :=
  match fuel with
  | 0 => s
  | S fuel' =>
      if startsWith pat s
      then
        let after := skipn (List.length pat) s in
        expand pat before after v
        ++ replace_from fuel' pat v (before ++ pat) after
      else match s with
           | [] => []
           | c :: s' => c :: replace_from fuel' pat v (before ++ [c]) s'
           end
  end.

Definition replace (pat v s : jsstring) : jsstring :=
  replace_from (S (List.length s)) pat v [] s.

Definition placeholder (name : jsstring) : jsstring :=
  LB :: LB :: name ++ [RB; RB].

(** [valueMap], filled by [variableValues.forEach]. *)
Definition make_valueMap (variableValues : list TemplateVariableValue)
  : JSMap.t jsstring jsstring :=
  fold_left (fun m variable =>
               JSMap.set str_eqb (vv_id variable) (value variable) m)
            variableValues (JSMap.empty jsstring jsstring).

(** [valueMap.get(variable.id) || variable.defaultValue] *)
Definition value_of (valueMap : JSMap.t jsstring jsstring)
  (variable : TemplateVariable) : jsstring :=
  match JSMap.get str_eqb (var_id variable) valueMap with
  | Some v => if truthy v then v else defaultValue variable
  | None => defaultValue variable
  end.

(** One step of [template.variables.forEach].  [None] marks a step that
    lies outside the modelled fragment of [RegExp]: a name with a
    character that is special in a pattern. *)
Definition apply_variable (valueMap : JSMap.t jsstring jsstring)
  (result : option jsstring) (variable : TemplateVariable)
  : option jsstring :=
  match result with
  | None => None
  | Some r =>
      let value := value_of valueMap variable in
      if literal_name (var_name variable)
      then Some (replace (placeholder (var_name variable)) value r)
      else None
  end.

Definition applyTemplate (template : PromptTemplate)
  (variableValues : list TemplateVariableValue) : option jsstring :=
  let valueMap := make_valueMap variableValues in
  fold_left (apply_variable valueMap) (variables template)
            (Some (content template)).

End TemplateManager.

(* ================================================================== *)
(** * server/template-manager.ts: versions, validation and listings *)
(* ================================================================== *)

Module TemplateLibrary.
Import JS Storage TemplateManager.

(** [CreateTemplateInput] *)
Record CreateTemplateInput := {
  new_name : jsstring;
  new_description : jsstring;
  new_userId : Z;
  new_role : UserRole;
  new_category : jsstring;
  new_tags : list jsstring;
  new_content : jsstring;
  new_isPublic : bool
}.

(** [Partial<CreateTemplateInput>]: [None] for a key that is absent. *)
Record TemplateUpdates := {
  upd_name : option jsstring;
  upd_description : option jsstring;
  upd_userId : option Z;
  upd_role : option UserRole;
  upd_category : option jsstring;
  upd_tags : option (list jsstring);
  upd_content : option jsstring;
  upd_isPublic : option bool
}.

(** [x || d] for an optional string, and for an optional value that is
    truthy whenever it is present (a role, an array). *)
Definition string_or (x : option jsstring) (d : jsstring) : jsstring :=
  match x with
  | Some s => if truthy s then s else d
  | None => d
  end.

Definition present_or {A : Type} (x : option A) (d : A) : A :=
  match x with Some a => a | None => d end.

Section Ids.

(** [generateId()]: the identifier of the [k]-th call made by the
    function at hand, as in [extractVariablesFromContent]. *)
Variable generateId : nat -> jsstring.

Definition createTemplate (now : Date) (input : CreateTemplateInput)
  : PromptTemplate :=
  let variables := extractVariablesFromContent generateId (new_content input) in
  {| id := generateId (List.length variables);
     name := new_name input;
     description := new_description input;
     createdAt := now;
     updatedAt := now;
     userId := new_userId input;
     role := new_role input;
     category := new_category input;
     tags := new_tags input;
     content := new_content input;
     variables := variables;
     usageCount := 0;
     isPublic := new_isPublic input;
     version := 1;
     previousVersionId := None |}.

Definition createTemplateVersion (now : Date)
  (existingTemplate : PromptTemplate) (updates : TemplateUpdates)
  : PromptTemplate :=
  let contentChanged :=
    match upd_content updates with
    | Some c =>
        if truthy c && negb (str_eqb c (content existingTemplate))
        then Some c else None
    | None => None
    end in
  let variables :=
    match contentChanged with
    | Some c => extractVariablesFromContent generateId c
    | None => variables existingTemplate
    end in
  {| id := generateId (match contentChanged with
                       | Some _ => List.length variables
                       | None => 0
                       end);
     name := string_or (upd_name updates) (name existingTemplate);
     description :=
       string_or (upd_description updates) (description existingTemplate);
     createdAt := createdAt existingTemplate;
     updatedAt := now;
     userId := userId existingTemplate;
     role := present_or (upd_role updates) (role existingTemplate);
     category := string_or (upd_category updates) (category existingTemplate);
     tags := present_or (upd_tags updates) (tags existingTemplate);
     content := string_or (upd_content updates) (content existingTemplate);
     variables := variables;
     usageCount := 0;
     isPublic := present_or (upd_isPublic updates) (isPublic existingTemplate);
     version := (version existingTemplate + 1)%Z;
     previousVersionId := Some (id existingTemplate) |}.

End Ids.

(** [s.split('\n')] *)
Fixpoint split_lines_aux (cur : jsstring) (s : jsstring) : list jsstring :=
  match s with
  | [] => [rev cur]
  | c :: s' =>
      if char_eqb c 10%N then rev cur :: split_lines_aux [] s'
      else split_lines_aux (c :: cur) s'
  end.

Definition split_lines (s : jsstring) : list jsstring := split_lines_aux [] s.

(** [a.includes(x)] on an array of strings, [set.has(x)] on a set of
    strings *)
Definition has (a : list jsstring) (x : jsstring) : bool :=
  existsb (fun y => str_eqb y x) a.

Record ContentDiff := { added : list jsstring; removed : list jsstring }.

Record Comparison := {
  nameChanged : bool;
  descriptionChanged : bool;
  contentDiff : ContentDiff;
  variablesAdded : list TemplateVariable;
  variablesRemoved : list TemplateVariable
}.

Definition compareTemplateVersions (version1 version2 : PromptTemplate)
  : Comparison :=
  let lines1 := split_lines (content version1) in
  let lines2 := split_lines (content version2) in
  let varNames1 := map var_name (variables version1) in
  let varNames2 := map var_name (variables version2) in
  {| nameChanged := negb (str_eqb (name version1) (name version2));
     descriptionChanged :=
       negb (str_eqb (description version1) (description version2));
     contentDiff :=
       {| added := filter (fun line => negb (has lines1 line)) lines2;
          removed := filter (fun line => negb (has lines2 line)) lines1 |};
     variablesAdded :=
       filter (fun v => negb (has varNames1 (var_name v)))
              (variables version2);
     variablesRemoved :=
       filter (fun v => negb (has varNames2 (var_name v)))
              (variables version1) |}.

(** [a.indexOf(x)], [None] for -1 *)
Fixpoint indexOf_from (i : nat) (a : list jsstring) (x : jsstring)
  : option nat :=
  match a with
  | [] => None
  | y :: a' => if str_eqb y x then Some i else indexOf_from (S i) a' x
  end.

Definition indexOf (a : list jsstring) (x : jsstring) : option nat :=
  indexOf_from 0 a x.

(** [a.filter((x, index) => f(x, index))] *)
Fixpoint filter_indexed {A : Type} (f : A -> nat -> bool) (i : nat)
  (a : list A) : list A :=
  match a with
  | [] => []
  | x :: a' =>
      if f x i then x :: filter_indexed f (S i) a'
      else filter_indexed f (S i) a'
  end.

Record Validation := {
  isValid : bool;
  errors : list jsstring;
  warnings : list jsstring
}.

Section Validate.

(** The identifiers [validateTemplate] draws while it extracts the
    references; they are not part of its result. *)
Variable generateId : nat -> jsstring.

Definition validateTemplate (template : PromptTemplate) : Validation :=
  let variableReferences :=
    extractVariablesFromContent generateId (content template) in
  let definedVariables := map var_name (variables template) in
  let undefinedVars :=
    filter (fun v => negb (has definedVariables (var_name v)))
           variableReferences in
  let errors :=
    map (fun v => lit "Variable {{" ++ var_name v
                  ++ lit "}} is used in the template but not defined")
        undefinedVars in
  let unusedVars :=
    filter (fun v =>
              negb (existsb (fun ref => str_eqb (var_name ref) (var_name v))
                            variableReferences))
           (variables template) in
  let warnings :=
    map (fun v => lit "Variable '" ++ var_name v
                  ++ lit "' is defined but not used in the template")
        unusedVars in
  let errors :=
    if existsb (fun v => str_eqb (trim (var_name v)) [])
               (variables template)
    then errors ++ [lit "Empty variable names are not allowed"]
    else errors in
  let varNames := map var_name (variables template) in
  let duplicates :=
    filter_indexed
      (fun name index =>
         match indexOf varNames name with
         | Some i => negb (i =? index)
         | None => true
         end) 0 varNames in
  let errors :=
    errors ++ map (fun name => lit "Duplicate variable name: " ++ name)
                  duplicates in
  {| isValid := List.length errors =? 0;
     errors := errors;
     warnings := warnings |}.

End Validate.

(** [a.slice(0, limit)] for an integer [limit]; a negative [limit]
    counts from the end. *)
Definition slice0 {A : Type} (limit : Z) (a : list A) : list A :=
  if (limit <? 0)%Z
  then firstn (Z.to_nat (Z.of_nat (List.length a) + limit)) a
  else firstn (Z.to_nat limit) a.

(** [[...a].sort((x, y) => key(y) - key(x))]: descending by [key];
    the sort is stable, elements of equal key keep their order. *)
Section Sort.

Variable key : PromptTemplate -> Z.

Fixpoint insert_desc (x : PromptTemplate) (a : list PromptTemplate)
  : list PromptTemplate :=
  match a with
  | [] => [x]
  | y :: a' =>
      if (key x <? key y)%Z then y :: insert_desc x a' else x :: a
  end.

Definition sort_desc (a : list PromptTemplate) : list PromptTemplate :=
  fold_right insert_desc [] a.

End Sort.

Definition getPopularTemplates (templates : list PromptTemplate) (limit : Z)
  : list PromptTemplate :=
  slice0 limit (sort_desc usageCount templates).

Definition getRecentTemplates (templates : list PromptTemplate) (limit : Z)
  : list PromptTemplate :=
  slice0 limit (sort_desc updatedAt templates).

Definition role_is (userRole : UserRole) (t : PromptTemplate) : bool :=
  role_eqb (role t) userRole.

Definition getRecommendedTemplates (templates : list PromptTemplate)
  (userRole : UserRole) (userUsedTemplateIds : list jsstring) (limit : Z)
  : list PromptTemplate :=
  let unusedTemplates :=
    filter (fun t => negb (has userUsedTemplateIds (id t))) templates in
  let roleTemplates := filter (role_is userRole) unusedTemplates in
  let sorted := sort_desc usageCount roleTemplates in
  if (Z.of_nat (List.length sorted) <? limit)%Z then
    let otherPopular :=
      slice0 (limit - Z.of_nat (List.length sorted))
        (sort_desc usageCount
           (filter (fun t => negb (role_is userRole t)) unusedTemplates)) in
    sorted ++ otherPopular
  else slice0 limit sorted.

(** The keys every object inherits from [Object.prototype]: the keys
    [k] for which [grouped[k]] is already truthy on the empty object
    [{}]. *)
Definition prototype_keys : list jsstring :=
  map lit
    [ "constructor"; "__defineGetter__"; "__defineSetter__";
      "hasOwnProperty"; "__lookupGetter__"; "__lookupSetter__";
      "isPrototypeOf"; "propertyIsEnumerable"; "toString"; "valueOf";
      "__proto__"; "toLocaleString" ]%string.

(** [template.category || 'Uncategorized'] *)
Definition category_key (template : PromptTemplate) : jsstring :=
  if truthy (category template) then category template
  else lit "Uncategorized".

(** One round of [templates.forEach] in [groupTemplatesByCategory].  The
    object [grouped] is the map of its own keys.  For an inherited key
    the test [!grouped[category]] fails, no array is created, and
    [grouped[category].push] is not a function: the call throws. *)
Definition group_template
  (grouped : JSMap.t jsstring (list PromptTemplate))
  (template : PromptTemplate)
  : outcome (JSMap.t jsstring (list PromptTemplate)) :=
  let category := category_key template in
  match JSMap.get str_eqb category grouped with
  | Some group =>
      Returns (JSMap.set str_eqb category (group ++ [template]) grouped)
  | None =>
      if has prototype_keys category
      then Throws "grouped[category].push is not a function"
      else Returns (JSMap.set str_eqb category [template] grouped)
  end.

Fixpoint group_templates (templates : list PromptTemplate)
  (grouped : JSMap.t jsstring (list PromptTemplate))
  : outcome (JSMap.t jsstring (list PromptTemplate)) :=
  match templates with
  | [] => Returns grouped
  | template :: rest =>
      match group_template grouped template with
      | Returns grouped' => group_templates rest grouped'
      | Throws message => Throws message
      end
  end.

Definition groupTemplatesByCategory (templates : list PromptTemplate)
  : outcome (JSMap.t jsstring (list PromptTemplate)) :=
  group_templates templates (JSMap.empty jsstring (list PromptTemplate)).

Section Query.

(** [String.prototype.toLowerCase], taken as given. *)
Variable toLowerCase : jsstring -> jsstring.

Definition searchTemplates (templates : list PromptTemplate)
  (query : jsstring) : list PromptTemplate :=
  let searchTerms := filter truthy (split_ws (toLowerCase query)) in
  if List.length searchTerms =? 0 then templates
  else
    filter
      (fun template =>
         let nameMatches :=
           existsb (fun term => includes (toLowerCase (name template)) term)
                   searchTerms in
         let descMatches :=
           existsb (fun term =>
                      includes (toLowerCase (description template)) term)
                   searchTerms in
         let tagMatches :=
           existsb (fun tag =>
                      existsb (fun term => includes (toLowerCase tag) term)
                              searchTerms)
                   (tags template) in
         let varMatches :=
           existsb (fun variable =>
                      existsb (fun term =>
                                 includes (toLowerCase (var_name variable))
                                          term)
                              searchTerms)
                   (variables template) in
         let contentMatches :=
           existsb (fun term =>
                      includes (toLowerCase (content template)) term)
                   searchTerms in
         nameMatches || descMatches || tagMatches || varMatches
         || contentMatches)
      templates.

End Query.

End TemplateLibrary.

(* ================================================================== *)
(** * server/prompt-block-builder.ts *)
(* ================================================================== *)

Module BlockBuilder.
Import JS.

Inductive PromptBlockType :=
| context | goal | tone | audience | constraints | format | examples
| custom.

(** [order] is held as a whole number, which it is in every block that
    createDefaultPromptStructure and addBlock make; what is proved below
    of the orders rests on their comparison only. *)
Record PromptBlock := {
  id : jsstring;
  type : PromptBlockType;
  content : jsstring;
  order : Z;
  required : bool;
  description : jsstring
}.

Record BlockTemplate := {
  tpl_type : PromptBlockType;
  label : jsstring;
  tpl_description : jsstring;
  placeholder : jsstring;
  tpl_required : bool;
  defaultContent : option jsstring
}.

Record PromptStructure := {
  blocks : list PromptBlock;
  combinedPrompt : jsstring
}.

Section Templates.
Local Open Scope string_scope.

Definition blockTemplates (t : PromptBlockType) : BlockTemplate :=
  match t with
  | context =>
      {| tpl_type := context; label := lit "Context";
         tpl_description :=
           lit "Background information and context for the prompt";
         placeholder :=
           lit "Provide background information about the project, situation, or problem...";
         tpl_required := true;
         defaultContent :=
           Some (lit "I am working on a project that requires...") |}
  | goal =>
      {| tpl_type := goal; label := lit "Goal";
         tpl_description :=
           lit "The main objective or purpose of the prompt";
         placeholder :=
           lit "Describe what you want to achieve with this prompt...";
         tpl_required := true;
         defaultContent := Some (lit "The goal is to create...") |}
  | tone =>
      {| tpl_type := tone; label := lit "Tone";
         tpl_description := lit "The tone and style of the response";
         placeholder :=
           lit "Specify the desired tone (professional, casual, technical, etc.)...";
         tpl_required := false;
         defaultContent := Some (lit "Use a professional tone with...") |}
  | audience =>
      {| tpl_type := audience; label := lit "Audience";
         tpl_description := lit "The target audience for the content";
         placeholder := lit "Describe who the content is for...";
         tpl_required := false;
         defaultContent := Some (lit "The target audience consists of...") |}
  | constraints =>
      {| tpl_type := constraints; label := lit "Constraints";
         tpl_description := lit "Limitations, requirements, or boundaries";
         placeholder := lit "List any constraints or limitations...";
         tpl_required := false;
         defaultContent :=
           Some (lit "Must adhere to the following constraints...") |}
  | format =>
      {| tpl_type := format; label := lit "Format";
         tpl_description :=
           lit "The desired format or structure of the output";
         placeholder :=
           lit "Specify the format (bullet points, paragraphs, table, etc.)...";
         tpl_required := false;
         defaultContent := Some (lit "Format the output as...") |}
  | examples =>
      {| tpl_type := examples; label := lit "Examples";
         tpl_description :=
           lit "Examples or references to clarify expectations";
         placeholder := lit "Provide examples or references...";
         tpl_required := false;
         defaultContent :=
           Some (lit "For reference, here are some examples...") |}
  | custom =>
      {| tpl_type := custom; label := lit "Custom";
         tpl_description := lit "Custom section for additional information";
         placeholder := lit "Add any additional information...";
         tpl_required := false;
         defaultContent := None |}
  end.

End Templates.

(** [createBlock(type, order, content)]; [newId] is what [generateId()]
    returns for the call, [content] is [None] when the argument is left
    out. *)
Definition createBlock (newId : jsstring) (t : PromptBlockType) (order : Z)
  (content : option jsstring) : PromptBlock :=
  let template := blockTemplates t in
  {| id := newId;
     type := t;
     content :=
       match Storage.or_string content with
       | Some c => c
       | None =>
           match Storage.or_string (defaultContent template) with
           | Some d => d
           | None => []
           end
       end;
     order := order;
     required := tpl_required template;
     description := tpl_description template |}.

(** [[...blocks].sort((a, b) => a.order - b.order)]: ascending by
    [order]; the sort is stable. *)
Fixpoint insert_by_order (x : PromptBlock) (a : list PromptBlock)
  : list PromptBlock :=
  match a with
  | [] => [x]
  | y :: a' =>
      if (order y <? order x)%Z then y :: insert_by_order x a' else x :: a
  end.

Definition sort_by_order (a : list PromptBlock) : list PromptBlock :=
  fold_right insert_by_order [] a.

Definition combineBlocks (blocks : list PromptBlock) : jsstring :=
  let sortedBlocks := sort_by_order blocks in
  join [10%N; 10%N]
    (map (fun block =>
            let blockTemplate := blockTemplates (type block) in
            label blockTemplate ++ [58%N; 10%N] ++ content block)
         (filter (fun block => truthy (trim (content block)))
                 sortedBlocks)).

Definition updateBlock (promptStructure : PromptStructure)
  (blockId : jsstring) (newContent : jsstring) : PromptStructure :=
  let updatedBlocks :=
    map (fun block =>
           if str_eqb (id block) blockId
           then {| id := id block; type := type block;
                   content := newContent; order := order block;
                   required := required block;
                   description := description block |}
           else block)
        (blocks promptStructure) in
  {| blocks := updatedBlocks; combinedPrompt := combineBlocks updatedBlocks |}.

(** [Math.max(...orders, -1)] *)
Definition max_order (bs : list PromptBlock) : Z :=
  fold_right Z.max (-1)%Z (map order bs).

Definition addBlock (newId : jsstring) (promptStructure : PromptStructure)
  (blockType : PromptBlockType) : PromptStructure :=
  let maxOrder := max_order (blocks promptStructure) in
  let newBlock := createBlock newId blockType (maxOrder + 1)%Z None in
  let updatedBlocks := blocks promptStructure ++ [newBlock] in
  {| blocks := updatedBlocks; combinedPrompt := combineBlocks updatedBlocks |}.

Definition removeBlock (promptStructure : PromptStructure)
  (blockId : jsstring) : PromptStructure :=
  let blockToRemove :=
    find (fun b => str_eqb (id b) blockId) (blocks promptStructure) in
  if match blockToRemove with Some b => required b | None => false end
  then promptStructure
  else
    let updatedBlocks :=
      filter (fun block => negb (str_eqb (id block) blockId))
             (blocks promptStructure) in
    {| blocks := updatedBlocks;
       combinedPrompt := combineBlocks updatedBlocks |}.

Definition with_order (block : PromptBlock) (o : Z) : PromptBlock :=
  {| id := id block; type := type block; content := content block;
     order := o; required := required block;
     description := description block |}.

Definition reorderBlocks (promptStructure : PromptStructure)
  (blockId : jsstring) (newOrder : Z) : PromptStructure :=
  match find (fun b => str_eqb (id b) blockId) (blocks promptStructure) with
  | None => promptStructure
  | Some blockToMove =>
      let updatedBlocks :=
        map (fun block =>
               if str_eqb (id block) blockId then with_order block newOrder
               else if (order blockToMove <? newOrder)
                       && (order blockToMove <? order block)
                       && (order block <=? newOrder)
                    then with_order block (order block - 1)
                    else if (newOrder <? order blockToMove)
                            && (newOrder <=? order block)
                            && (order block <? order blockToMove)
                         then with_order block (order block + 1)
                         else block)%Z
            (blocks promptStructure) in
      {| blocks := updatedBlocks;
         combinedPrompt := combineBlocks updatedBlocks |}
  end.

Section Ids.

(** [generateId()]: the identifier of the [k]-th call. *)
Variable generateId : nat -> jsstring.

Definition createDefaultPromptStructure : PromptStructure :=
  let blocks :=
    [ createBlock (generateId 0) context 0 None;
      createBlock (generateId 1) goal 1 None;
      createBlock (generateId 2) audience 2 None;
      createBlock (generateId 3) tone 3 None;
      createBlock (generateId 4) format 4 None;
      createBlock (generateId 5) constraints 5 None ] in
  {| blocks := blocks; combinedPrompt := combineBlocks blocks |}.

End Ids.

End BlockBuilder.

(* ================================================================== *)
(** * Facts about the quality score *)
(* ================================================================== *)

Unset Implicit Arguments.

Module QualityFacts.
Import JS RegExp QualityAnalyzer QualityAnalyzer.qualityPatterns.
Local Open Scope Z_scope.

(** The values an aspect score, the context score and the completeness
    points can take. *)
Definition aspect_values : list Z := [0; 20; 40; 60; 80; 100].
Definition context_values : list Z := [40; 80].
Definition completeness_values : list Z := [0; 30; 40; 60; 70; 100].

(** The weighted mean in exact arithmetic, in thousandths, rounded to the
    nearest integer with a tie going up. *)
Definition exact_score (clarity lacking measures context sections
  formatting completeness : Z) : Z :=
  (250 * clarity + 100 * lacking + 150 * measures + 200 * context
   + 75 * sections + 75 * formatting + 150 * completeness + 500) / 1000.

(** A binary64 number as a count of halves; every term of the weighted
    sum and every partial sum is such a number. *)
Definition halves (k : Z) : spec_float :=
  binary_normalize Number.prec Number.emax k (-1) false.

Definition sf_eqb (a b : spec_float) : bool :=
  match a, b with
  | S754_zero s, S754_zero s' => Bool.eqb s s'
  | S754_finite s m e, S754_finite s' m' e' =>
      Bool.eqb s s' && Pos.eqb m m' && Z.eqb e e'
  | _, _ => false
  end.

Definition upto (n : nat) : list Z := map Z.of_nat (seq 0 (S n)).

(** The five terms of the sum, in halves. *)
Definition clarity_halves (c : Z) : Z := c / 2.
Definition specificity_halves (l m : Z) : Z := (2 * l + 3 * m) / 10.
Definition context_halves (x : Z) : Z := 2 * x / 5.
Definition structure_halves (s f : Z) : Z := 3 * (s + f) / 20.
Definition completeness_halves (p : Z) : Z := 3 * p / 10.

(** The inputs of the score that do not depend on the vague terms, as
    [analyzePromptQuality] computes them from a text in a given state of
    the patterns. *)
Record OtherAspects := {
  ambiguous_matches : nat;
  lacking_score : Z;
  measures_score : Z;
  context_found : bool;
  sections_score : Z;
  formatting_score : Z;
  completeness_found : Completeness
}.

Definition state_before_score (text : jsstring) (st : RegExpState)
  : RegExpState :=
  snd (completeness_tests text (snd (completeness_tests text st))).

Definition other_aspects (text : jsstring) (st : RegExpState)
  : OtherAspects :=
  {| ambiguous_matches := count_matches text clarity_ambiguous;
     lacking_score := calculateAspectScore text specificity_lacking false;
     measures_score := calculateAspectScore text specificity_measures true;
     context_found := some_test context_defined text;
     sections_score := calculateAspectScore text structure_sections true;
     formatting_score :=
       calculateAspectScore text structure_formatting true;
     completeness_found :=
       fst (completeness_tests text (state_before_score text st)) |}.

Definition vague_matches (text : jsstring) : nat :=
  count_matches text clarity_vague.

Lemma forallb_In {A} (f : A -> bool) (l : list A) (x : A) :
  forallb f l = true -> In x l -> f x = true.
Proof.
  intros H Hin. rewrite forallb_forall in H. exact (H x Hin).
Qed.

Lemma sf_eqb_eq a b : sf_eqb a b = true -> a = b.
Proof.
  destruct a as [s | s | | s m e], b as [s' | s' | | s' m' e']; simpl;
    try discriminate.
  - intros H. apply Bool.eqb_prop in H. congruence.
  - intros H. apply andb_true_iff in H. destruct H as [H He].
    apply andb_true_iff in H. destruct H as [Hs Hm].
    apply Bool.eqb_prop in Hs. apply Pos.eqb_eq in Hm. apply Z.eqb_eq in He.
    congruence.
Qed.

Lemma In_upto (n : nat) (k : Z) : 0 <= k <= Z.of_nat n -> In k (upto n).
Proof.
  intros H. unfold upto. apply in_map_iff. exists (Z.to_nat k).
  split; [lia |]. apply in_seq. lia.
Qed.

(** Each product of the source is the exact term. *)
Lemma check_clarity_term :
  forallb (fun c =>
             sf_eqb (Number.mul (Number.of_Z c) (Number.literal 25 100))
                    (halves (clarity_halves c)))
          aspect_values = true.
Proof. vm_compute. reflexivity. Qed.

Lemma check_specificity_term :
  forallb (fun l => forallb (fun m =>
     sf_eqb (Number.mul
               (Number.add
                  (Number.mul (Number.of_Z l) (Number.literal 4 10))
                  (Number.mul (Number.of_Z m) (Number.literal 6 10)))
               (Number.literal 25 100))
            (halves (specificity_halves l m)))
     aspect_values) aspect_values = true.
Proof. vm_compute. reflexivity. Qed.

Lemma check_context_term :
  forallb (fun x =>
             sf_eqb (Number.mul (Number.of_Z x) (Number.literal 2 10))
                    (halves (context_halves x)))
          context_values = true.
Proof. vm_compute. reflexivity. Qed.

Lemma check_structure_term :
  forallb (fun s => forallb (fun f =>
     sf_eqb (Number.mul
               (Number.add
                  (Number.mul (Number.of_Z s) (Number.literal 5 10))
                  (Number.mul (Number.of_Z f) (Number.literal 5 10)))
               (Number.literal 15 100))
            (halves (structure_halves s f)))
     aspect_values) aspect_values = true.
Proof. vm_compute. reflexivity. Qed.

Lemma check_completeness_term :
  forallb (fun p =>
             sf_eqb (Number.mul (Number.of_Z p) (Number.literal 15 100))
                    (halves (completeness_halves p)))
          completeness_values = true.
Proof. vm_compute. reflexivity. Qed.

(** Sums of halves in the range of the score are exact. *)
Lemma check_add :
  forallb (fun a => forallb (fun b =>
     sf_eqb (Number.add (halves a) (halves b)) (halves (a + b)))
     (upto 50)) (upto 162) = true.
Proof. vm_compute. reflexivity. Qed.

Lemma check_round :
  forallb (fun k =>
             Number.is_finite (halves k)
             && (Number.Math_round (halves k) =? (k + 1) / 2))
          (upto 200) = true.
Proof. vm_compute. reflexivity. Qed.

Lemma add_halves a b :
  0 <= a <= 162 -> 0 <= b <= 50 ->
  Number.add (halves a) (halves b) = halves (a + b).
Proof.
  intros Ha Hb. apply sf_eqb_eq.
  pose proof (forallb_In _ _ a check_add (In_upto 162 a Ha)) as H.
  exact (forallb_In _ _ b H (In_upto 50 b Hb)).
Qed.

Ltac each_value H :=
  simpl in H;
  repeat (destruct H as [H | H]; [symmetry in H; subst |]);
  [.. | contradiction].

Ltac by_evaluation := vm_compute; repeat split; congruence.

Lemma clarity_halves_facts c :
  In c aspect_values ->
  2 * clarity_halves c = c /\ 0 <= clarity_halves c <= 50.
Proof. intros H. each_value H; by_evaluation. Qed.

Lemma specificity_halves_facts l m :
  In l aspect_values -> In m aspect_values ->
  10 * specificity_halves l m = 2 * l + 3 * m
  /\ 0 <= specificity_halves l m <= 50.
Proof. intros Hl Hm. each_value Hl; each_value Hm; by_evaluation. Qed.

Lemma context_halves_facts x :
  In x context_values ->
  5 * context_halves x = 2 * x /\ 0 <= context_halves x <= 32.
Proof. intros H. each_value H; by_evaluation. Qed.

Lemma structure_halves_facts s f :
  In s aspect_values -> In f aspect_values ->
  20 * structure_halves s f = 3 * (s + f)
  /\ 0 <= structure_halves s f <= 30.
Proof. intros Hs Hf. each_value Hs; each_value Hf; by_evaluation. Qed.

Lemma completeness_halves_facts p :
  In p completeness_values ->
  10 * completeness_halves p = 3 * p /\ 0 <= completeness_halves p <= 30.
Proof. intros H. each_value H; by_evaluation. Qed.

(** On every combination of inputs the code can produce, the binary64
    sum is finite and rounds to the exact weighted mean. *)
Lemma score_exact c l m x s f p :
  In c aspect_values -> In l aspect_values -> In m aspect_values ->
  In x context_values -> In s aspect_values -> In f aspect_values ->
  In p completeness_values ->
  Number.is_finite (weighted_score c l m x s f p) = true /\
  Number.Math_round (weighted_score c l m x s f p)
  = exact_score c l m x s f p.
Proof.
  intros Hc Hl Hm Hx Hs Hf Hp.
  destruct (clarity_halves_facts c Hc) as [Ec Bc].
  destruct (specificity_halves_facts l m Hl Hm) as [Es Bs].
  destruct (context_halves_facts x Hx) as [Ex Bx].
  destruct (structure_halves_facts s f Hs Hf) as [Et Bt].
  destruct (completeness_halves_facts p Hp) as [Ep Bp].
  assert (E : weighted_score c l m x s f p
              = halves (clarity_halves c + specificity_halves l m
                        + context_halves x + structure_halves s f
                        + completeness_halves p)).
  { unfold weighted_score. cbv zeta.
    rewrite (sf_eqb_eq _ _ (forallb_In _ _ c check_clarity_term Hc)).
    rewrite (sf_eqb_eq _ _
               (forallb_In _ _ m
                  (forallb_In _ _ l check_specificity_term Hl) Hm)).
    rewrite (sf_eqb_eq _ _ (forallb_In _ _ x check_context_term Hx)).
    rewrite (sf_eqb_eq _ _
               (forallb_In _ _ f
                  (forallb_In _ _ s check_structure_term Hs) Hf)).
    rewrite (sf_eqb_eq _ _ (forallb_In _ _ p check_completeness_term Hp)).
    rewrite !add_halves by lia. reflexivity. }
  rewrite E.
  assert (Hk : 0 <= clarity_halves c + specificity_halves l m
                    + context_halves x + structure_halves s f
                    + completeness_halves p <= 200) by lia.
  pose proof (forallb_In _ _ _ check_round (In_upto 200 _ Hk)) as R.
  cbv beta in R. apply andb_true_iff in R. destruct R as [R1 R2].
  apply Z.eqb_eq in R2. split; [exact R1 |]. rewrite R2.
  unfold exact_score.
  replace (250 * c + 100 * l + 150 * m + 200 * x + 75 * s + 75 * f
           + 150 * p + 500)
    with ((clarity_halves c + specificity_halves l m + context_halves x
           + structure_halves s f + completeness_halves p + 1) * 500)
    by lia.
  change 1000 with (2 * 500).
  symmetry. apply Z.div_mul_cancel_r; lia.
Qed.

Lemma aspect_score_cases (k : nat) (positive : bool) :
  In (if positive then Z.min 100 (Z.of_nat k * 20)
      else Z.max 0 (100 - Z.of_nat k * 20)) aspect_values.
Proof.
  destruct k as [|[|[|[|[|k]]]]]; destruct positive;
    try (vm_compute; tauto).
  - replace (Z.min 100 (Z.of_nat (S (S (S (S (S k))))) * 20)) with 100
      by lia.
    simpl; tauto.
  - replace (Z.max 0 (100 - Z.of_nat (S (S (S (S (S k))))) * 20)) with 0
      by lia.
    simpl; tauto.
Qed.

Lemma calculateAspectScore_values text patterns positive :
  In (calculateAspectScore text patterns positive) aspect_values.
Proof. unfold calculateAspectScore. apply aspect_score_cases. Qed.

Lemma aspect_values_bounds v : In v aspect_values -> 0 <= v <= 100.
Proof. simpl. intros H. repeat (destruct H as [H | H]; [lia |]). tauto. Qed.

Lemma context_values_bounds v : In v context_values -> 0 <= v <= 100.
Proof. simpl. intros H. repeat (destruct H as [H | H]; [lia |]). tauto. Qed.

Lemma completeness_values_bounds v :
  In v completeness_values -> 0 <= v <= 100.
Proof. simpl. intros H. repeat (destruct H as [H | H]; [lia |]). tauto. Qed.

Lemma completeness_points_values has :
  In (completeness_points has) completeness_values.
Proof.
  destruct has as [[] [] []]; vm_compute; tauto.
Qed.

Lemma context_score_values (b : bool) :
  In (if b then 80 else 40) context_values.
Proof. destruct b; simpl; tauto. Qed.

(** The state in which [calculateOverallScore] runs inside
    [analyzePromptQuality]. *)
Lemma identifyIssues_state text st :
  snd (identifyIssues text st) = snd (completeness_tests text st).
Proof.
  unfold identifyIssues. destruct (completeness_tests text st). reflexivity.
Qed.

Lemma identifyStrengths_state text st :
  snd (identifyStrengths text st) = snd (completeness_tests text st).
Proof.
  unfold identifyStrengths. destruct (completeness_tests text st).
  reflexivity.
Qed.

Lemma analyze_score text st :
  score (fst (analyzePromptQuality text st))
  = fst (calculateOverallScore text (state_before_score text st)).
Proof.
  unfold analyzePromptQuality, state_before_score.
  pose proof (identifyIssues_state text st) as H1.
  destruct (identifyIssues text st) as [iss st1]. simpl in H1. subst st1.
  pose proof (identifyStrengths_state text (snd (completeness_tests text st)))
    as H2.
  destruct (identifyStrengths text (snd (completeness_tests text st)))
    as [str st2].
  simpl in H2. subst st2.
  destruct (calculateOverallScore text
              (snd (completeness_tests text
                      (snd (completeness_tests text st))))) as [sc st3].
  reflexivity.
Qed.

Lemma count_fold_shift text (ps : list pattern) (n : nat) :
  fold_left (fun matches p => (matches + match_count (fst p) (snd p) text)%nat)
            ps n
  = (n + count_matches text ps)%nat.
Proof.
  unfold count_matches. revert n.
  induction ps as [|p ps IH]; intros n; simpl.
  - lia.
  - rewrite IH. rewrite (IH (match_count (fst p) (snd p) text)). lia.
Qed.

Lemma count_matches_app text ps qs :
  count_matches text (ps ++ qs)
  = (count_matches text ps + count_matches text qs)%nat.
Proof.
  unfold count_matches at 1. rewrite fold_left_app.
  rewrite count_fold_shift. reflexivity.
Qed.

Definition clarity_score (vague ambiguous : nat) : Z :=
  Z.max 0 (100 - Z.of_nat (vague + ambiguous) * 20).

(** The score of [analyzePromptQuality] as a function of the number of
    vague matches and of the other inputs. *)
Lemma score_formula text st :
  let o := other_aspects text st in
  score (fst (analyzePromptQuality text st))
  = exact_score
      (clarity_score (vague_matches text) (ambiguous_matches o))
      (lacking_score o) (measures_score o)
      (if context_found o then 80 else 40)
      (sections_score o) (formatting_score o)
      (completeness_points (completeness_found o)).
Proof.
  intros o. rewrite analyze_score. unfold calculateOverallScore.
  destruct (completeness_tests text (state_before_score text st))
    as [has st'] eqn:E.
  cbv beta iota. unfold fst at 1.
  assert (Hc : calculateAspectScore text (clarity_vague ++ clarity_ambiguous)
                 false
               = clarity_score (vague_matches text) (ambiguous_matches o)).
  { unfold calculateAspectScore, clarity_score, vague_matches, o,
      other_aspects, ambiguous_matches.
    rewrite count_matches_app. reflexivity. }
  assert (Hhas : completeness_found o = has).
  { unfold o, other_aspects, completeness_found. rewrite E. reflexivity. }
  rewrite Hhas.
  rewrite <- Hc.
  apply score_exact;
    try apply calculateAspectScore_values;
    try apply completeness_points_values;
    try apply context_score_values.
Qed.

(** The category scores as integers: specificity is 0.4 and 0.6 of its
    two parts and structure the mean of its two parts, both whole
    numbers on the values the parts take. *)
Definition specificity_score (lacking measures : Z) : Z :=
  (4 * lacking + 6 * measures) / 10.

Definition structure_score (sections formatting : Z) : Z :=
  (sections + formatting) / 2.

Definition weighted_mean (clarity specificity context structure
  completeness : Z) : Z :=
  (25 * clarity + 25 * specificity + 20 * context + 15 * structure
   + 15 * completeness + 50) / 100.

Lemma specificity_whole l m :
  In l aspect_values -> In m aspect_values ->
  10 * specificity_score l m = 4 * l + 6 * m
  /\ 0 <= specificity_score l m <= 100.
Proof.
  intros Hl Hm. each_value Hl; each_value Hm; by_evaluation.
Qed.

Lemma structure_whole s f :
  In s aspect_values -> In f aspect_values ->
  2 * structure_score s f = s + f /\ 0 <= structure_score s f <= 100.
Proof.
  intros Hs Hf. each_value Hs; each_value Hf; by_evaluation.
Qed.

Lemma exact_score_weighted_mean c l m x s f p :
  In l aspect_values -> In m aspect_values ->
  In s aspect_values -> In f aspect_values ->
  exact_score c l m x s f p
  = weighted_mean c (specificity_score l m) x (structure_score s f) p.
Proof.
  intros Hl Hm Hs Hf.
  destruct (specificity_whole l m Hl Hm) as [E1 _].
  destruct (structure_whole s f Hs Hf) as [E2 _].
  unfold exact_score, weighted_mean.
  replace (250 * c + 100 * l + 150 * m + 200 * x + 75 * s + 75 * f
           + 150 * p + 500)
    with ((25 * c + 25 * specificity_score l m + 20 * x
           + 15 * structure_score s f + 15 * p + 50) * 10) by lia.
  change 1000 with (100 * 10).
  apply Z.div_mul_cancel_r; lia.
Qed.

Lemma clarity_score_bounds v a : 0 <= clarity_score v a <= 100.
Proof. unfold clarity_score. lia. Qed.

(** C7: for every text (and every state of the stateful patterns) the
    score of analyzePromptQuality lies between 0 and 100; it is the
    weighted mean, rounded, of the five category scores clarity,
    specificity, context, structure and completeness with the weights
    0.25, 0.25, 0.2, 0.15 and 0.15, which sum to 1, and each category
    score lies between 0 and 100. *)
Theorem score_in_range (text : jsstring) (st : RegExpState) :
  let o := other_aspects text st in
  let clarity := clarity_score (vague_matches text) (ambiguous_matches o) in
  let specificity :=
    specificity_score (lacking_score o) (measures_score o) in
  let context := if context_found o then 80 else 40 in
  let structure :=
    structure_score (sections_score o) (formatting_score o) in
  let completeness := completeness_points (completeness_found o) in
  (0 <= clarity <= 100 /\ 0 <= specificity <= 100 /\ 0 <= context <= 100
   /\ 0 <= structure <= 100 /\ 0 <= completeness <= 100)
  /\ 25 + 25 + 20 + 15 + 15 = 100
  /\ score (fst (analyzePromptQuality text st))
     = weighted_mean clarity specificity context structure completeness
  /\ 0 <= score (fst (analyzePromptQuality text st)) <= 100.
Proof.
  intros o clarity specificity context structure completeness.
  assert (Hl : In (lacking_score o) aspect_values)
    by apply calculateAspectScore_values.
  assert (Hm : In (measures_score o) aspect_values)
    by apply calculateAspectScore_values.
  assert (Hs : In (sections_score o) aspect_values)
    by apply calculateAspectScore_values.
  assert (Hf : In (formatting_score o) aspect_values)
    by apply calculateAspectScore_values.
  assert (Bc : 0 <= clarity <= 100) by apply clarity_score_bounds.
  assert (Bs : 0 <= specificity <= 100)
    by apply (specificity_whole _ _ Hl Hm).
  assert (Bx : 0 <= context <= 100)
    by (apply context_values_bounds, context_score_values).
  assert (Bt : 0 <= structure <= 100) by apply (structure_whole _ _ Hs Hf).
  assert (Bp : 0 <= completeness <= 100)
    by (apply completeness_values_bounds, completeness_points_values).
  assert (E : score (fst (analyzePromptQuality text st))
              = weighted_mean clarity specificity context structure
                  completeness).
  { rewrite score_formula. fold o.
    apply exact_score_weighted_mean; assumption. }
  split; [tauto |]. split; [reflexivity |]. split; [exact E |].
  rewrite E. unfold weighted_mean.
  split.
  - apply Z.div_pos; lia.
  - apply Z.lt_succ_r. apply Z.div_lt_upper_bound; lia.
Qed.

(** C4, as the spec states it, fails: appending the vague term
    [stuff] to the text [for x] gives [for x] enough words after it to
    count as stated context, and the score goes from 43 up to 46. *)
Lemma vague_injection_raises_score :
  (vague_matches (lit "for x")
   < vague_matches (lit "for x" ++ lit " stuff"))%nat
  /\ score (fst (analyzePromptQuality (lit "for x") fresh_state)) = 43
  /\ score (fst (analyzePromptQuality (lit "for x" ++ lit " stuff")
                  fresh_state)) = 46.
Proof.
  assert (E0 : vague_matches (lit "for x") = 0%nat)
    by (vm_compute; reflexivity).
  assert (E1 : vague_matches (lit "for x" ++ lit " stuff") = 1%nat)
    by (vm_compute; reflexivity).
  rewrite E0, E1. split; [lia |].
  split; vm_compute; reflexivity.
Qed.

(** C4, amended: more vague-term matches never raise the clarity score,
    and they never raise the overall score when the text with more of
    them gives the other inputs of the score (ambiguous-pronoun matches,
    the two specificity scores, the context test, the two structure
    scores and the three completeness tests) the same values. *)
Theorem vague_injection_monotone (text text' : jsstring)
  (st st' : RegExpState) :
  (vague_matches text <= vague_matches text')%nat ->
  other_aspects text' st' = other_aspects text st ->
  clarity_score (vague_matches text')
    (ambiguous_matches (other_aspects text' st'))
  <= clarity_score (vague_matches text)
       (ambiguous_matches (other_aspects text st))
  /\ score (fst (analyzePromptQuality text' st'))
     <= score (fst (analyzePromptQuality text st)).
Proof.
  intros Hv Ho.
  assert (Hc : clarity_score (vague_matches text')
                 (ambiguous_matches (other_aspects text st))
               <= clarity_score (vague_matches text)
                    (ambiguous_matches (other_aspects text st))).
  { unfold clarity_score. lia. }
  rewrite !score_formula. cbv zeta. rewrite Ho.
  split; [exact Hc |].
  unfold exact_score. apply Z.div_le_mono; lia.
Qed.

Lemma vague_injection_monotone_witness :
  (vague_matches (lit "write code")
   <= vague_matches (lit "write some code"))%nat
  /\ other_aspects (lit "write some code") fresh_state
     = other_aspects (lit "write code") fresh_state
  /\ score (fst (analyzePromptQuality (lit "write some code") fresh_state))
     <= score (fst (analyzePromptQuality (lit "write code") fresh_state)).
Proof.
  assert (Hv : (vague_matches (lit "write code")
                <= vague_matches (lit "write some code"))%nat)
    by (vm_compute; repeat constructor).
  assert (Ho : other_aspects (lit "write some code") fresh_state
               = other_aspects (lit "write code") fresh_state)
    by (vm_compute; reflexivity).
  split; [exact Hv |]. split; [exact Ho |].
  exact (proj2 (vague_injection_monotone (lit "write code")
                  (lit "write some code") fresh_state fresh_state Hv Ho)).
Defined.

End QualityFacts.

(* ================================================================== *)
(** * Facts about the prompt enhancer *)
(* ================================================================== *)

Module EnhanceFacts.
Import JS AiEngine.

(** The number of words of [s]: the positions where a code unit that is
    not white space follows white space or the start ([after_space]). *)
Fixpoint word_starts (after_space : bool) (s : jsstring) : nat :=
  match s with
  | [] => 0
  | c :: s' =>
      if isSpace c then word_starts true s'
      else (if after_space then 1 else 0) + word_starts false s'
  end.

(** Whether the position behind [s] follows white space. *)
Fixpoint ends_in_space (after_space : bool) (s : jsstring) : bool :=
  match s with
  | [] => after_space
  | c :: s' => ends_in_space (isSpace c) s'
  end.

Definition provide : jsstring :=
  lit "Provide a detailed and comprehensive ".

Lemma truthy_rev (s : jsstring) : truthy (rev s) = truthy s.
Proof.
  destruct s as [|c s]; [reflexivity |].
  simpl. destruct (rev s ++ [c]) eqn:E; [|reflexivity].
  apply app_eq_nil in E. destruct E; discriminate.
Qed.

Lemma split_ws_aux_words (s : jsstring) :
  forall (in_sep : bool) (cur : jsstring),
    (in_sep = true -> cur = []) ->
    List.length (filter truthy (split_ws_aux in_sep cur s))
    = word_starts (negb (truthy cur)) s + (if truthy cur then 1 else 0).
Proof.
  induction s as [|c s IH]; intros in_sep cur Hsep; simpl.
  - rewrite truthy_rev. destruct (truthy cur); reflexivity.
  - destruct (isSpace c) eqn:Ec.
    + pose proof (IH true [] (fun _ => eq_refl)) as IH0. simpl in IH0.
      destruct in_sep.
      * rewrite (Hsep eq_refl). simpl. exact IH0.
      * simpl. rewrite truthy_rev.
        destruct (truthy cur); simpl; rewrite IH0; lia.
    + pose proof (IH false (c :: cur) ltac:(discriminate)) as IH1.
      simpl in IH1. rewrite IH1.
      destruct (truthy cur); simpl; lia.
Qed.

Lemma countWords_word_starts (s : jsstring) :
  countWords s = word_starts true s.
Proof.
  unfold countWords, split_ws.
  rewrite split_ws_aux_words by discriminate. simpl. lia.
Qed.

Lemma word_starts_app (a s : jsstring) :
  forall b,
    word_starts b (a ++ s)
    = word_starts b a + word_starts (ends_in_space b a) s.
Proof.
  induction a as [|c a IH]; intros b; simpl.
  - reflexivity.
  - destruct (isSpace c); rewrite IH; lia.
Qed.

Lemma word_starts_false_le (s : jsstring) (b : bool) :
  word_starts false s <= word_starts b s.
Proof.
  destruct s as [|c s]; simpl; [lia |].
  destruct (isSpace c); destruct b; lia.
Qed.

Lemma ends_in_space_app (a : jsstring) (c : char) (b : bool) :
  ends_in_space b (a ++ [c]) = isSpace c.
Proof.
  revert b. induction a as [|x a IH]; intros b; simpl; [reflexivity |].
  apply IH.
Qed.

(** White space in front of and behind a text holds no word. *)
Lemma word_starts_trimStart (s : jsstring) :
  word_starts true (trimStart s) = word_starts true s.
Proof.
  induction s as [|c s IH]; simpl; [reflexivity |].
  destruct (isSpace c) eqn:E; [exact IH |].
  simpl. rewrite E. reflexivity.
Qed.

Lemma trimStart_split (s : jsstring) :
  exists w, s = w ++ trimStart s /\ forallb isSpace w = true.
Proof.
  induction s as [|c s [w [E F]]]; simpl.
  - exists []. split; reflexivity.
  - destruct (isSpace c) eqn:Ec.
    + exists (c :: w). simpl. rewrite Ec, F. split; [congruence | reflexivity].
    + exists []. split; reflexivity.
Qed.

Lemma word_starts_spaces (w : jsstring) (b : bool) :
  forallb isSpace w = true -> word_starts b w = 0.
Proof.
  revert b. induction w as [|c w IH]; intros b H; simpl; [reflexivity |].
  simpl in H. apply andb_true_iff in H. destruct H as [Hc Hw].
  rewrite Hc. apply IH. exact Hw.
Qed.

Lemma forallb_rev {A} (f : A -> bool) (l : list A) :
  forallb f (rev l) = forallb f l.
Proof.
  induction l as [|x l IH]; simpl; [reflexivity |].
  rewrite forallb_app, IH. simpl. rewrite andb_true_r. apply andb_comm.
Qed.

Lemma word_starts_trimEnd (s : jsstring) (b : bool) :
  word_starts b (trimEnd s) = word_starts b s.
Proof.
  unfold trimEnd.
  destruct (trimStart_split (rev s)) as [w [E F]].
  assert (Es : s = rev (trimStart (rev s)) ++ rev w).
  { rewrite <- rev_app_distr, <- E. symmetry. apply rev_involutive. }
  rewrite Es at 2. rewrite word_starts_app.
  rewrite (word_starts_spaces (rev w)); [lia |].
  rewrite forallb_rev. exact F.
Qed.

Lemma countWords_trim (s : jsstring) : countWords (trim s) = countWords s.
Proof.
  rewrite !countWords_word_starts. unfold trim.
  rewrite word_starts_trimEnd. apply word_starts_trimStart.
Qed.

(** Text added behind the prompt that holds a word adds to the count. *)
Lemma more_words_behind (t a w : jsstring) :
  1 <= word_starts false a ->
  word_starts true t < word_starts true (t ++ a ++ w).
Proof.
  intros H. rewrite !word_starts_app.
  pose proof (word_starts_false_le a (ends_in_space true t)). lia.
Qed.

(** The frame [Provide a detailed and comprehensive <topics> ... ] adds
    its own words in front of the prompt. *)
Lemma more_words_around (topics t w : jsstring) :
  ends_in_space true topics = true ->
  word_starts true t < word_starts true (provide ++ topics ++ t ++ w).
Proof.
  intros H. rewrite !word_starts_app.
  change (ends_in_space true provide) with true. rewrite H.
  change (word_starts true provide) with 5. lia.
Qed.

Lemma topics_end_in_space (l : list jsstring) :
  ends_in_space true
    (if 0 <? List.length l then join (lit "/") l ++ lit " " else [])
  = true.
Proof.
  destruct (0 <? List.length l); [|reflexivity].
  apply (ends_in_space_app (join (lit "/") l) 32%N true).
Qed.

Lemma str_eqb_refl (s : jsstring) : str_eqb s s = true.
Proof.
  induction s as [|c s IH]; simpl; [reflexivity |].
  unfold char_eqb. rewrite N.eqb_refl. exact IH.
Qed.

Section Host.

Variable toLowerCase : jsstring -> jsstring.

(** C9: for every prompt that is not empty after trimming, every role
    (and either setting of shouldAddSections) the enhanced text has
    strictly more words than the original prompt; the two counts that
    enhancePrompt reports are the word counts of the original and of the
    enhanced text. *)
Theorem enhanced_has_more_words (originalPrompt : jsstring)
  (role : UserRole) (shouldAddSections : bool) :
  truthy (trim originalPrompt) = true ->
  countWords originalPrompt
  < countWords
      (enhanced (enhancePrompt toLowerCase originalPrompt role
                   shouldAddSections))
  /\ wc_original
       (wordCount (enhancePrompt toLowerCase originalPrompt role
                     shouldAddSections))
     = countWords originalPrompt
  /\ wc_enhanced
       (wordCount (enhancePrompt toLowerCase originalPrompt role
                     shouldAddSections))
     = countWords
         (enhanced (enhancePrompt toLowerCase originalPrompt role
                      shouldAddSections)).
Proof.
  intros Hne. unfold enhancePrompt. rewrite Hne. cbv zeta.
  change (negb true) with false. cbv iota.
  set (t := trim originalPrompt).
  unfold enhanced, wordCount, wc_original, wc_enhanced.
  split; [| split; [apply countWords_trim | reflexivity]].
  rewrite <- (countWords_trim originalPrompt). fold t.
  rewrite !countWords_word_starts.
  destruct (word_starts true t <? 5).
  - assert (Hr : (0 <? List.length (firstn 2 (roleSpecificEnhancements role)))
                 = true) by (destruct role; reflexivity).
    rewrite Hr.
    destruct shouldAddSections; rewrite <- !app_assoc;
      apply more_words_around, topics_end_in_space.
  - destruct (word_starts true t <? 15).
    + rewrite <- !app_assoc.
      apply (more_words_behind t (nl ++ nl ++ lit "Please include:")).
      vm_compute. lia.
    + rewrite <- !app_assoc.
      apply (more_words_behind t (nl ++ nl ++ lit "Additional requirements:")).
      vm_compute. lia.
Qed.

(** C5: two invocations of enhancePrompt on the same host with the same
    role and the same text return the same record: the same enhanced
    string code unit for code unit, the same word counts and the same
    specificity label.  The function reads no clock, no random number
    and no state that a call could change. *)
Theorem enhancePrompt_deterministic (text text' : jsstring)
  (role role' : UserRole) (shouldAddSections : bool) :
  text = text' -> role = role' ->
  enhancePrompt toLowerCase text role shouldAddSections
  = enhancePrompt toLowerCase text' role' shouldAddSections
  /\ str_eqb
       (enhanced (enhancePrompt toLowerCase text role shouldAddSections))
       (enhanced (enhancePrompt toLowerCase text' role' shouldAddSections))
     = true
  /\ wordCount (enhancePrompt toLowerCase text role shouldAddSections)
     = wordCount (enhancePrompt toLowerCase text' role' shouldAddSections)
  /\ specificity (enhancePrompt toLowerCase text role shouldAddSections)
     = specificity (enhancePrompt toLowerCase text' role' shouldAddSections).
Proof.
  intros Ht Hr. subst text' role'.
  repeat split. apply str_eqb_refl.
Qed.

End Host.

Lemma enhanced_has_more_words_witness :
  truthy (trim (lit " fix my code ")) = true
  /\ countWords (lit " fix my code ")
     < countWords
         (enhanced (enhancePrompt ascii_toLowerCase (lit " fix my code ")
                      developer true)).
Proof.
  split; [reflexivity |].
  exact (proj1 (enhanced_has_more_words ascii_toLowerCase
                  (lit " fix my code ") developer true eq_refl)).
Defined.

Lemma enhancePrompt_deterministic_witness :
  enhancePrompt ascii_toLowerCase (lit "draw a logo") designer true
  = enhancePrompt ascii_toLowerCase (lit "draw a logo") designer true.
Proof.
  exact (proj1 (enhancePrompt_deterministic ascii_toLowerCase
                  (lit "draw a logo") (lit "draw a logo")
                  designer designer true eq_refl eq_refl)).
Defined.

End EnhanceFacts.

(* ================================================================== *)
(** * Facts about [Map] *)
(* ================================================================== *)

Module MapFacts.
Section Keys.

Variables K V : Type.
Variable eqb : K -> K -> bool.
Hypothesis eqb_eq : forall a b, eqb a b = true <-> a = b.

Lemma eqb_refl (a : K) : eqb a a = true.
Proof. apply eqb_eq. reflexivity. Qed.

Lemma eqb_neq (a b : K) : a <> b -> eqb a b = false.
Proof.
  intros H. destruct (eqb a b) eqn:E; [|reflexivity].
  apply eqb_eq in E. contradiction.
Qed.

Lemma get_In (k : K) (v : V) (m : JSMap.t K V) :
  JSMap.get eqb k m = Some v -> In (k, v) m.
Proof.
  induction m as [|[k' v'] m IH]; simpl; [discriminate |].
  destruct (eqb k k') eqn:E.
  - apply eqb_eq in E. intros H. left. congruence.
  - intros H. right. exact (IH H).
Qed.

Lemma get_None_keys (k : K) (m : JSMap.t K V) :
  JSMap.get eqb k m = None <-> ~ In k (JSMap.keys m).
Proof.
  induction m as [|[k' v'] m IH]; simpl.
  - tauto.
  - destruct (eqb k k') eqn:E.
    + apply eqb_eq in E. split; [discriminate | intros H; exfalso; auto].
    + rewrite IH. split.
      * intros H [H1 | H1]; [|auto]. subst k'. rewrite eqb_refl in E.
        discriminate.
      * tauto.
Qed.

Lemma In_get (k : K) (v : V) (m : JSMap.t K V) :
  NoDup (JSMap.keys m) -> In (k, v) m -> JSMap.get eqb k m = Some v.
Proof.
  induction m as [|[k' v'] m IH]; simpl; [tauto |].
  intros Hnd [H | H].
  - injection H as -> ->. rewrite eqb_refl. reflexivity.
  - inversion Hnd as [|? ? Hnot Hnd']; subst.
    destruct (eqb k k') eqn:E.
    + apply eqb_eq in E. subst k'. exfalso. apply Hnot.
      apply (in_map fst) in H. exact H.
    + exact (IH Hnd' H).
Qed.

Lemma get_set_same (k : K) (v : V) (m : JSMap.t K V) :
  JSMap.get eqb k (JSMap.set eqb k v m) = Some v.
Proof.
  induction m as [|[k' v'] m IH]; simpl.
  - rewrite eqb_refl. reflexivity.
  - destruct (eqb k k') eqn:E; simpl.
    + rewrite eqb_refl. reflexivity.
    + rewrite E. exact IH.
Qed.

Lemma get_set_other (k k' : K) (v : V) (m : JSMap.t K V) :
  k <> k' -> JSMap.get eqb k' (JSMap.set eqb k v m) = JSMap.get eqb k' m.
Proof.
  intros Hne. induction m as [|[k2 v2] m IH]; simpl.
  - rewrite (eqb_neq _ _ (not_eq_sym Hne)). reflexivity.
  - destruct (eqb k k2) eqn:E; simpl.
    + apply eqb_eq in E. subst k2.
      rewrite (eqb_neq _ _ (not_eq_sym Hne)). reflexivity.
    + destruct (eqb k' k2); [reflexivity | exact IH].
Qed.

Lemma In_set_elim (k : K) (v : V) (m : JSMap.t K V) (x : K * V) :
  In x (JSMap.set eqb k v m) -> x = (k, v) \/ In x m.
Proof.
  induction m as [|[k' v'] m IH]; simpl.
  - intros [H | []]. left. auto.
  - destruct (eqb k k'); simpl.
    + intros [H | H]; [left; auto | right; right; exact H].
    + intros [H | H]; [right; left; exact H |].
      destruct (IH H) as [H' | H']; [left | right; right]; exact H'.
Qed.

Lemma NoDup_keys_set (k : K) (v : V) (m : JSMap.t K V) :
  NoDup (JSMap.keys m) -> NoDup (JSMap.keys (JSMap.set eqb k v m)).
Proof.
  induction m as [|[k' v'] m IH]; simpl; intros Hnd.
  - constructor; [intros [] | constructor].
  - inversion Hnd as [|? ? Hnot Hnd']; subst.
    destruct (eqb k k') eqn:E; simpl.
    + apply eqb_eq in E. subst k'. constructor; assumption.
    + constructor; [| exact (IH Hnd')].
      intros Hin. apply in_map_iff in Hin. destruct Hin as [[k2 v2] [E2 Hin]].
      simpl in E2. subst k2.
      destruct (In_set_elim _ _ _ _ Hin) as [H | H].
      * injection H as H _. subst k'. rewrite eqb_refl in E. discriminate.
      * apply Hnot. apply (in_map fst) in H. exact H.
Qed.

Lemma In_delete (k : K) (m : JSMap.t K V) (x : K * V) :
  In x (JSMap.delete eqb k m) -> In x m /\ fst x <> k.
Proof.
  unfold JSMap.delete. rewrite filter_In. intros [H E]. split; [exact H |].
  intros Heq. subst k. rewrite eqb_refl in E. discriminate.
Qed.

Lemma get_delete_same (k : K) (m : JSMap.t K V) :
  JSMap.get eqb k (JSMap.delete eqb k m) = None.
Proof.
  apply get_None_keys. intros Hin. apply in_map_iff in Hin.
  destruct Hin as [x [E Hin]]. apply In_delete in Hin. tauto.
Qed.

Lemma get_delete_other (k k' : K) (m : JSMap.t K V) :
  k <> k' ->
  JSMap.get eqb k' (JSMap.delete eqb k m) = JSMap.get eqb k' m.
Proof.
  intros Hne. induction m as [|[k2 v2] m IH]; simpl; [reflexivity |].
  destruct (eqb k k2) eqn:E; simpl.
  - apply eqb_eq in E. subst k2.
    rewrite (eqb_neq _ _ (not_eq_sym Hne)). exact IH.
  - destruct (eqb k' k2); [reflexivity | exact IH].
Qed.

Lemma NoDup_keys_delete (k : K) (m : JSMap.t K V) :
  NoDup (JSMap.keys m) -> NoDup (JSMap.keys (JSMap.delete eqb k m)).
Proof.
  induction m as [|[k' v'] m IH]; simpl; intros Hnd; [constructor |].
  inversion Hnd as [|? ? Hnot Hnd']; subst.
  destruct (eqb k k'); simpl; [exact (IH Hnd') |].
  constructor; [| exact (IH Hnd')].
  intros Hin. apply in_map_iff in Hin. destruct Hin as [x [E Hin]].
  apply In_delete in Hin. destruct Hin as [Hin _].
  apply Hnot. rewrite <- E. apply (in_map fst). exact Hin.
Qed.

End Keys.
End MapFacts.

(* ================================================================== *)
(** * Facts about the storage and the routes *)
(* ================================================================== *)

Module StorageFacts.
Import JS Storage Routes.
Local Open Scope Z_scope.

(** The eleven operations of [IStorage] with their arguments. *)
Inductive Operation :=
| GetUser (id : Z)
| GetUserByUsername (name : jsstring)
| GetUserByClerkId (cid : jsstring)
| CreateUser (now : Date) (insertUser : InsertUser)
| UpdateUserRole (id : Z) (role : UserRole)
| ResetUserPromptUsage (now : Date) (id : Z)
| IncrementUserPromptUsage (now : Date) (id : Z)
| GetPromptById (id : Z)
| GetPromptsByUserId (now later : Date) (uid : Z) (limitDays : option Z)
| CreatePrompt (now : Date) (insertPrompt : InsertPrompt)
| DeletePrompt (id : Z)
| GetUserUsageStats (now later : Date) (uid : Z).

(** The storage after an operation; an operation that throws, like one
    that only reads, leaves it as it was. *)
Definition state_after (op : Operation) (s : MemStorage) : MemStorage :=
  match op with
  | CreateUser now insertUser => snd (createUser now insertUser s)
  | UpdateUserRole id role =>
      match updateUserRole id role s with
      | Returns (_, s') => s'
      | Throws _ => s
      end
  | ResetUserPromptUsage now id =>
      match resetUserPromptUsage now id s with
      | Returns s' => s'
      | Throws _ => s
      end
  | IncrementUserPromptUsage now id =>
      match incrementUserPromptUsage now id s with
      | Returns s' => s'
      | Throws _ => s
      end
  | CreatePrompt now insertPrompt => snd (createPrompt now insertPrompt s)
  | DeletePrompt id => deletePrompt id s
  | GetUser _ | GetUserByUsername _ | GetUserByClerkId _ | GetPromptById _
  | GetPromptsByUserId _ _ _ _ | GetUserUsageStats _ _ _ => s
  end.

Definition run_all (ops : list Operation) (s : MemStorage) : MemStorage :=
  fold_left (fun st op => state_after op st) ops s.

(** The invariant of the storage: a record is stored under its own id,
    ids are below the counter that hands them out, and no key occurs
    twice. *)
Record wf (s : MemStorage) : Prop := {
  wf_user_keys : NoDup (JSMap.keys (users s));
  wf_users : forall k u,
      In (k, u) (users s) -> user_id u = k /\ k < userIdCounter s;
  wf_prompt_keys : NoDup (JSMap.keys (prompts s));
  wf_prompts : forall k p,
      In (k, p) (prompts s) -> prompt_id p = k /\ k < promptIdCounter s
}.

(** The prompt id [pid] is not in use and will not be handed out. *)
Definition retired (pid : Z) (s : MemStorage) : Prop :=
  (forall k p, In (k, p) (prompts s) -> prompt_id p = k /\ k <> pid)
  /\ pid < promptIdCounter s.

Lemma wf_constructor : wf constructor.
Proof.
  split; simpl; try apply NoDup_nil; intros ? ? [].
Qed.

Lemma wf_put_user (s : MemStorage) (id : Z) (u u' : User) :
  wf s -> getUser id s = Some u -> user_id u' = user_id u ->
  wf (put_user id u' s).
Proof.
  intros [H1 H2 H3 H4] Hget Hid.
  apply (MapFacts.get_In _ _ Z.eqb Z.eqb_eq) in Hget.
  destruct (H2 _ _ Hget) as [Hk Hlt].
  split; simpl; try assumption.
  - apply (MapFacts.NoDup_keys_set _ _ Z.eqb Z.eqb_eq). exact H1.
  - intros k x Hin.
    destruct (MapFacts.In_set_elim _ _ _ _ _ _ _ Hin) as [E | Hold].
    + injection E as -> ->. split; [congruence | exact Hlt].
    + exact (H2 _ _ Hold).
Qed.

Lemma wf_state_after (op : Operation) (s : MemStorage) :
  wf s -> wf (state_after op s).
Proof.
  intros Hwf. destruct op; simpl; try exact Hwf.
  - (* createUser *)
    destruct Hwf as [H1 H2 H3 H4]. split; simpl; try assumption.
    + apply (MapFacts.NoDup_keys_set _ _ Z.eqb Z.eqb_eq). exact H1.
    + intros k x Hin.
      destruct (MapFacts.In_set_elim _ _ _ _ _ _ _ Hin) as [E | Hold].
      * injection E as -> ->. simpl. lia.
      * destruct (H2 _ _ Hold). lia.
  - (* updateUserRole *)
    unfold updateUserRole. destruct (getUser id s) as [u |] eqn:E;
      [| exact Hwf].
    apply (wf_put_user s id u); auto.
  - unfold resetUserPromptUsage. destruct (getUser id s) as [u |] eqn:E;
      [| exact Hwf].
    apply (wf_put_user s id u); auto.
  - unfold incrementUserPromptUsage.
    destruct (getUser id s) as [u |] eqn:E; [| exact Hwf].
    apply (wf_put_user s id u); auto.
  - (* createPrompt *)
    destruct Hwf as [H1 H2 H3 H4]. split; simpl; try assumption.
    + apply (MapFacts.NoDup_keys_set _ _ Z.eqb Z.eqb_eq). exact H3.
    + intros k x Hin.
      destruct (MapFacts.In_set_elim _ _ _ _ _ _ _ Hin) as [E | Hold].
      * injection E as -> ->. simpl. lia.
      * destruct (H4 _ _ Hold). lia.
  - (* deletePrompt *)
    destruct Hwf as [H1 H2 H3 H4]. split; simpl; try assumption.
    + apply (MapFacts.NoDup_keys_delete _ _ Z.eqb Z.eqb_eq). exact H3.
    + intros k x Hin.
      apply (MapFacts.In_delete _ _ Z.eqb Z.eqb_eq) in Hin. apply H4. tauto.
Qed.

Lemma wf_run (ops : list Operation) (s : MemStorage) :
  wf s -> wf (run_all ops s).
Proof.
  revert s. induction ops as [|op ops IH]; intros s H; simpl; [exact H |].
  apply IH. apply wf_state_after. exact H.
Qed.

(** C8: in a storage that satisfies its invariant (as every storage
    reached from a new one does, wf_constructor and wf_state_after),
    every operation of the storage other than deletePrompt leaves every
    stored prompt as it was: the same record, with the same original
    text, enhanced text, role, owning user id and creation time, is
    stored under the same id afterwards. *)
Theorem prompt_immutable (op : Operation) (s : MemStorage) (pid : Z)
  (p : Prompt) :
  wf s ->
  (forall id, op <> DeletePrompt id) ->
  getPromptById pid s = Some p ->
  getPromptById pid (state_after op s) = Some p.
Proof.
  intros Hwf Hop Hget. unfold getPromptById in *.
  destruct op; simpl; try exact Hget.
  - destruct (updateUserRole id role s) as [[u s'] |] eqn:E; [| exact Hget].
    unfold updateUserRole in E. destruct (getUser id s); [| discriminate].
    injection E as _ <-. exact Hget.
  - destruct (resetUserPromptUsage now id s) as [s' |] eqn:E;
      [| exact Hget].
    unfold resetUserPromptUsage in E. destruct (getUser id s);
      [| discriminate].
    injection E as <-. exact Hget.
  - destruct (incrementUserPromptUsage now id s) as [s' |] eqn:E;
      [| exact Hget].
    unfold incrementUserPromptUsage in E. destruct (getUser id s);
      [| discriminate].
    injection E as <-. exact Hget.
  - rewrite (MapFacts.get_set_other _ _ Z.eqb Z.eqb_eq); [exact Hget |].
    apply (MapFacts.get_In _ _ Z.eqb Z.eqb_eq) in Hget.
    destruct (wf_prompts s Hwf _ _ Hget). lia.
  - exfalso. exact (Hop id eq_refl).
Qed.

Lemma prompt_immutable_witness :
  getPromptById 1
    (state_after
       (CreatePrompt 5
          {| ip_userId := Some 1; ip_originalPrompt := lit "b";
             ip_enhancedPrompt := lit "B"; ip_role := Some writer |})
       (state_after
          (CreatePrompt 4
             {| ip_userId := Some 1; ip_originalPrompt := lit "a";
                ip_enhancedPrompt := lit "A"; ip_role := None |})
          constructor))
  = Some {| prompt_id := 1; userId := Some 1; originalPrompt := lit "a";
            enhancedPrompt := lit "A"; prompt_role := None;
            createdAt := Some 4 |}.
Proof.
  apply prompt_immutable.
  - apply wf_state_after. exact wf_constructor.
  - discriminate.
  - reflexivity.
Defined.

Lemma In_insert_newest_first (p q : Prompt) (l : list Prompt) :
  In q (insert_newest_first p l) -> q = p \/ In q l.
Proof.
  induction l as [|x l IH]; simpl.
  - intros [H | []]. left. auto.
  - destruct (time_or 0 p <? time_or 0 x); simpl.
    + intros [H | H]; [right; left; exact H |].
      destruct (IH H); [left | right; right]; assumption.
    + intros [H | H]; [left; auto | right; exact H].
Qed.

Lemma In_sort_newest_first (q : Prompt) (l : list Prompt) :
  In q (sort_newest_first l) -> In q l.
Proof.
  induction l as [|x l IH]; simpl; [tauto |].
  intros H. apply In_insert_newest_first in H.
  destruct H as [H | H]; [left; auto | right; exact (IH H)].
Qed.

Lemma In_getPromptsByUserId (cal : Calendar) (now later : Date) (uid : Z)
  (limitDays : option Z) (s : MemStorage) (p : Prompt) :
  In p (getPromptsByUserId cal now later uid limitDays s) ->
  exists k, In (k, p) (prompts s).
Proof.
  unfold getPromptsByUserId. intros H.
  assert (Hs : In p (sort_newest_first
                       (filter (fun prompt => opt_Z_eqb (userId prompt) uid)
                               (JSMap.values (prompts s))))).
  { destruct (or_number limitDays); [| exact H].
    apply filter_In in H. tauto. }
  apply In_sort_newest_first in Hs. apply filter_In in Hs.
  destruct Hs as [Hs _]. unfold JSMap.values in Hs.
  apply in_map_iff in Hs. destruct Hs as [[k q] [E Hin]].
  simpl in E. subst q. exists k. exact Hin.
Qed.

Lemma retired_state_after (pid : Z) (op : Operation) (s : MemStorage) :
  retired pid s -> retired pid (state_after op s).
Proof.
  intros [H1 H2]. destruct op; simpl; try (split; assumption).
  - unfold updateUserRole. destruct (getUser id s); split; assumption.
  - unfold resetUserPromptUsage. destruct (getUser id s); split; assumption.
  - unfold incrementUserPromptUsage.
    destruct (getUser id s); split; assumption.
  - split; simpl; [| lia].
    intros k x Hin.
    destruct (MapFacts.In_set_elim _ _ _ _ _ _ _ Hin) as [E | Hold].
    + injection E as -> ->. simpl. lia.
    + exact (H1 _ _ Hold).
  - split; simpl; [| exact H2].
    intros k x Hin. apply (MapFacts.In_delete _ _ Z.eqb Z.eqb_eq) in Hin.
    apply H1. tauto.
Qed.

Lemma retired_run (pid : Z) (ops : list Operation) (s : MemStorage) :
  retired pid s -> retired pid (run_all ops s).
Proof.
  revert s. induction ops as [|op ops IH]; intros s H; simpl; [exact H |].
  apply IH. apply retired_state_after. exact H.
Qed.

Lemma delete_prompt_success (h : Header) (promptId : option Z)
  (s : MemStorage) :
  status (fst (delete_prompt h promptId s)) = 200 ->
  exists pid prompt,
    promptId = Some pid /\ getPromptById pid s = Some prompt
    /\ snd (delete_prompt h promptId s) = deletePrompt pid s.
Proof.
  unfold delete_prompt.
  destruct (authenticated h) as [cid |]; [| simpl; discriminate].
  destruct (getUserByClerkId cid s) as [user |]; [| simpl; discriminate].
  destruct promptId as [pid |]; [| simpl; discriminate].
  destruct (getPromptById pid s) as [prompt |] eqn:E;
    [| simpl; discriminate].
  destruct (negb (opt_Z_eqb (userId prompt) (user_id user)));
    [simpl; discriminate |].
  intros _. exists pid, prompt. simpl. auto.
Qed.

(** C3: in a storage that satisfies its invariant, after a DELETE
    /api/prompts/:id that succeeds (status 200), whatever operations of
    the storage follow, no history query (getPromptsByUserId for any
    user, the owner included, with or without a day limit) returns a
    prompt with that id. *)
Theorem deleted_prompt_not_in_history (cal : Calendar) (h : Header)
  (promptId : option Z) (s : MemStorage) (ops : list Operation)
  (now later : Date) (uid : Z) (limitDays : option Z) (p : Prompt) :
  wf s ->
  status (fst (delete_prompt h promptId s)) = 200 ->
  In p (getPromptsByUserId cal now later uid limitDays
          (run_all ops (snd (delete_prompt h promptId s)))) ->
  Some (prompt_id p) <> promptId.
Proof.
  intros Hwf Hok Hin.
  destruct (delete_prompt_success h promptId s Hok)
    as [pid [prompt [E1 [Hget E2]]]].
  subst promptId. rewrite E2 in Hin.
  assert (Hret : retired pid (deletePrompt pid s)).
  { split; simpl.
    - intros k x Hx. apply (MapFacts.In_delete _ _ Z.eqb Z.eqb_eq) in Hx.
      destruct Hx as [Hx Hne]. destruct (wf_prompts s Hwf _ _ Hx).
      simpl in Hne. tauto.
    - apply (MapFacts.get_In _ _ Z.eqb Z.eqb_eq) in Hget.
      destruct (wf_prompts s Hwf _ _ Hget). assumption. }
  apply (retired_run pid ops) in Hret.
  apply In_getPromptsByUserId in Hin. destruct Hin as [k Hk].
  destruct Hret as [Hall _]. destruct (Hall _ _ Hk) as [E Hne].
  intros Heq. injection Heq as Heq. congruence.
Qed.

Definition sample_storage : MemStorage :=
  run_all [ CreateUser 0
          {| iu_username := lit "a@b.c"; iu_password := [];
             iu_clerkId := Some (lit "c1"); iu_role := None;
             iu_plan := Some free |};
        CreatePrompt 1
          {| ip_userId := Some 1; ip_originalPrompt := lit "a";
             ip_enhancedPrompt := lit "A"; ip_role := Some writer |};
        CreatePrompt 2
          {| ip_userId := Some 1; ip_originalPrompt := lit "b";
             ip_enhancedPrompt := lit "B"; ip_role := Some writer |} ]
      constructor.

Definition sample_prompt : Prompt :=
  {| prompt_id := 2; userId := Some 1; originalPrompt := lit "b";
     enhancedPrompt := lit "B"; prompt_role := Some writer;
     createdAt := Some 2 |}.

Definition sample_later : list Operation :=
  [ CreatePrompt 3
      {| ip_userId := Some 1; ip_originalPrompt := lit "c";
         ip_enhancedPrompt := lit "C"; ip_role := None |} ].

Lemma deleted_prompt_not_in_history_witness :
  wf sample_storage
  /\ status (fst (delete_prompt (Some (lit "c1")) (Some 1) sample_storage))
     = 200
  /\ In sample_prompt
       (getPromptsByUserId utc 10 10 1 (Some 7)
          (run_all sample_later
             (snd (delete_prompt (Some (lit "c1")) (Some 1)
                     sample_storage))))
  /\ Some (prompt_id sample_prompt) <> Some 1.
Proof.
  assert (H1 : wf sample_storage) by (apply wf_run; exact wf_constructor).
  assert (H2 : status (fst (delete_prompt (Some (lit "c1")) (Some 1)
                              sample_storage)) = 200) by reflexivity.
  assert (H3 : In sample_prompt
                 (getPromptsByUserId utc 10 10 1 (Some 7)
                    (run_all sample_later
                       (snd (delete_prompt (Some (lit "c1")) (Some 1)
                               sample_storage)))))
    by (vm_compute; right; left; reflexivity).
  split; [exact H1 |]. split; [exact H2 |]. split; [exact H3 |].
  exact (deleted_prompt_not_in_history utc (Some (lit "c1")) (Some 1)
           sample_storage sample_later 10 10 1 (Some 7) sample_prompt
           H1 H2 H3).
Defined.

(** ** Requests without an authentication identifier *)

(** C6, as the spec states it, fails: POST /api/prompts/enhance without
    the header is answered with status 200 (anonymous use). *)
Lemma anonymous_enhance_is_accepted :
  authenticated None = None
  /\ post_prompts_enhance utc 0 0 0 0 None
       (Some {| in_originalPrompt := lit "a"; in_enhancedPrompt := lit "A";
                in_role := writer |}) constructor
     = (json (Enhanced None (lit "a") (lit "A") false), constructor)
  /\ status (json (Enhanced None (lit "a") (lit "A") false)) = 200.
Proof. repeat split. Qed.

(** C6, amended: a request without an authentication identifier (no
    x-clerk-user-id header, or an empty one) is answered with status 401
    on GET /api/users/me, GET /api/prompts/history, GET and DELETE
    /api/prompts/:id and GET /api/stats/usage, and on POST
    /api/prompts/save when its body is valid; POST /api/prompts/enhance
    with a valid body is answered with status 200 and saved: false and
    stores nothing; either POST with an invalid body is answered with
    status 400.  In each case the storage is left as it was. *)
Theorem missing_header_responses (cal : Calendar) (h : Header)
  (s : MemStorage) :
  authenticated h = None ->
  get_users_me h s = (status_json 401 (Message "Unauthorized"), s)
  /\ (forall now later,
        get_prompts_history cal now later h s
        = (status_json 401 (Message "Unauthorized"), s))
  /\ (forall promptId,
        get_prompt h promptId s
        = (status_json 401 (Message "Unauthorized"), s))
  /\ (forall promptId,
        delete_prompt h promptId s
        = (status_json 401 (Message "Unauthorized"), s))
  /\ (forall now later,
        get_stats_usage cal now later h s
        = (status_json 401 (Message "Unauthorized"), s))
  /\ (forall now b,
        post_prompts_save now h (Some b) s
        = (status_json 401 (Message "Unauthorized"), s))
  /\ (forall today tReset tIncrement tCreate b,
        post_prompts_enhance cal today tReset tIncrement tCreate h (Some b) s
        = (json (Enhanced None (in_originalPrompt b) (in_enhancedPrompt b)
                   false), s))
  /\ (forall now,
        post_prompts_save now h None s
        = (status_json 400 (Message "Invalid request"), s))
  /\ (forall today tReset tIncrement tCreate,
        post_prompts_enhance cal today tReset tIncrement tCreate h None s
        = (status_json 400 (Message "Invalid request"), s)).
Proof.
  intros Hh.
  unfold get_users_me, get_prompts_history, get_prompt, delete_prompt,
    get_stats_usage, post_prompts_save, post_prompts_enhance.
  rewrite Hh. repeat split.
Qed.

Lemma missing_header_responses_witness :
  authenticated (Some []) = None
  /\ delete_prompt (Some []) (Some 1) sample_storage
     = (status_json 401 (Message "Unauthorized"), sample_storage).
Proof.
  split; [reflexivity |].
  destruct (missing_header_responses utc (Some []) sample_storage eq_refl)
    as [_ [_ [_ [H _]]]].
  exact (H (Some 1)).
Defined.

(** ** The daily quota of the free tier *)

(** One POST /api/prompts/enhance with a valid body: its four clock
    readings and the body. *)
Record EnhanceRequest := {
  q_today : Date;
  q_reset : Date;
  q_increment : Date;
  q_create : Date;
  q_body : PromptBodyIn
}.

Section Quota.

Variable cal : Calendar.

Definition enhance_as (cid : jsstring) (q : EnhanceRequest) (s : MemStorage)
  : Response * MemStorage :=
  post_prompts_enhance cal (q_today q) (q_reset q) (q_increment q)
    (q_create q) (Some cid) (Some (q_body q)) s.

(** A series of such requests of one caller: the statuses of the
    responses and the storage at the end. *)
Fixpoint enhance_all (cid : jsstring) (qs : list EnhanceRequest)
  (s : MemStorage) : list Z * MemStorage :=
  match qs with
  | [] => ([], s)
  | q :: qs' =>
      let '(r, s1) := enhance_as cid q s in
      let '(statuses, s2) := enhance_all cid qs' s1 in
      (status r :: statuses, s2)
  end.






Lemma find_values_set (p : User -> bool) (m : JSMap.t Z User)
  (u u' : User) :
  NoDup (JSMap.keys m) ->
  (forall k x, In (k, x) m -> user_id x = k) ->
  find p (JSMap.values m) = Some u ->
  p u' = true ->
  find p (JSMap.values (JSMap.set Z.eqb (user_id u) u' m)) = Some u'.
Proof.
  intros Hnd Hid Hfind Hp.
  induction m as [|[k x] m IH]; simpl in *; [discriminate |].
  inversion Hnd as [|? ? Hnot Hnd']; subst.
  destruct (p x) eqn:Epx.
  - injection Hfind as ->.
    rewrite (Hid k u (or_introl eq_refl)), Z.eqb_refl. simpl.
    rewrite Hp. reflexivity.
  - destruct (user_id u =? k) eqn:Ek.
    + exfalso. apply Z.eqb_eq in Ek. apply Hnot.
      apply find_some in Hfind. destruct Hfind as [Hin _].
      unfold JSMap.values in Hin. apply in_map_iff in Hin.
      destruct Hin as [[k2 x2] [E Hin]]. simpl in E. subst x2.
      rewrite <- Ek, (Hid k2 u (or_intror Hin)).
      apply (in_map fst) in Hin. exact Hin.
    + simpl. rewrite Epx. apply IH; auto.
Qed.

Lemma getUser_of_clerkId (s : MemStorage) (cid : jsstring) (u : User) :
  wf s -> getUserByClerkId cid s = Some u ->
  getUser (user_id u) s = Some u.
Proof.
  intros Hwf Hfind. unfold getUserByClerkId in Hfind.
  apply find_some in Hfind. destruct Hfind as [Hin _].
  unfold JSMap.values in Hin. apply in_map_iff in Hin.
  destruct Hin as [[k x] [E Hin]]. simpl in E. subst x.
  destruct (wf_users s Hwf _ _ Hin) as [Hk _]. rewrite Hk.
  apply (MapFacts.In_get _ _ Z.eqb Z.eqb_eq); [apply Hwf | exact Hin].
Qed.

Lemma getUserByClerkId_put_user (s : MemStorage) (cid : jsstring)
  (u u' : User) :
  wf s -> getUserByClerkId cid s = Some u -> clerkId u' = clerkId u ->
  getUserByClerkId cid (put_user (user_id u) u' s) = Some u'.
Proof.
  intros Hwf Hfind Hc. unfold getUserByClerkId, put_user. simpl.
  apply find_values_set.
  - apply Hwf.
  - intros k x Hin. apply (wf_users s Hwf _ _ Hin).
  - exact Hfind.
  - rewrite Hc. unfold getUserByClerkId in Hfind.
    apply find_some in Hfind. tauto.
Qed.

(** What the last steps of the handler do for a user who is found. *)
Lemma record_enhancement_counts (s : MemStorage) (cid : jsstring)
  (u : User) (tIncrement tCreate : Date) (b : PromptBodyIn) (id : Z) :
  wf s -> getUserByClerkId cid s = Some u -> id = user_id u ->
  exists r s',
    incrementUserPromptUsage tIncrement id s
    = Returns (put_user id
                 (with_usage u (or_zero (promptsUsedToday u) + 1)
                    tIncrement) s)
    /\ createPrompt tCreate
         {| ip_userId := Some id;
            ip_originalPrompt := in_originalPrompt b;
            ip_enhancedPrompt := in_enhancedPrompt b;
            ip_role := Some (in_role b) |}
         (put_user id
            (with_usage u (or_zero (promptsUsedToday u) + 1) tIncrement) s)
       = (r, s')
    /\ wf s'
    /\ getUserByClerkId cid s'
       = Some (with_usage u (or_zero (promptsUsedToday u) + 1) tIncrement).
Proof.
  intros Hwf Hfind ->.
  pose proof (getUser_of_clerkId s cid u Hwf Hfind) as Hget.
  unfold incrementUserPromptUsage. rewrite Hget.
  eexists. eexists. split; [reflexivity |]. split; [reflexivity |].
  set (u' := with_usage u (or_zero (promptsUsedToday u) + 1) tIncrement).
  assert (Hwf' : wf (put_user (user_id u) u' s))
    by (apply (wf_put_user s (user_id u) u); auto).
  split.
  - apply (wf_state_after (CreatePrompt _ _) _ Hwf').
  - change (getUserByClerkId cid (put_user (user_id u) u' s) = Some u').
    apply getUserByClerkId_put_user; auto.
Qed.

Lemma record_enhancement_ok (s : MemStorage) (cid : jsstring) (u : User)
  (tIncrement tCreate : Date) (b : PromptBodyIn) (user : User) :
  wf s -> getUserByClerkId cid s = Some u -> user_id user = user_id u ->
  exists promptId s',
    record_enhancement tIncrement tCreate b user s
    = (json (Enhanced (Some promptId) (in_originalPrompt b)
               (in_enhancedPrompt b) true), s')
    /\ wf s'
    /\ getUserByClerkId cid s'
       = Some (with_usage u (or_zero (promptsUsedToday u) + 1) tIncrement).
Proof.
  intros Hwf Hfind Hid.
  destruct (record_enhancement_counts s cid u tIncrement tCreate b
              (user_id user) Hwf Hfind Hid) as [r [s' [E1 [E2 [H1 H2]]]]].
  unfold record_enhancement. rewrite E1, E2.
  exists (prompt_id r), s'. auto.
Qed.


Lemma authenticated_Some (cid : jsstring) :
  truthy cid = true -> authenticated (Some cid) = Some cid.
Proof. intros H. unfold authenticated, or_string. rewrite H. reflexivity. Qed.






End Quota.

(** ** The quota by calendar days *)

Section Days.

Variable cal : Calendar.

(** The calendar day on which a time value falls, as a number.  Year,
    month and day of the month, which [isSameDay] compares, name the
    day: two time values fall on the same day exactly when the calendar
    gives the same three for them. *)
Variable day_of : Date -> Z.

Hypothesis calendar_names_the_day :
  forall a b : Date,
    day_of a = day_of b
    <-> getFullYear cal a = getFullYear cal b
        /\ getMonth cal a = getMonth cal b
        /\ getDate cal a = getDate cal b.





End Days.

(** *** The days of a host in UTC *)






Definition sample_body : PromptBodyIn :=
  {| in_originalPrompt := lit "a"; in_enhancedPrompt := lit "A";
     in_role := writer |}.

(** A request one day after the epoch, [i] milliseconds into the day. *)
Definition sample_request (i : Z) : EnhanceRequest :=
  {| q_today := ms_per_day + i; q_reset := ms_per_day + i;
     q_increment := ms_per_day + i; q_create := ms_per_day + i;
     q_body := sample_body |}.







End StorageFacts.

(* ================================================================== *)
(** * Facts about the template manager *)
(* ================================================================== *)

Module TemplateFacts.
Import JS TemplateManager.

Lemma str_eqb_eq (a b : jsstring) : str_eqb a b = true <-> a = b.
Proof.
  revert b. induction a as [|x a IH]; intros [|y b]; simpl;
    try (split; [discriminate | discriminate]); [tauto |].
  unfold char_eqb. rewrite andb_true_iff, N.eqb_eq, IH.
  split; [intros [-> ->]; reflexivity | intros H; injection H; auto].
Qed.








(** ** Tokens left by a substitution *)

(** The search for [{{name}}] as an automaton over the code units read
    so far: nothing pending, one opening brace, two opening braces, two
    opening braces and a non-empty name, and all that with one closing
    brace. *)
Inductive state := Q0 | Q1 | Q2 | Q3 | Q4.

(** One code unit; [None] when it completes a token. *)
Definition delta (q : state) (c : char) : option state :=
  match q with
  | Q0 => Some (if char_eqb c LB then Q1 else Q0)
  | Q1 => Some (if char_eqb c LB then Q2 else Q0)
  | Q2 => Some (if char_eqb c RB then Q0 else Q3)
  | Q3 => Some (if char_eqb c RB then Q4 else Q3)
  | Q4 => if char_eqb c RB then None
          else Some (if char_eqb c LB then Q1 else Q0)
  end.

Fixpoint feed (q : state) (s : jsstring) : option state :=
  match s with
  | [] => Some q
  | c :: s' =>
      match delta q c with
      | Some q' => feed q' s'
      | None => None
      end
  end.

(** A text in pieces: a code unit of the content, a value put in for a
    placeholder, a placeholder still to be replaced. *)
Inductive item :=
| Chr (c : char)
| Val (v : jsstring)
| Tok (name : jsstring).

Definition item_text (i : item) : jsstring :=
  match i with
  | Chr c => [c]
  | Val v => v
  | Tok name => placeholder name
  end.

Definition flatten (items : list item) : jsstring :=
  flat_map item_text items.

(** The pieces of a content, along the search of the [exec] loop. *)
Fixpoint parse (fuel : nat) (s : jsstring) : list item :=
  match fuel with
  | 0 => []
  | S fuel' =>
      match token_at s with
      | Some (capture, r) => Tok capture :: parse fuel' r
      | None =>
          match s with
          | [] => []
          | c :: s' => Chr c :: parse fuel' s'
          end
      end
  end.

Definition put_value (n v : jsstring) (i : item) : item :=
  match i with
  | Tok m => if str_eqb m n then Val v else Tok m
  | _ => i
  end.

Definition subst (n v : jsstring) (items : list item) : list item :=
  map (put_value n v) items.

Definition tok_names (items : list item) : list jsstring :=
  flat_map (fun i => match i with Tok m => [m] | _ => [] end) items.

(** The automaton over the pieces: it reads code units and values, and
    starts afresh behind a placeholder, which it must meet with no brace
    pending that the placeholder could join. *)
Fixpoint crun (q : state) (items : list item) : option state :=
  match items with
  | [] => Some q
  | Chr c :: rest =>
      match delta q c with
      | Some q' => crun q' rest
      | None => None
      end
  | Val v :: rest =>
      match feed q v with
      | Some q' => crun q' rest
      | None => None
      end
  | Tok _ :: rest =>
      match q with
      | Q0 | Q4 => crun Q0 rest
      | _ => None
      end
  end.

Definition no_rb (s : jsstring) : bool :=
  forallb (fun c => negb (char_eqb c RB)) s.

Definition no_lb (s : jsstring) : bool :=
  forallb (fun c => negb (char_eqb c LB)) s.

Definition brace_free (s : jsstring) : bool := no_lb s && no_rb s.

(** The pieces are in order: names and values are not empty and hold no
    brace. *)
Definition item_ok (i : item) : bool :=
  match i with
  | Chr _ => true
  | Val v => truthy v && brace_free v
  | Tok m => truthy m && brace_free m
  end.

(** What is left of the content is in keeping with the state: the brace
    or name pending does not grow into a token. *)
Definition closes (s : jsstring) : bool :=
  match snd (span_name s) with
  | x :: y :: _ => char_eqb x RB && char_eqb y RB
  | _ => false
  end.

Definition in_keeping (q : state) (s : jsstring) : Prop :=
  match q with
  | Q0 => True
  | Q1 => token_at (LB :: s) = None
  | Q2 => token_at (LB :: LB :: s) = None
  | Q3 => closes s = false
  | Q4 => match s with c :: _ => char_eqb c RB = false | [] => True end
  end.

Lemma LB_not_RB : char_eqb LB RB = false.
Proof. reflexivity. Qed.

Lemma char_eqb_eq (a b : char) : char_eqb a b = true <-> a = b.
Proof. unfold char_eqb. apply N.eqb_eq. Qed.

Lemma is_LB_not_RB (c : char) :
  char_eqb c LB = true -> char_eqb c RB = false.
Proof. intros H. apply char_eqb_eq in H. subst c. reflexivity. Qed.

Lemma is_RB_not_LB (c : char) :
  char_eqb c RB = true -> char_eqb c LB = false.
Proof. intros H. apply char_eqb_eq in H. subst c. reflexivity. Qed.

Local Arguments token_at : simpl never.
Local Arguments closes : simpl never.

(** *** The capture of a match *)

Lemma span_name_app (a r : jsstring) :
  no_rb a = true -> span_name (a ++ RB :: r) = (a, RB :: r).
Proof.
  induction a as [|c a IH]; simpl; intros H.
  - reflexivity.
  - apply andb_true_iff in H. destruct H as [Hc Ha].
    apply negb_true_iff in Hc. rewrite Hc, (IH Ha). reflexivity.
Qed.

Lemma span_name_shape (s : jsstring) :
  no_rb (fst (span_name s)) = true
  /\ s = fst (span_name s) ++ snd (span_name s)
  /\ match snd (span_name s) with
     | c :: _ => char_eqb c RB = true
     | [] => True
     end.
Proof.
  induction s as [|c s IH]; simpl; [auto |].
  destruct (char_eqb c RB) eqn:E; simpl.
  - auto.
  - destruct (span_name s) as [n r]. simpl in *.
    destruct IH as [H1 [H2 H3]]. rewrite E, H1. simpl.
    split; [reflexivity |]. split; [congruence | exact H3].
Qed.

Lemma token_at_shape (s capture r : jsstring) :
  token_at s = Some (capture, r) ->
  s = placeholder capture ++ r /\ truthy capture = true
  /\ no_rb capture = true.
Proof.
  unfold token_at, placeholder.
  destruct s as [|a [|b s]]; try discriminate.
  destruct (char_eqb a LB) eqn:Ea; [| discriminate].
  destruct (char_eqb b LB) eqn:Eb; [| discriminate]. simpl.
  pose proof (span_name_shape s) as [H1 [H2 _]].
  destruct (span_name s) as [[|c n] [|x [|y r']]]; try discriminate.
  destruct (char_eqb x RB) eqn:Ex; [| discriminate].
  destruct (char_eqb y RB) eqn:Ey; [| discriminate]. simpl.
  intros H. injection H as <- <-.
  apply char_eqb_eq in Ea, Eb, Ex, Ey. subst a b x y.
  simpl in H1, H2. split; [| split; [reflexivity | exact H1]].
  rewrite H2. simpl. rewrite <- app_assoc. reflexivity.
Qed.

Lemma token_at_placeholder (capture r : jsstring) :
  truthy capture = true -> no_rb capture = true ->
  token_at (placeholder capture ++ r) = Some (capture, r).
Proof.
  intros Ht Hn. unfold token_at, placeholder. simpl.
  rewrite <- app_assoc. simpl. rewrite (span_name_app capture (RB :: r) Hn).
  destruct capture; [discriminate | reflexivity].
Qed.

(** *** The automaton finds every token *)

Lemma feed_name (m s : jsstring) :
  no_rb m = true -> feed Q3 (m ++ s) = feed Q3 s.
Proof.
  induction m as [|c m IH]; simpl; intros H; [reflexivity |].
  apply andb_true_iff in H. destruct H as [Hc Hm].
  apply negb_true_iff in Hc. rewrite Hc. exact (IH Hm).
Qed.

Lemma feed_token (s capture r : jsstring) (q : state) :
  token_at s = Some (capture, r) -> feed q s = None.
Proof.
  intros H. apply token_at_shape in H. destruct H as [-> [Ht Hn]].
  destruct capture as [|c m]; [discriminate |].
  simpl in Hn. apply andb_true_iff in Hn. destruct Hn as [Hc Hm].
  apply negb_true_iff in Hc.
  assert (Hend : feed Q3 ((m ++ [RB; RB]) ++ r) = None).
  { rewrite <- app_assoc. rewrite (feed_name m _ Hm). reflexivity. }
  unfold placeholder. simpl app.
  destruct q; simpl; rewrite ?Hc; simpl;
    try exact Hend.
  all: destruct (char_eqb c LB); exact Hend.
Qed.

Lemma has_token_cons (c : char) (s : jsstring) :
  has_token (c :: s)
  = match token_at (c :: s) with
    | Some _ => true
    | None => has_token s
    end.
Proof. reflexivity. Qed.

Lemma has_token_feed (s : jsstring) :
  has_token s = true -> forall q, feed q s = None.
Proof.
  induction s as [|c s IH]; intros H q.
  - discriminate.
  - rewrite has_token_cons in H.
    destruct (token_at (c :: s)) as [[m r] |] eqn:E.
    + exact (feed_token _ _ _ q E).
    + simpl. destruct (delta q c); [apply IH; exact H | reflexivity].
Qed.

(** *** The pieces of a content *)

Lemma parse_names (fuel : nat) :
  forall s, tok_names (parse fuel s) = exec_loop fuel s.
Proof.
  induction fuel as [|fuel IH]; intros s; simpl; [reflexivity |].
  destruct (token_at s) as [[m r] |].
  - simpl. rewrite IH. reflexivity.
  - destruct s as [|c s]; [reflexivity |]. simpl. apply IH.
Qed.

Lemma placeholder_length (m : jsstring) :
  List.length (placeholder m) = 4 + List.length m.
Proof.
  unfold placeholder. simpl. rewrite length_app. simpl. lia.
Qed.

Lemma flatten_parse (fuel : nat) :
  forall s, List.length s <= fuel -> flatten (parse fuel s) = s.
Proof.
  induction fuel as [|fuel IH]; intros s Hlen.
  - destruct s; [reflexivity | simpl in Hlen; lia].
  - simpl. destruct (token_at s) as [[m r] |] eqn:E.
    + apply token_at_shape in E. destruct E as [-> _].
      rewrite length_app, placeholder_length in Hlen.
      unfold flatten. simpl. fold (flatten (parse fuel r)).
      rewrite IH by lia. reflexivity.
    + destruct s as [|c s]; [reflexivity |].
      unfold flatten. simpl. fold (flatten (parse fuel s)).
      simpl in Hlen. rewrite IH by lia. reflexivity.
Qed.

Lemma token_at_open (s : jsstring) :
  token_at (LB :: LB :: s)
  = match span_name s with
    | (c :: n, x :: y :: r) =>
        if char_eqb x RB && char_eqb y RB then Some (c :: n, r) else None
    | _ => None
    end.
Proof. reflexivity. Qed.

Lemma closes_cons (c : char) (s : jsstring) :
  char_eqb c RB = false -> closes (c :: s) = closes s.
Proof.
  intros H. unfold closes. simpl. rewrite H.
  destruct (span_name s). reflexivity.
Qed.

Lemma closes_RB (s : jsstring) :
  closes (RB :: s)
  = match s with y :: _ => char_eqb y RB | [] => false end.
Proof. unfold closes. simpl. destruct s; reflexivity. Qed.

Lemma open_name_closes (c : char) (s : jsstring) :
  char_eqb c RB = false ->
  token_at (LB :: LB :: c :: s) = None -> closes s = false.
Proof.
  intros Hc H. rewrite token_at_open in H. simpl in H. rewrite Hc in H.
  unfold closes. destruct (span_name s) as [n [|x [|y r]]]; simpl in *;
    try reflexivity.
  destruct (char_eqb x RB && char_eqb y RB); [discriminate | reflexivity].
Qed.

(** A placeholder is met with nothing pending that it could join. *)
Lemma token_in_keeping (q : state) (s m r : jsstring) :
  token_at s = Some (m, r) -> in_keeping q s -> q = Q0 \/ q = Q4.
Proof.
  intros E Hk. apply token_at_shape in E. destruct E as [-> [Ht Hn]].
  destruct q; auto; exfalso; unfold in_keeping in Hk.
  - assert (Es : LB :: placeholder m ++ r = placeholder (LB :: m) ++ r)
      by reflexivity.
    rewrite Es, token_at_placeholder in Hk;
      [discriminate | reflexivity | simpl; exact Hn].
  - assert (Es : LB :: LB :: placeholder m ++ r
                 = placeholder (LB :: LB :: m) ++ r) by reflexivity.
    rewrite Es, token_at_placeholder in Hk;
      [discriminate | reflexivity | simpl; exact Hn].
  - assert (Es : placeholder m ++ r = (LB :: LB :: m) ++ RB :: RB :: r)
      by (unfold placeholder; simpl; rewrite <- app_assoc; reflexivity).
    unfold closes in Hk. rewrite Es, span_name_app in Hk
      by (simpl; exact Hn).
    discriminate.
Qed.

(** A code unit that starts no token moves the automaton on, in keeping
    with the rest. *)
Lemma step_in_keeping (q : state) (c : char) (s : jsstring) :
  token_at (c :: s) = None -> in_keeping q (c :: s) ->
  exists q', delta q c = Some q' /\ in_keeping q' s.
Proof.
  intros E Hk. destruct q; unfold in_keeping in *; unfold delta.
  - eexists. split; [reflexivity |].
    destruct (char_eqb c LB) eqn:Ec; simpl; [| exact I].
    apply char_eqb_eq in Ec. subst c. exact E.
  - eexists. split; [reflexivity |].
    destruct (char_eqb c LB) eqn:Ec; simpl; [| exact I].
    apply char_eqb_eq in Ec. subst c. exact Hk.
  - eexists. split; [reflexivity |].
    destruct (char_eqb c RB) eqn:Ec; simpl; [exact I |].
    exact (open_name_closes c s Ec Hk).
  - eexists. split; [reflexivity |].
    destruct (char_eqb c RB) eqn:Ec; simpl.
    + apply char_eqb_eq in Ec. subst c. rewrite closes_RB in Hk.
      destruct s; [exact I | exact Hk].
    + rewrite (closes_cons c s Ec) in Hk. exact Hk.
  - rewrite Hk. eexists. split; [reflexivity |].
    destruct (char_eqb c LB) eqn:Ec; simpl; [| exact I].
    apply char_eqb_eq in Ec. subst c. exact E.
Qed.

Lemma parse_crun (fuel : nat) :
  forall s q, in_keeping q s -> crun q (parse fuel s) <> None.
Proof.
  induction fuel as [|fuel IH]; intros s q Hk; simpl; [discriminate |].
  destruct (token_at s) as [[m r] |] eqn:E.
  - destruct (token_in_keeping q s m r E Hk) as [-> | ->]; simpl;
      apply IH; exact I.
  - destruct s as [|c s]; [simpl; discriminate |].
    destruct (step_in_keeping q c s E Hk) as [q' [Hd Hk']].
    simpl. rewrite Hd. apply IH. exact Hk'.
Qed.

(** *** Values between the pieces *)

(** Where the automaton stands behind text without braces. *)
Definition settle (q : state) : state :=
  match q with
  | Q2 | Q3 => Q3
  | _ => Q0
  end.

Lemma brace_free_cons (c : char) (u : jsstring) :
  brace_free (c :: u) = true ->
  char_eqb c LB = false /\ char_eqb c RB = false /\ brace_free u = true.
Proof.
  unfold brace_free. simpl. rewrite !andb_true_iff, !negb_true_iff.
  tauto.
Qed.

Lemma delta_brace_free (q : state) (c : char) :
  char_eqb c LB = false -> char_eqb c RB = false ->
  delta q c = Some (settle q).
Proof. intros H1 H2. destruct q; simpl; rewrite ?H1, ?H2; reflexivity. Qed.

Lemma settle_settle (q : state) : settle (settle q) = settle q.
Proof. destruct q; reflexivity. Qed.

Lemma feed_brace_free (u : jsstring) (q : state) :
  brace_free u = true -> truthy u = true -> feed q u = Some (settle q).
Proof.
  intros Hb Ht. destruct u as [|c u]; [discriminate |]. clear Ht.
  revert c q Hb. induction u as [|d u IH]; intros c q Hb.
  - apply brace_free_cons in Hb. destruct Hb as [H1 [H2 _]].
    simpl. rewrite (delta_brace_free q c H1 H2). reflexivity.
  - apply brace_free_cons in Hb. destruct Hb as [H1 [H2 Hb]].
    change (feed q (c :: d :: u))
      with (match delta q c with
            | Some q' => feed q' (d :: u)
            | None => None
            end).
    rewrite (delta_brace_free q c H1 H2), (IH d (settle q) Hb).
    rewrite settle_settle. reflexivity.
Qed.

Lemma prefix_before_RB (u a y b : jsstring) :
  no_rb u = true -> u ++ a = y ++ RB :: b ->
  exists y', y = u ++ y' /\ a = y' ++ RB :: b.
Proof.
  revert y. induction u as [|c u IH]; intros y Hu E.
  - exists y. auto.
  - simpl in Hu. apply andb_true_iff in Hu. destruct Hu as [Hc Hu].
    apply negb_true_iff in Hc.
    destruct y as [|d y]; simpl in E; injection E as Ec E.
    + subst c. discriminate.
    + subst d. destruct (IH y Hu E) as [y' [-> ->]].
      exists y'. auto.
Qed.

Definition items_ok (items : list item) : bool := forallb item_ok items.

(** With a name open, the pieces do not go on to close it. *)
Lemma name_not_closed (items : list item) :
  forall q y r,
    crun q items <> None -> items_ok items = true ->
    (q = Q2 /\ truthy y = true) \/ q = Q3 ->
    no_rb y = true ->
    flatten items = y ++ RB :: RB :: r -> False.
Proof.
  induction items as [|i items IH]; intros q y r Hrun Hok Hq Hy E.
  - destruct y; discriminate.
  - simpl in Hok. apply andb_true_iff in Hok. destruct Hok as [Hi Hok].
    destruct i as [c | u | m].
    + (* a code unit *)
      unfold flatten in E. simpl in E. fold (flatten items) in E.
      destruct y as [|d y]; simpl in E; injection E as Ec E.
      * subst c. destruct Hq as [[_ Ht] | ->]; [discriminate |].
        simpl in Hrun.
        destruct items as [|[c | u | m] items].
        -- discriminate.
        -- unfold flatten in E. simpl in E. injection E as Ec _. subst c.
           simpl in Hrun. apply Hrun. reflexivity.
        -- simpl in Hok. apply andb_true_iff in Hok.
           destruct Hok as [Hu _]. simpl in Hu.
           apply andb_true_iff in Hu. destruct Hu as [Ht Hb].
           destruct u as [|c u]; [discriminate |].
           unfold flatten in E. simpl in E. injection E as Ec _. subst c.
           apply brace_free_cons in Hb. destruct Hb as [_ [Hb _]].
           discriminate.
        -- unfold flatten in E. simpl in E. discriminate.
      * subst d. simpl in Hy. apply andb_true_iff in Hy.
        destruct Hy as [Hc Hy]. apply negb_true_iff in Hc.
        simpl in Hrun.
        assert (Hd : delta q c = Some Q3)
          by (destruct Hq as [[-> _] | ->]; simpl; rewrite Hc; reflexivity).
        rewrite Hd in Hrun.
        apply (IH Q3 y r Hrun Hok); auto.
    + (* a value *)
      simpl in Hi. apply andb_true_iff in Hi. destruct Hi as [Ht Hb].
      unfold flatten in E. simpl in E. fold (flatten items) in E.
      assert (Hn : no_rb u = true)
        by (unfold brace_free in Hb; apply andb_true_iff in Hb; tauto).
      destruct (prefix_before_RB u _ y _ Hn E) as [y' [-> E']].
      simpl in Hrun. rewrite (feed_brace_free u q Hb Ht) in Hrun.
      assert (Hs : settle q = Q3) by (destruct Hq as [[-> _] | ->]; auto).
      rewrite Hs in Hrun.
      apply (IH Q3 y' r Hrun Hok); auto.
      unfold no_rb in *. rewrite forallb_app in Hy.
      apply andb_true_iff in Hy. tauto.
    + (* a placeholder *)
      simpl in Hrun. destruct Hq as [[-> _] | ->]; apply Hrun; reflexivity.
Qed.

(** Where the text of the pieces starts with a token, the first piece
    is a placeholder. *)
Lemma opener_is_placeholder (items : list item) (q : state)
  (x r : jsstring) :
  crun q items <> None -> items_ok items = true ->
  truthy x = true -> no_rb x = true ->
  flatten items = placeholder x ++ r ->
  exists m rest, items = Tok m :: rest.
Proof.
  intros Hrun Hok Hx Hn E.
  assert (Hval : forall u (l : list item) t,
             item_ok (Val u) = true -> flatten (Val u :: l) = LB :: t ->
             False).
  { intros u l t Hu Eu. simpl in Hu. apply andb_true_iff in Hu.
    destruct Hu as [Ht Hb]. destruct u as [|c u]; [discriminate |].
    unfold flatten in Eu. simpl in Eu. injection Eu as Ec _. subst c.
    apply brace_free_cons in Hb. destruct Hb as [Hb _]. discriminate. }
  destruct items as [|[c | u | m] items].
  - discriminate.
  - exfalso. simpl in Hok.
    unfold flatten in E. simpl in E. fold (flatten items) in E.
    injection E as Ec E. subst c. simpl in Hrun.
    destruct (delta q LB) as [q1 |] eqn:E1; [| apply Hrun; reflexivity].
    assert (H1 : q1 = Q1 \/ q1 = Q2 \/ q1 = Q3)
      by (destruct q; simpl in E1; injection E1 as <-; auto).
    destruct items as [|[c | u | m] items].
    + discriminate.
    + unfold flatten in E. simpl in E. fold (flatten items) in E.
      injection E as Ec E. subst c. simpl in Hrun.
      destruct (delta q1 LB) as [q2 |] eqn:E2; [| apply Hrun; reflexivity].
      simpl in Hok.
      apply (name_not_closed items q2 x r Hrun Hok); auto.
      * destruct H1 as [-> | [-> | ->]]; simpl in E2; injection E2 as <-;
          auto.
      * rewrite E, <- app_assoc. reflexivity.
    + simpl in Hok. apply andb_true_iff in Hok. destruct Hok as [Hu _].
      exact (Hval u items _ Hu E).
    + simpl in Hrun. destruct H1 as [-> | [-> | ->]]; apply Hrun;
        reflexivity.
  - exfalso. simpl in Hok. apply andb_true_iff in Hok.
    destruct Hok as [Hu _]. exact (Hval u items _ Hu E).
  - exists m, items. reflexivity.
Qed.

(** *** Replacing one placeholder *)

Lemma startsWith_split (p s : jsstring) :
  startsWith p s = true -> s = p ++ skipn (List.length p) s.
Proof.
  revert s. induction p as [|x p IH]; intros s H; [reflexivity |].
  destruct s as [|y s]; [discriminate |]. simpl in H.
  apply andb_true_iff in H. destruct H as [Hx Hp].
  apply char_eqb_eq in Hx. subst y. simpl. f_equal. exact (IH s Hp).
Qed.

Lemma startsWith_app (p r : jsstring) : startsWith p (p ++ r) = true.
Proof.
  induction p as [|x p IH]; [reflexivity |]. simpl.
  rewrite IH, (proj2 (char_eqb_eq x x) eq_refl). reflexivity.
Qed.

Lemma skipn_prefix (p r : jsstring) : skipn (List.length p) (p ++ r) = r.
Proof. induction p as [|x p IH]; [reflexivity | exact IH]. Qed.

(** A replacement string without [$] is put in as it is. *)
Definition plain_replacement (v : jsstring) : bool :=
  forallb (fun c => negb (char_eqb c DOLLAR)) v.

(** The replacement of every occurrence of [pat] by the text [v] itself:
    what [replace] comes to for a plain replacement. *)
Fixpoint replace_loop (fuel : nat) (pat v s : jsstring) : jsstring :=
  match fuel with
  | 0 => s
  | S fuel' =>
      if startsWith pat s
      then v ++ replace_loop fuel' pat v (skipn (List.length pat) s)
      else match s with
           | [] => []
           | c :: s' => c :: replace_loop fuel' pat v s'
           end
  end.

Definition replace_text (pat v s : jsstring) : jsstring :=
  replace_loop (S (List.length s)) pat v s.

Lemma expand_plain (matched before after v : jsstring) :
  plain_replacement v = true -> expand matched before after v = v.
Proof.
  induction v as [|d v IH]; intros H; [reflexivity |].
  simpl in H. apply andb_true_iff in H. destruct H as [Hd Hv].
  apply negb_true_iff in Hd. cbn [expand]. rewrite Hd, (IH Hv).
  reflexivity.
Qed.

Lemma replace_plain (pat v : jsstring) (fuel : nat) :
  plain_replacement v = true ->
  forall before s,
    replace_from fuel pat v before s = replace_loop fuel pat v s.
Proof.
  intros Hv. induction fuel as [|fuel IH]; intros before s; [reflexivity |].
  cbn [replace_from replace_loop].
  destruct (startsWith pat s).
  - rewrite (expand_plain _ _ _ _ Hv), IH. reflexivity.
  - destruct s as [|c s]; [reflexivity |]. rewrite IH. reflexivity.
Qed.

Lemma replace_is_replace_text (pat v s : jsstring) :
  plain_replacement v = true -> replace pat v s = replace_text pat v s.
Proof. intros Hv. apply replace_plain. exact Hv. Qed.

Lemma replace_loop_S (fuel : nat) (p v s : jsstring) :
  replace_loop (S fuel) p v s
  = if startsWith p s
    then v ++ replace_loop fuel p v (skipn (List.length p) s)
    else match s with
         | [] => []
         | c :: s' => c :: replace_loop fuel p v s'
         end.
Proof. reflexivity. Qed.

Lemma replace_loop_fuel (p v : jsstring) (f1 : nat) :
  0 < List.length p ->
  forall f2 s,
    List.length s <= f1 -> List.length s <= f2 ->
    replace_loop f1 p v s = replace_loop f2 p v s.
Proof.
  intros Hp. induction f1 as [|f1 IH]; intros f2 s H1 H2.
  - destruct s; [| simpl in H1; lia].
    destruct f2; [reflexivity |]. rewrite replace_loop_S.
    destruct p; [simpl in Hp; lia | reflexivity].
  - destruct f2 as [|f2].
    + destruct s; [| simpl in H2; lia]. rewrite replace_loop_S.
      destruct p; [simpl in Hp; lia | reflexivity].
    + rewrite !replace_loop_S. destruct (startsWith p s) eqn:E.
      * f_equal. apply startsWith_split in E.
        assert (Hl : List.length (skipn (List.length p) s)
                     < List.length s).
        { rewrite E at 2. rewrite length_app. lia. }
        apply IH; lia.
      * destruct s as [|c s]; [reflexivity |]. f_equal.
        simpl in H1, H2. apply IH; lia.
Qed.

Lemma replace_text_match (p v r : jsstring) :
  0 < List.length p ->
  replace_text p v (p ++ r) = v ++ replace_text p v r.
Proof.
  intros Hp. unfold replace_text. rewrite replace_loop_S.
  rewrite startsWith_app, skipn_prefix. f_equal.
  apply replace_loop_fuel; [exact Hp | rewrite length_app |]; lia.
Qed.

Lemma replace_text_skip (p v : jsstring) (c : char) (s : jsstring) :
  startsWith p (c :: s) = false ->
  replace_text p v (c :: s) = c :: replace_text p v s.
Proof.
  intros H. unfold replace_text.
  change (List.length (c :: s)) with (S (List.length s)).
  rewrite replace_loop_S, H. reflexivity.
Qed.

Lemma placeholder_not_empty (m : jsstring) : 0 < List.length (placeholder m).
Proof. rewrite placeholder_length. lia. Qed.

Lemma startsWith_placeholder_other (m : jsstring) (c : char) (s : jsstring) :
  char_eqb c LB = false -> startsWith (placeholder m) (c :: s) = false.
Proof.
  intros H.
  assert (H' : char_eqb LB c = false)
    by (unfold char_eqb in *; rewrite N.eqb_sym; exact H).
  unfold placeholder.
  change (startsWith (LB :: LB :: m ++ [RB; RB]) (c :: s))
    with (char_eqb LB c && startsWith (LB :: m ++ [RB; RB]) s).
  rewrite H'. reflexivity.
Qed.

Section Replace.

Variables n v : jsstring.

Lemma replace_no_lb (w x : jsstring) :
  no_lb w = true ->
  replace_text (placeholder n) v (w ++ x) = w ++ replace_text (placeholder n) v x.
Proof.
  induction w as [|c w IH]; intros H; [reflexivity |].
  simpl in H. apply andb_true_iff in H. destruct H as [Hc Hw].
  apply negb_true_iff in Hc.
  simpl app. rewrite replace_text_skip.
  - rewrite (IH Hw). reflexivity.
  - apply startsWith_placeholder_other. exact Hc.
Qed.

Lemma same_name (m k a b : jsstring) :
  no_rb m = true -> no_rb k = true ->
  m ++ RB :: a = k ++ RB :: b -> m = k.
Proof.
  intros Hm Hk E.
  destruct (prefix_before_RB m _ k _ Hm E) as [[|c y'] [-> E']].
  - symmetry. apply app_nil_r.
  - exfalso. injection E' as Ec _. subst c.
    unfold no_rb in Hk. rewrite forallb_app in Hk. simpl in Hk.
    apply andb_true_iff in Hk. destruct Hk as [_ Hk]. discriminate.
Qed.

Hypothesis n_truthy : truthy n = true.
Hypothesis n_brace_free : brace_free n = true.

Lemma other_placeholder (m x : jsstring) :
  truthy m = true -> brace_free m = true -> m <> n ->
  replace_text (placeholder n) v (placeholder m ++ x)
  = placeholder m ++ replace_text (placeholder n) v x.
Proof.
  intros Ht Hb Hne.
  unfold brace_free in Hb, n_brace_free.
  apply andb_true_iff in Hb. destruct Hb as [Hlb Hrb].
  apply andb_true_iff in n_brace_free. destruct n_brace_free as [_ Hnrb].
  assert (E0 : startsWith (placeholder n) (placeholder m ++ x) = false).
  { destruct (startsWith (placeholder n) (placeholder m ++ x)) eqn:E; [| reflexivity].
    exfalso. apply Hne. apply startsWith_split in E.
    unfold placeholder in E at 1 2. simpl in E. injection E as E.
    rewrite <- !app_assoc in E. simpl in E.
    exact (same_name m n _ _ Hrb Hnrb E). }
  destruct m as [|c m]; [discriminate |].
  simpl in Hlb. apply andb_true_iff in Hlb. destruct Hlb as [Hc Hlb].
  apply negb_true_iff in Hc.
  assert (Ep : forall y,
             placeholder (c :: m) ++ y
             = LB :: LB :: (c :: m ++ [RB; RB]) ++ y) by reflexivity.
  rewrite !Ep in *.
  rewrite replace_text_skip by exact E0. f_equal.
  rewrite replace_text_skip.
  - f_equal. apply replace_no_lb. simpl. rewrite Hc. simpl.
    unfold no_lb in *. rewrite forallb_app, Hlb. reflexivity.
  - assert (Hc' : char_eqb LB c = false)
      by (unfold char_eqb in *; rewrite N.eqb_sym; exact Hc).
    unfold placeholder.
    change (startsWith (LB :: LB :: n ++ [RB; RB])
              (LB :: (c :: m ++ [RB; RB]) ++ x))
      with (char_eqb LB LB
            && (char_eqb LB c && startsWith (n ++ [RB; RB])
                                   ((m ++ [RB; RB]) ++ x))).
    rewrite Hc', andb_false_r. reflexivity.
Qed.

(** Replacing [{{n}}] in the text of the pieces puts the value in for
    the placeholders of that name and for nothing else. *)
Lemma replace_pieces (items : list item) :
  forall q,
    crun q items <> None -> items_ok items = true ->
    replace_text (placeholder n) v (flatten items) = flatten (subst n v items).
Proof.
  induction items as [|i items IH]; intros q Hrun Hok; [reflexivity |].
  pose proof Hok as Hok0.
  simpl in Hok. apply andb_true_iff in Hok. destruct Hok as [Hi Hok].
  unfold flatten. simpl flat_map.
  fold (flatten items). fold (flatten (subst n v items)).
  destruct i as [c | u | m].
  - simpl item_text. simpl app. simpl in Hrun.
    destruct (delta q c) as [q' |] eqn:Ed; [| exfalso; apply Hrun; auto].
    rewrite replace_text_skip; [rewrite (IH q' Hrun Hok); reflexivity |].
    destruct (startsWith (placeholder n) (c :: flatten items)) eqn:E; [| reflexivity].
    exfalso. apply startsWith_split in E.
    unfold brace_free in n_brace_free.
    apply andb_true_iff in n_brace_free. destruct n_brace_free as [_ Hnrb].
    destruct (opener_is_placeholder (Chr c :: items) q n _
                ltac:(simpl; rewrite Ed; exact Hrun) Hok0 n_truthy Hnrb E)
      as [m [rest Heq]].
    discriminate.
  - simpl item_text. simpl in Hi. apply andb_true_iff in Hi.
    destruct Hi as [Ht Hb]. simpl in Hrun.
    rewrite (feed_brace_free u q Hb Ht) in Hrun.
    rewrite replace_no_lb
      by (unfold brace_free in Hb; apply andb_true_iff in Hb; tauto).
    rewrite (IH _ Hrun Hok). reflexivity.
  - simpl in Hi. apply andb_true_iff in Hi. destruct Hi as [Ht Hb].
    assert (Hrun0 : crun Q0 items <> None)
      by (simpl in Hrun; destruct q; try exact Hrun;
          exfalso; apply Hrun; reflexivity).
    simpl put_value. destruct (str_eqb m n) eqn:E.
    + apply str_eqb_eq in E. subst m. simpl item_text.
      rewrite replace_text_match by apply placeholder_not_empty.
      rewrite (IH Q0 Hrun0 Hok). reflexivity.
    + simpl item_text. rewrite other_placeholder; auto.
      * rewrite (IH Q0 Hrun0 Hok). reflexivity.
      * intros Heq. subst m.
        rewrite (proj2 (str_eqb_eq n n) eq_refl) in E. discriminate.
Qed.

End Replace.

(** *** Replacing every placeholder *)

(** A value that is not empty and holds no brace and no [$]. *)
Definition plain_value (v : jsstring) : bool :=
  truthy v && brace_free v && plain_replacement v.

(** A value is supplied for the variable, and it is a plain one. *)
Definition supplied (variableValues : list TemplateVariableValue)
  (x : TemplateVariable) : Prop :=
  exists v,
    JSMap.get str_eqb (var_id x) (make_valueMap variableValues) = Some v
    /\ plain_value v = true.

Lemma crun_subst (n v : jsstring) (items : list item) :
  truthy v = true -> brace_free v = true ->
  forall q, crun q items <> None -> crun q (subst n v items) <> None.
Proof.
  intros Ht Hb. induction items as [|i items IH]; intros q Hrun;
    [exact Hrun |].
  destruct i as [c | u | m]; simpl in *.
  - destruct (delta q c); [apply IH; exact Hrun | exact Hrun].
  - destruct (feed q u); [apply IH; exact Hrun | exact Hrun].
  - assert (Hq : q = Q0 \/ q = Q4)
      by (destruct q; auto; exfalso; apply Hrun; reflexivity).
    assert (Hrun0 : crun Q0 items <> None)
      by (destruct Hq as [-> | ->]; exact Hrun).
    destruct (str_eqb m n); simpl.
    + rewrite (feed_brace_free v q Hb Ht).
      destruct Hq as [-> | ->]; simpl; apply IH; exact Hrun0.
    + destruct Hq as [-> | ->]; apply IH; exact Hrun0.
Qed.

Lemma items_ok_subst (n v : jsstring) (items : list item) :
  truthy v = true -> brace_free v = true ->
  items_ok items = true -> items_ok (subst n v items) = true.
Proof.
  intros Ht Hb. unfold items_ok, subst. rewrite !forallb_forall.
  intros H i Hi. apply in_map_iff in Hi. destruct Hi as [j [<- Hj]].
  specialize (H j Hj). destruct j as [c | u | m]; simpl; auto.
  destruct (str_eqb m n); simpl; [rewrite Ht, Hb; reflexivity | exact H].
Qed.

Lemma tok_names_subst (n v m : jsstring) (items : list item) :
  In m (tok_names (subst n v items)) -> In m (tok_names items) /\ m <> n.
Proof.
  induction items as [|i items IH]; simpl; [tauto |].
  destruct i as [c | u | k]; simpl; auto.
  destruct (str_eqb k n) eqn:E; simpl.
  - intros H. destruct (IH H). auto.
  - intros [H | H].
    + subst k. split; [auto |]. intros Heq. subst m.
      rewrite (proj2 (str_eqb_eq n n) eq_refl) in E. discriminate.
    + destruct (IH H). auto.
Qed.

Lemma literal_brace_free (n : jsstring) :
  literal_name n = true -> brace_free n = true.
Proof.
  unfold literal_name, brace_free, no_lb, no_rb.
  induction n as [|c n IH]; simpl; [reflexivity |].
  rewrite andb_true_iff, negb_true_iff. intros [Hc Hn].
  specialize (IH Hn). apply andb_true_iff in IH. destruct IH as [H1 H2].
  rewrite H1, H2, !andb_true_r.
  destruct (char_eqb c LB) eqn:E1.
  { apply char_eqb_eq in E1. subst c. discriminate. }
  destruct (char_eqb c RB) eqn:E2.
  { apply char_eqb_eq in E2. subst c. discriminate. }
  reflexivity.
Qed.

Lemma apply_variable_Some (valueMap : JSMap.t jsstring jsstring)
  (r : jsstring) (x : TemplateVariable) :
  literal_name (var_name x) = true ->
  plain_replacement (value_of valueMap x) = true ->
  apply_variable valueMap (Some r) x
  = Some (replace_text (placeholder (var_name x)) (value_of valueMap x) r).
Proof.
  intros H1 H2. unfold apply_variable.
  rewrite H1, (replace_is_replace_text _ _ _ H2). reflexivity.
Qed.

Lemma apply_all (valueMap : JSMap.t jsstring jsstring)
  (vars : list TemplateVariable) :
  (forall x, In x vars ->
             literal_name (var_name x) = true
             /\ truthy (var_name x) = true
             /\ plain_value (value_of valueMap x) = true) ->
  forall items,
    crun Q0 items <> None -> items_ok items = true ->
    exists items',
      fold_left (apply_variable valueMap) vars (Some (flatten items))
      = Some (flatten items')
      /\ crun Q0 items' <> None /\ items_ok items' = true
      /\ (forall m, In m (tok_names items') ->
                    In m (tok_names items)
                    /\ ~ In m (map var_name vars)).
Proof.
  induction vars as [|x vars IH]; intros Hvars items Hrun Hok.
  - exists items. simpl. split; [reflexivity |]. split; [exact Hrun |].
    split; [exact Hok |]. intros m Hm. split; [exact Hm | intros []].
  - destruct (Hvars x (or_introl eq_refl)) as [Hlit [Hname Hval]].
    unfold plain_value in Hval. apply andb_true_iff in Hval.
    destruct Hval as [Hval Hplain]. apply andb_true_iff in Hval.
    destruct Hval as [Hvt Hvb].
    cbn [fold_left]. rewrite (apply_variable_Some _ _ _ Hlit Hplain).
    rewrite (replace_pieces (var_name x) (value_of valueMap x) Hname
               (literal_brace_free _ Hlit) items Q0 Hrun Hok).
    destruct (IH (fun y Hy => Hvars y (or_intror Hy))
                (subst (var_name x) (value_of valueMap x) items)
                (crun_subst _ _ items Hvt Hvb Q0 Hrun)
                (items_ok_subst _ _ items Hvt Hvb Hok))
      as [items' [E [Hrun' [Hok' Hnames]]]].
    exists items'. split; [exact E |]. split; [exact Hrun' |].
    split; [exact Hok' |].
    intros m Hm. destruct (Hnames m Hm) as [H1 H2].
    apply tok_names_subst in H1. destruct H1 as [H1 Hne].
    split; [exact H1 |]. simpl. intros [Heq | Hin]; [| exact (H2 Hin)].
    apply Hne. symmetry. exact Heq.
Qed.

Lemma feed_app (a b : jsstring) :
  forall q,
    feed q (a ++ b)
    = match feed q a with
      | Some q' => feed q' b
      | None => None
      end.
Proof.
  induction a as [|c a IH]; intros q; simpl; [reflexivity |].
  destruct (delta q c); [apply IH | reflexivity].
Qed.

Lemma crun_feed (items : list item) :
  tok_names items = [] ->
  forall q, crun q items = feed q (flatten items).
Proof.
  induction items as [|i items IH]; intros Hn q; [reflexivity |].
  destruct i as [c | u | m]; simpl in Hn.
  - simpl. destruct (delta q c); [apply IH; exact Hn | reflexivity].
  - unfold flatten. simpl. fold (flatten items). rewrite feed_app.
    destruct (feed q u); [apply IH; exact Hn | reflexivity].
  - discriminate.
Qed.

Lemma exec_loop_captures (fuel : nat) :
  forall s capture,
    In capture (exec_loop fuel s) -> truthy capture = true.
Proof.
  induction fuel as [|fuel IH]; intros s capture; simpl; [tauto |].
  destruct (token_at s) as [[m r] |] eqn:E.
  - intros [<- | H]; [| exact (IH _ _ H)].
    apply token_at_shape in E. tauto.
  - destruct s as [|c s]; [intros [] | apply IH].
Qed.

Lemma parse_items_ok (fuel : nat) :
  forall s,
    (forall m, In m (exec_loop fuel s) ->
               truthy m = true /\ brace_free m = true) ->
    items_ok (parse fuel s) = true.
Proof.
  induction fuel as [|fuel IH]; intros s H; simpl in *; [reflexivity |].
  destruct (token_at s) as [[m r] |].
  - simpl. destruct (H m (or_introl eq_refl)) as [-> ->]. simpl.
    apply IH. intros k Hk. apply H. right. exact Hk.
  - destruct s as [|c s]; [reflexivity |]. simpl. apply IH. exact H.
Qed.

(** *** The variables found in a content *)

Section Extracted.

Variable generateId : nat -> jsstring.

Lemma collect_covers (caps : list jsstring) :
  (forall c, In c caps -> trim c = c) ->
  forall seen k c,
    In c caps ->
    In c seen \/ In c (map var_name (collect generateId seen k caps)).
Proof.
  induction caps as [|c0 caps IH]; intros Htrim seen k c Hin; [destruct Hin |].
  simpl. rewrite (Htrim c0 (or_introl eq_refl)).
  assert (Htrim' : forall c, In c caps -> trim c = c)
    by (intros; apply Htrim; right; assumption).
  destruct (existsb (str_eqb c0) seen) eqn:E.
  - destruct Hin as [<- | Hin]; [| apply IH; assumption].
    left. apply existsb_exists in E. destruct E as [y [Hy E]].
    apply str_eqb_eq in E. subst y. exact Hy.
  - simpl. destruct Hin as [<- | Hin]; [right; left; reflexivity |].
    destruct (IH Htrim' (c0 :: seen) (S k) c Hin) as [[<- | H] | H];
      auto.
Qed.

Lemma collect_names (caps : list jsstring) :
  forall seen k x,
    In x (collect generateId seen k caps) ->
    exists c, In c caps /\ var_name x = trim c.
Proof.
  induction caps as [|c0 caps IH]; intros seen k x; simpl; [tauto |].
  destruct (existsb (str_eqb (trim c0)) seen).
  - intros H. destruct (IH _ _ _ H) as [c [Hc E]]. exists c. auto.
  - intros [<- | H].
    + exists c0. auto.
    + destruct (IH _ _ _ H) as [c [Hc E]]. exists c. auto.
Qed.

(** C2, amended: for a template whose variables are those that
    extractVariablesFromContent finds in its content and whose
    placeholders are all written as two opening braces, the name, two
    closing braces, the name without white space around it and without a
    character that is special in a regular expression, and for values
    that supply every variable with a non-empty value free of braces
    and of the dollar sign, applyTemplate returns a string with no
    token of that form left in it. *)
Theorem no_token_left (template : PromptTemplate)
  (variableValues : list TemplateVariableValue) :
  variables template
  = extractVariablesFromContent generateId (content template) ->
  (forall capture,
      In capture (captures (content template)) ->
      literal_name capture = true /\ trim capture = capture) ->
  (forall x, In x (variables template) -> supplied variableValues x) ->
  exists result,
    applyTemplate template variableValues = Some result
    /\ has_token result = false.
Proof.
  intros Hvars Hcaps Hvals.
  set (fuel := S (List.length (content template))).
  set (items := parse fuel (content template)).
  assert (Hflat : flatten items = content template)
    by (apply flatten_parse; unfold fuel; lia).
  assert (Hnames : tok_names items = captures (content template))
    by apply parse_names.
  assert (Hrun : crun Q0 items <> None) by (apply parse_crun; exact I).
  assert (Hok : items_ok items = true).
  { apply parse_items_ok. intros m Hm. split.
    - exact (exec_loop_captures _ _ _ Hm).
    - apply literal_brace_free. apply (Hcaps m). exact Hm. }
  assert (Hgood : forall x,
             In x (variables template) ->
             literal_name (var_name x) = true
             /\ truthy (var_name x) = true
             /\ plain_value
                  (value_of (make_valueMap variableValues) x) = true).
  { intros x Hx. pose proof Hx as Hx'. rewrite Hvars in Hx'.
    destruct (collect_names _ _ _ _ Hx') as [c [Hc E]].
    destruct (Hcaps c Hc) as [Hlit Htrim]. rewrite Htrim in E.
    rewrite E. split; [exact Hlit |].
    split; [exact (exec_loop_captures _ _ _ Hc) |].
    destruct (Hvals x Hx) as [v [Hget Hv]].
    unfold value_of. rewrite Hget.
    assert (Ht : truthy v = true).
    { unfold plain_value in Hv. rewrite !andb_true_iff in Hv. tauto. }
    rewrite Ht. exact Hv. }
  destruct (apply_all (make_valueMap variableValues) (variables template)
              Hgood items Hrun Hok)
    as [items' [E [Hrun' [Hok' Hleft]]]].
  exists (flatten items'). split.
  - unfold applyTemplate. rewrite <- Hflat. exact E.
  - assert (Hnone : tok_names items' = []).
    { destruct (tok_names items') as [|m l] eqn:El; [reflexivity |].
      exfalso. destruct (Hleft m (or_introl eq_refl)) as [H1 H2].
      rewrite Hnames in H1. apply H2. rewrite Hvars.
      destruct (collect_covers (captures (content template))
                  (fun c Hc => proj2 (Hcaps c Hc)) [] 0 m H1) as [[] | H].
      exact H. }
    destruct (has_token (flatten items')) eqn:Eh; [| reflexivity].
    exfalso. apply Hrun'. rewrite (crun_feed items' Hnone).
    apply has_token_feed. exact Eh.
Qed.

End Extracted.

(** *** An empty value and the default *)













(** ** Examples *)

Definition sample_ids (k : nat) : jsstring :=
  match k with
  | 0 => lit "v0"
  | 1 => lit "v1"
  | _ => lit "v2"
  end.

Definition sample_template (text : jsstring)
  (vars : list TemplateVariable) : PromptTemplate :=
  {| id := lit "t1"; name := lit "sample"; description := [];
     createdAt := 0%Z; updatedAt := 0%Z; userId := 1%Z;
     role := AiEngine.writer; category := lit "demo"; tags := [];
     content := text; variables := vars; usageCount := 0%Z;
     isPublic := false; version := 1%Z; previousVersionId := None |}.

Definition extracted_template (text : jsstring) : PromptTemplate :=
  sample_template text (extractVariablesFromContent sample_ids text).

(** A value is supplied for every variable. *)
Definition all_supplied (template : PromptTemplate)
  (variableValues : list TemplateVariableValue) : bool :=
  forallb (fun x =>
             match JSMap.get str_eqb (var_id x)
                     (make_valueMap variableValues) with
             | Some v => truthy v
             | None => false
             end)
          (variables template).

(** C2, as the spec states it, fails: a supplied value is put in as it
    is, so a value that holds a token leaves one in the result. *)
Lemma supplied_token_is_left :
  all_supplied (extracted_template (lit "{{a}}"))
    [ {| vv_id := lit "v0"; value := lit "{{b}}" |} ] = true
  /\ applyTemplate (extracted_template (lit "{{a}}"))
       [ {| vv_id := lit "v0"; value := lit "{{b}}" |} ]
     = Some (lit "{{b}}")
  /\ has_token (lit "{{b}}") = true.
Proof. repeat split; vm_compute; reflexivity. Qed.

(** A placeholder written with white space around the name is found by
    extractVariablesFromContent, which trims the name, and is not
    replaced by applyTemplate, which looks for the trimmed name between
    the braces. *)
Lemma padded_placeholder_is_left :
  map var_name (variables (extracted_template (lit "{{ a }}")))
  = [lit "a"]
  /\ applyTemplate (extracted_template (lit "{{ a }}"))
       [ {| vv_id := lit "v0"; value := lit "x" |} ]
     = Some (lit "{{ a }}")
  /\ has_token (lit "{{ a }}") = true.
Proof. repeat split; vm_compute; reflexivity. Qed.

Definition letter : jsstring :=
  lit "Dear {{name}}, your {{item}} costs {{price}}. Bye {{name}}".

Definition letter_values : list TemplateVariableValue :=
  [ {| vv_id := lit "v0"; value := lit "Ann" |};
    {| vv_id := lit "v1"; value := lit "book" |};
    {| vv_id := lit "v2"; value := lit "12 EUR" |} ].

Lemma no_token_left_witness :
  variables (extracted_template letter)
  = extractVariablesFromContent sample_ids
      (content (extracted_template letter))
  /\ (forall capture,
        In capture (captures (content (extracted_template letter))) ->
        literal_name capture = true /\ trim capture = capture)
  /\ (forall x,
        In x (variables (extracted_template letter)) ->
        supplied letter_values x)
  /\ exists result,
       applyTemplate (extracted_template letter) letter_values
       = Some result
       /\ has_token result = false.
Proof.
  assert (H0 : variables (extracted_template letter)
               = extractVariablesFromContent sample_ids
                   (content (extracted_template letter))).
  { unfold extracted_template, sample_template, variables, content.
    reflexivity. }
  assert (H1 : forall capture,
             In capture (captures (content (extracted_template letter))) ->
             literal_name capture = true /\ trim capture = capture).
  { intros c Hc. vm_compute in Hc.
    destruct Hc as [<- | [<- | [<- | [<- | []]]]]; split; reflexivity. }
  assert (H2 : forall x,
             In x (variables (extracted_template letter)) ->
             supplied letter_values x).
  { intros x Hx. vm_compute in Hx.
    destruct Hx as [<- | [<- | [<- | []]]]; eexists; split; reflexivity. }
  split; [exact H0 |]. split; [exact H1 |]. split; [exact H2 |].
  exact (no_token_left sample_ids (extracted_template letter)
           letter_values H0 H1 H2).
Defined.








End TemplateFacts.

(* ================================================================== *)
(** * More about the storage and the routes *)
(* ================================================================== *)

Module StorageProperties.
Import JS Storage Routes StorageFacts.
Local Open Scope Z_scope.

(** ** Creating records *)

Lemma values_set_new {V : Type} (k : Z) (v : V) (m : JSMap.t Z V) :
  ~ In k (JSMap.keys m) ->
  JSMap.values (JSMap.set Z.eqb k v m) = JSMap.values m ++ [v].
Proof.
  induction m as [|[k' v'] m IH]; simpl; intros Hnot; [reflexivity |].
  destruct (Z.eqb k k') eqn:E.
  - apply Z.eqb_eq in E. exfalso. apply Hnot. left. auto.
  - simpl. f_equal. apply IH. tauto.
Qed.

Lemma counter_is_free_user (s : MemStorage) :
  wf s -> ~ In (userIdCounter s) (JSMap.keys (users s)).
Proof.
  intros Hwf Hin. apply in_map_iff in Hin. destruct Hin as [[k u] [E Hin]].
  simpl in E. subst k. apply (wf_users s Hwf) in Hin. lia.
Qed.

(** ** Signing up and onboarding *)

Lemma find_app_last {A : Type} (p : A -> bool) (l : list A) (v : A) :
  find p l = None -> p v = true -> find p (l ++ [v]) = Some v.
Proof.
  induction l as [|x l IH]; simpl; intros Hl Hv.
  - rewrite Hv. reflexivity.
  - destruct (p x); [discriminate | exact (IH Hl Hv)].
Qed.

Lemma getUserByClerkId_createUser (now : Date) (insertUser : InsertUser)
  (cid : jsstring) (s : MemStorage) :
  wf s -> truthy cid = true -> iu_clerkId insertUser = Some cid ->
  getUserByClerkId cid s = None ->
  getUserByClerkId cid (snd (createUser now insertUser s))
  = Some (fst (createUser now insertUser s)).
Proof.
  intros Hwf Ht Hc Hnone. unfold getUserByClerkId. simpl.
  rewrite values_set_new by (apply counter_is_free_user; exact Hwf).
  apply find_app_last; [exact Hnone |].
  simpl. rewrite Hc. simpl. rewrite Ht. simpl.
  apply EnhanceFacts.str_eqb_refl.
Qed.

(** X1: POST /api/users/clerk is idempotent for a non-empty clerk id: a
    second request with the same body answers with the same user and
    leaves the storage as the first request left it. *)
Theorem clerk_signup_is_idempotent (now1 now2 : Date) (b : ClerkBodyIn)
  (s : MemStorage) :
  wf s -> truthy (in_clerkId b) = true ->
  post_users_clerk now2 (Some b) (snd (post_users_clerk now1 (Some b) s))
  = post_users_clerk now1 (Some b) s.
Proof.
  intros Hwf Ht. unfold post_users_clerk at 2 3.
  destruct (getUserByClerkId (in_clerkId b) s) as [u|] eqn:E.
  - simpl. unfold post_users_clerk. rewrite E. reflexivity.
  - set (iu := {| iu_username := in_email b; iu_password := [];
                  iu_clerkId := Some (in_clerkId b); iu_role := None;
                  iu_plan := Some free |}).
    pose proof (getUserByClerkId_createUser now1 iu (in_clerkId b) s Hwf Ht
                  eq_refl E) as H.
    destruct (createUser now1 iu s) as [user s'] eqn:Ec. simpl in H.
    simpl. unfold post_users_clerk. rewrite H. reflexivity.
Qed.

(** X2: after a successful POST /api/users/onboarding, GET /api/users/me
    reports the chosen role and the other fields as they were. *)
Theorem onboarding_sets_role (cid : jsstring) (role : UserRole) (u : User)
  (s : MemStorage) :
  wf s -> truthy cid = true -> getUserByClerkId cid s = Some u ->
  exists s',
    post_users_onboarding
      (Some {| in_userId := cid; in_onb_role := role |}) s
    = (json Success, s')
    /\ get_users_me (Some cid) s'
       = (json (Me (user_id u) role (plan u)
                  (or_zero (promptsUsedToday u))), s')
    /\ prompts s' = prompts s.
Proof.
  intros Hwf Ht Hu. unfold post_users_onboarding. simpl. rewrite Hu.
  unfold updateUserRole. rewrite (getUser_of_clerkId s cid u Hwf Hu).
  eexists. split; [reflexivity |]. split; [| reflexivity].
  unfold get_users_me. rewrite (authenticated_Some cid Ht).
  rewrite (getUserByClerkId_put_user s cid u (with_role u (Some role)) Hwf Hu
             eq_refl).
  reflexivity.
Qed.


(** ** The history and the statistics *)

(** [a] is at least as new as [b], by the time the comparator reads. *)
Definition not_older (a b : Prompt) : Prop := time_or 0 b <= time_or 0 a.

Lemma insert_newest_first_sorted (p : Prompt) (l : list Prompt) :
  Sorted not_older l -> Sorted not_older (insert_newest_first p l).
Proof.
  induction l as [|a l IH]; simpl; intros Hs.
  - repeat constructor.
  - destruct (time_or 0 p <? time_or 0 a) eqn:E.
    + apply Z.ltb_lt in E. inversion Hs as [|? ? Hs' Hhd]; subst.
      constructor; [exact (IH Hs') |].
      destruct l as [|q l']; simpl.
      * constructor. unfold not_older. lia.
      * destruct (time_or 0 p <? time_or 0 q).
        -- constructor. inversion Hhd; subst. assumption.
        -- constructor. unfold not_older. lia.
    + apply Z.ltb_ge in E. constructor; [exact Hs |].
      constructor. unfold not_older. lia.
Qed.

Lemma sort_newest_first_sorted (l : list Prompt) :
  StronglySorted not_older (sort_newest_first l).
Proof.
  apply Sorted_StronglySorted.
  - intros a b c Hab Hbc. unfold not_older in *. lia.
  - induction l as [|a l IH]; simpl; [constructor |].
    apply insert_newest_first_sorted. exact IH.
Qed.

Lemma StronglySorted_filter {A : Type} (R : A -> A -> Prop)
  (f : A -> bool) (l : list A) :
  StronglySorted R l -> StronglySorted R (filter f l).
Proof.
  induction 1 as [|a l Hs IH Hall]; simpl; [constructor |].
  destruct (f a); [| exact IH].
  constructor; [exact IH |].
  rewrite Forall_forall in *. intros x Hx. apply filter_In in Hx.
  apply Hall. tauto.
Qed.

(** X3: getPromptsByUserId lists the newest prompt first: no prompt of
    the list is newer than a prompt listed before it, with or without a
    limit of days. *)
Theorem history_is_newest_first (cal : Calendar) (now later : Date)
  (uid : Z) (limitDays : option Z) (s : MemStorage) :
  StronglySorted not_older
    (getPromptsByUserId cal now later uid limitDays s).
Proof.
  unfold getPromptsByUserId.
  destruct (or_number limitDays).
  - apply StronglySorted_filter. apply sort_newest_first_sorted.
  - apply sort_newest_first_sorted.
Qed.

Lemma insert_newest_first_perm (p : Prompt) (l : list Prompt) :
  Permutation (insert_newest_first p l) (p :: l).
Proof.
  induction l as [|a l IH]; simpl; [reflexivity |].
  destruct (time_or 0 p <? time_or 0 a); [| reflexivity].
  rewrite IH. apply perm_swap.
Qed.

Lemma sort_newest_first_perm (l : list Prompt) :
  Permutation (sort_newest_first l) l.
Proof.
  induction l as [|a l IH]; simpl; [reflexivity |].
  rewrite insert_newest_first_perm. constructor. exact IH.
Qed.

Lemma opt_Z_eqb_eq (a : option Z) (b : Z) :
  opt_Z_eqb a b = true <-> a = Some b.
Proof.
  destruct a as [n|]; simpl.
  - rewrite Z.eqb_eq. split; congruence.
  - split; discriminate.
Qed.

(** The prompts a limit of days lets through, read at the clock readings
    of the call; a limit of 0 days is no limit. *)
Definition within_limit (cal : Calendar) (now later : Date)
  (limitDays : option Z) (p : Prompt) : Prop :=
  match limitDays with
  | Some days =>
      days = 0
      \/ setDate cal now (getDate cal now - days) <= time_or later p
  | None => True
  end.

(** X4: the history of a user holds exactly the stored prompts whose
    owner is that user and that are not older than the limit; a limit of
    0 days lets every prompt through. *)
Theorem history_members (cal : Calendar) (now later : Date) (uid : Z)
  (limitDays : option Z) (s : MemStorage) (p : Prompt) :
  In p (getPromptsByUserId cal now later uid limitDays s)
  <-> In p (JSMap.values (prompts s)) /\ userId p = Some uid
      /\ within_limit cal now later limitDays p.
Proof.
  unfold getPromptsByUserId, within_limit, or_number.
  assert (Hsort : forall q,
             In q (sort_newest_first
                     (filter (fun prompt => opt_Z_eqb (userId prompt) uid)
                             (JSMap.values (prompts s))))
             <-> In q (JSMap.values (prompts s)) /\ userId q = Some uid).
  { intros q. rewrite <- opt_Z_eqb_eq. split.
    - intros H. apply (Permutation_in _ (sort_newest_first_perm _)) in H.
      apply filter_In in H. exact H.
    - intros H.
      apply (Permutation_in _ (Permutation_sym (sort_newest_first_perm _))).
      apply filter_In. exact H. }
  destruct limitDays as [days|].
  - destruct (days =? 0) eqn:E.
    + apply Z.eqb_eq in E. rewrite Hsort. tauto.
    + apply Z.eqb_neq in E. rewrite filter_In, Hsort, Z.leb_le. tauto.
  - rewrite Hsort. tauto.
Qed.

Lemma filter_length_perm {A : Type} (f : A -> bool) (l l' : list A) :
  Permutation l l' ->
  List.length (filter f l) = List.length (filter f l').
Proof.
  induction 1 as [| x l l' _ IH | x y l | l l' l'' _ IH1 _ IH2]; simpl.
  - reflexivity.
  - destruct (f x); simpl; congruence.
  - destruct (f x), (f y); reflexivity.
  - congruence.
Qed.

(** X5: read at the same clock, the statistics count what the history
    lists: totalPrompts is the length of the unlimited history and
    lastWeekPrompts the length of the history limited to 7 days, as a
    free user sees it. *)
Theorem stats_count_the_history (cal : Calendar) (now later : Date)
  (uid : Z) (s : MemStorage) :
  totalPrompts (getUserUsageStats cal now later uid s)
  = List.length (getPromptsByUserId cal now later uid None s)
  /\ lastWeekPrompts (getUserUsageStats cal now later uid s)
     = List.length (getPromptsByUserId cal now later uid (Some 7) s).
Proof.
  unfold getUserUsageStats, getPromptsByUserId. simpl. split.
  - symmetry. apply Permutation_length. apply sort_newest_first_perm.
  - symmetry. apply filter_length_perm. apply sort_newest_first_perm.
Qed.

Lemma list_sum_set (role : option UserRole)
  (m : JSMap.t (option UserRole) nat) :
  list_sum
    (JSMap.values
       (JSMap.set role_key_eqb role
          (match JSMap.get role_key_eqb role m with
           | Some k => k
           | None => 0
           end + 1)%nat m))
  = S (list_sum (JSMap.values m)).
Proof.
  induction m as [|[k v] m IH]; simpl; [reflexivity |].
  destruct (role_key_eqb role k) eqn:E; simpl.
  - lia.
  - rewrite IH. lia.
Qed.

Lemma list_sum_count_role (l : list Prompt) :
  forall m : JSMap.t (option UserRole) nat,
    list_sum (JSMap.values (fold_left count_role l m))
    = (list_sum (JSMap.values m) + List.length l)%nat.
Proof.
  induction l as [|p l IH]; intros m; simpl; [lia |].
  rewrite IH. unfold count_role. rewrite list_sum_set. lia.
Qed.

(** X6: in the statistics of a user the counts of the role breakdown add
    up to totalPrompts, and lastWeekPrompts is at most totalPrompts. *)
Theorem stats_are_consistent (cal : Calendar) (now later : Date) (uid : Z)
  (s : MemStorage) :
  list_sum (JSMap.values
              (roleBreakdown (getUserUsageStats cal now later uid s)))
  = totalPrompts (getUserUsageStats cal now later uid s)
  /\ (lastWeekPrompts (getUserUsageStats cal now later uid s)
      <= totalPrompts (getUserUsageStats cal now later uid s))%nat.
Proof.
  unfold getUserUsageStats. simpl. split.
  - rewrite list_sum_count_role. reflexivity.
  - apply filter_length_le.
Qed.


(** ** Ownership *)

(** X7: DELETE /api/prompts/:id removes no prompt but the one it names,
    and that one only for its owner: a stored prompt that is gone after
    the request was named by the request and belongs to the user of the
    header. *)
Theorem prompt_is_deleted_by_owner_only (h : Header) (promptId : option Z)
  (s : MemStorage) (pid : Z) (p : Prompt) :
  getPromptById pid s = Some p ->
  getPromptById pid (snd (delete_prompt h promptId s)) <> Some p ->
  exists cid u,
    authenticated h = Some cid /\ getUserByClerkId cid s = Some u
    /\ promptId = Some pid /\ userId p = Some (user_id u).
Proof.
  intros Hp Hgone. unfold delete_prompt in Hgone.
  destruct (authenticated h) as [cid|] eqn:Ea;
    [| simpl in Hgone; congruence].
  destruct (getUserByClerkId cid s) as [u|] eqn:Eu;
    [| simpl in Hgone; congruence].
  destruct promptId as [id|]; [| simpl in Hgone; congruence].
  destruct (getPromptById id s) as [q|] eqn:Eq;
    [| simpl in Hgone; congruence].
  destruct (opt_Z_eqb (userId q) (user_id u)) eqn:Eo;
    simpl in Hgone; [| congruence].
  destruct (Z.eq_dec id pid) as [E | E].
  - subst id. exists cid, u.
    split; [reflexivity |]. split; [exact Eu |].
    split; [reflexivity |]. apply opt_Z_eqb_eq. congruence.
  - exfalso. apply Hgone. unfold getPromptById, deletePrompt. simpl.
    rewrite (MapFacts.get_delete_other _ _ Z.eqb Z.eqb_eq); assumption.
Qed.

(** X8: GET /api/prompts/:id answers with a prompt only when the prompt
    is stored under the requested id and belongs to the user of the
    header; it never changes the storage. *)
Theorem prompt_is_shown_to_owner_only (h : Header) (promptId : option Z)
  (s : MemStorage) (p : Prompt) :
  body (fst (get_prompt h promptId s)) = PromptBody p ->
  exists cid u pid,
    authenticated h = Some cid /\ getUserByClerkId cid s = Some u
    /\ promptId = Some pid /\ getPromptById pid s = Some p
    /\ userId p = Some (user_id u)
    /\ get_prompt h promptId s = (json (PromptBody p), s).
Proof.
  unfold get_prompt. intros H.
  destruct (authenticated h) as [cid|] eqn:Ea; [| discriminate].
  destruct (getUserByClerkId cid s) as [u|] eqn:Eu; [| discriminate].
  destruct promptId as [id|]; [| discriminate].
  destruct (getPromptById id s) as [q|] eqn:Eq; [| discriminate].
  destruct (opt_Z_eqb (userId q) (user_id u)) eqn:Eo; [| discriminate].
  simpl in H. injection H as H. subst q.
  exists cid, u, id. apply opt_Z_eqb_eq in Eo. simpl.
  split; [reflexivity |]. split; [exact Eu |]. tauto.
Qed.

(** ** Saving *)

(** X9: a prompt saved with POST /api/prompts/save is returned by GET
    /api/prompts/:id for the identifier of the answer, with the texts
    and the role of the request, the user as owner and the time of the
    save; saving leaves the users, and so the daily count, untouched. *)
Theorem saved_prompt_is_read_back (now : Date) (cid : jsstring)
  (b : PromptBodyIn) (u : User) (s : MemStorage) :
  truthy cid = true -> getUserByClerkId cid s = Some u ->
  user_id u <> 0 ->
  exists pid s',
    post_prompts_save now (Some cid) (Some b) s = (json (Saved pid), s')
    /\ get_prompt (Some cid) (Some pid) s'
       = (json (PromptBody
                  {| prompt_id := pid; userId := Some (user_id u);
                     originalPrompt := in_originalPrompt b;
                     enhancedPrompt := in_enhancedPrompt b;
                     prompt_role := Some (in_role b);
                     createdAt := Some now |}), s')
    /\ users s' = users s.
Proof.
  intros Ht Hu Hid. unfold post_prompts_save.
  rewrite (authenticated_Some cid Ht), Hu. simpl.
  eexists. eexists. split; [reflexivity |]. split; [| reflexivity].
  unfold get_prompt. rewrite (authenticated_Some cid Ht).
  unfold getUserByClerkId in *. simpl. rewrite Hu.
  unfold getPromptById. simpl.
  rewrite (MapFacts.get_set_same _ _ Z.eqb Z.eqb_eq). simpl.
  destruct (user_id u =? 0) eqn:E; [apply Z.eqb_eq in E; contradiction |].
  simpl. rewrite Z.eqb_refl. reflexivity.
Qed.

(** X10: a prompt saved with POST /api/prompts/save is listed by GET
    /api/prompts/history when the history is read no later than the
    limit allows: always for a paid plan, and for a free plan while the
    save is not older than 7 days by the calendar. *)
Theorem saved_prompt_is_in_history (cal : Calendar) (now t later : Date)
  (cid : jsstring) (b : PromptBodyIn) (u : User) (s : MemStorage) :
  truthy cid = true -> getUserByClerkId cid s = Some u ->
  user_id u <> 0 ->
  (plan_is_free u = true -> setDate cal t (getDate cal t - 7) <= now) ->
  exists pid s' l,
    post_prompts_save now (Some cid) (Some b) s = (json (Saved pid), s')
    /\ get_prompts_history cal t later (Some cid) s' = (json (PromptList l), s')
    /\ In {| prompt_id := pid; userId := Some (user_id u);
             originalPrompt := in_originalPrompt b;
             enhancedPrompt := in_enhancedPrompt b;
             prompt_role := Some (in_role b);
             createdAt := Some now |} l.
Proof.
  intros Ht Hu Hid Hlim. unfold post_prompts_save.
  rewrite (authenticated_Some cid Ht), Hu. simpl.
  eexists. eexists. eexists. split; [reflexivity |].
  unfold get_prompts_history. rewrite (authenticated_Some cid Ht).
  unfold getUserByClerkId in *. simpl. rewrite Hu.
  split; [reflexivity |].
  apply history_members. simpl.
  assert (Ez : (user_id u =? 0) = false) by (apply Z.eqb_neq; exact Hid).
  split; [| split; [reflexivity |]].
  - unfold JSMap.values. apply in_map_iff.
    eexists (_, _). split; [reflexivity |].
    apply (MapFacts.get_In _ _ Z.eqb Z.eqb_eq).
    rewrite <- (MapFacts.get_set_same _ _ Z.eqb Z.eqb_eq (promptIdCounter s)
                  _ (prompts s)).
    rewrite Ez. reflexivity.
  - unfold within_limit. destruct (plan_is_free u); [| exact I].
    right. simpl. apply Hlim. reflexivity.
Qed.

(** ** Paid plans *)

(** X11: a user whose plan is not the free plan is never stopped by the
    daily limit: every one of any number of POST /api/prompts/enhance
    requests is answered with 200, and each adds 1 to promptsUsedToday. *)
Theorem paid_plan_has_no_limit (cal : Calendar) (cid : jsstring)
  (qs : list EnhanceRequest) :
  forall (s : MemStorage) (u : User),
    wf s -> truthy cid = true -> getUserByClerkId cid s = Some u ->
    plan u <> Some free ->
    exists s' u',
      enhance_all cal cid qs s = (repeat 200 (List.length qs), s')
      /\ getUserByClerkId cid s' = Some u'
      /\ or_zero (promptsUsedToday u')
         = or_zero (promptsUsedToday u) + Z.of_nat (List.length qs).
Proof.
  induction qs as [|q qs IH]; intros s u Hwf Ht Hu Hplan.
  - exists s, u. simpl. split; [reflexivity |]. split; [exact Hu | lia].
  - assert (Hfree : plan_is_free u = false).
    { unfold plan_is_free. destruct (plan u) as [[|]|]; congruence. }
    destruct (record_enhancement_ok s cid u (q_increment q) (q_create q)
                (q_body q) u Hwf Hu eq_refl)
      as [pid [s1 [E1 [Hwf1 Hu1]]]].
    destruct (IH s1 _ Hwf1 Ht Hu1 Hplan) as [s2 [u2 [E2 [Hu2 Hn]]]].
    exists s2, u2.
    cbn [enhance_all]. unfold enhance_as, post_prompts_enhance.
    rewrite (authenticated_Some cid Ht), Hu.
    unfold enhance_for_user. rewrite Hfree, E1, E2.
    split; [reflexivity |]. split; [exact Hu2 |].
    rewrite Hn. simpl. cbn [List.length]. lia.
Qed.


(** ** Examples *)

Definition sample_user : User :=
  {| user_id := 1; username := lit "a@b.c"; password := [];
     clerkId := Some (lit "c1"); user_role := None; plan := Some free;
     promptsUsedToday := Some 0; lastPromptDate := Some 0;
     user_createdAt := Some 0 |}.

Definition first_prompt : Prompt :=
  {| prompt_id := 1; userId := Some 1; originalPrompt := lit "a";
     enhancedPrompt := lit "A"; prompt_role := Some writer;
     createdAt := Some 1 |}.

Definition new_account : ClerkBodyIn :=
  {| in_clerkId := lit "c2"; in_email := lit "d@e.f" |}.

(** A storage with one user, on the pro plan. *)
Definition pro_storage : MemStorage :=
  run_all [ CreateUser 0
              {| iu_username := lit "p@q.r"; iu_password := [];
                 iu_clerkId := Some (lit "p1"); iu_role := None;
                 iu_plan := Some pro |} ]
          constructor.

Definition pro_user : User :=
  {| user_id := 1; username := lit "p@q.r"; password := [];
     clerkId := Some (lit "p1"); user_role := None; plan := Some pro;
     promptsUsedToday := Some 0; lastPromptDate := Some 0;
     user_createdAt := Some 0 |}.

Definition eleven_requests : list EnhanceRequest :=
  map sample_request [0; 1; 2; 3; 4; 5; 6; 7; 8; 9; 10].

Lemma clerk_signup_is_idempotent_witness :
  wf sample_storage /\ truthy (in_clerkId new_account) = true
  /\ post_users_clerk 6 (Some new_account)
       (snd (post_users_clerk 5 (Some new_account) sample_storage))
     = post_users_clerk 5 (Some new_account) sample_storage.
Proof.
  assert (Hwf : wf sample_storage) by (apply wf_run; exact wf_constructor).
  split; [exact Hwf |]. split; [reflexivity |].
  exact (clerk_signup_is_idempotent 5 6 new_account sample_storage Hwf
           eq_refl).
Defined.

Lemma onboarding_sets_role_witness :
  wf sample_storage /\ truthy (lit "c1") = true
  /\ getUserByClerkId (lit "c1") sample_storage = Some sample_user
  /\ exists s',
       post_users_onboarding
         (Some {| in_userId := lit "c1"; in_onb_role := developer |})
         sample_storage
       = (json Success, s')
       /\ get_users_me (Some (lit "c1")) s'
          = (json (Me 1 developer (Some free) 0), s')
       /\ prompts s' = prompts sample_storage.
Proof.
  assert (Hwf : wf sample_storage) by (apply wf_run; exact wf_constructor).
  split; [exact Hwf |]. split; [reflexivity |]. split; [reflexivity |].
  exact (onboarding_sets_role (lit "c1") developer sample_user
           sample_storage Hwf eq_refl eq_refl).
Defined.

Lemma prompt_is_deleted_by_owner_only_witness :
  getPromptById 1 sample_storage = Some first_prompt
  /\ getPromptById 1
       (snd (delete_prompt (Some (lit "c1")) (Some 1) sample_storage))
     <> Some first_prompt
  /\ exists cid u,
       authenticated (Some (lit "c1")) = Some cid
       /\ getUserByClerkId cid sample_storage = Some u
       /\ Some 1 = Some 1 /\ userId first_prompt = Some (user_id u).
Proof.
  assert (H1 : getPromptById 1 sample_storage = Some first_prompt)
    by reflexivity.
  assert (H2 : getPromptById 1
                 (snd (delete_prompt (Some (lit "c1")) (Some 1)
                         sample_storage))
               <> Some first_prompt) by (vm_compute; discriminate).
  split; [exact H1 |]. split; [exact H2 |].
  exact (prompt_is_deleted_by_owner_only (Some (lit "c1")) (Some 1)
           sample_storage 1 first_prompt H1 H2).
Defined.

Lemma prompt_is_shown_to_owner_only_witness :
  body (fst (get_prompt (Some (lit "c1")) (Some 2) sample_storage))
  = PromptBody sample_prompt
  /\ exists cid u pid,
       authenticated (Some (lit "c1")) = Some cid
       /\ getUserByClerkId cid sample_storage = Some u
       /\ Some 2 = Some pid /\ getPromptById pid sample_storage
                               = Some sample_prompt
       /\ userId sample_prompt = Some (user_id u)
       /\ get_prompt (Some (lit "c1")) (Some 2) sample_storage
          = (json (PromptBody sample_prompt), sample_storage).
Proof.
  split; [reflexivity |].
  exact (prompt_is_shown_to_owner_only (Some (lit "c1")) (Some 2)
           sample_storage sample_prompt eq_refl).
Defined.

Lemma saved_prompt_is_read_back_witness :
  truthy (lit "c1") = true
  /\ getUserByClerkId (lit "c1") sample_storage = Some sample_user
  /\ user_id sample_user <> 0
  /\ exists pid s',
       post_prompts_save 7 (Some (lit "c1")) (Some sample_body)
         sample_storage
       = (json (Saved pid), s')
       /\ get_prompt (Some (lit "c1")) (Some pid) s'
          = (json (PromptBody
                     {| prompt_id := pid; userId := Some 1;
                        originalPrompt := lit "a";
                        enhancedPrompt := lit "A";
                        prompt_role := Some writer;
                        createdAt := Some 7 |}), s')
       /\ users s' = users sample_storage.
Proof.
  assert (Hid : user_id sample_user <> 0) by discriminate.
  split; [reflexivity |]. split; [reflexivity |]. split; [exact Hid |].
  exact (saved_prompt_is_read_back 7 (lit "c1") sample_body sample_user
           sample_storage eq_refl eq_refl Hid).
Defined.

Lemma saved_prompt_is_in_history_witness :
  truthy (lit "c1") = true
  /\ getUserByClerkId (lit "c1") sample_storage = Some sample_user
  /\ user_id sample_user <> 0
  /\ (plan_is_free sample_user = true ->
      setDate utc (3 * ms_per_day) (getDate utc (3 * ms_per_day) - 7)
      <= ms_per_day)
  /\ exists pid s' l,
       post_prompts_save ms_per_day (Some (lit "c1")) (Some sample_body)
         sample_storage
       = (json (Saved pid), s')
       /\ get_prompts_history utc (3 * ms_per_day) (3 * ms_per_day)
            (Some (lit "c1")) s'
          = (json (PromptList l), s')
       /\ In {| prompt_id := pid; userId := Some 1;
                originalPrompt := lit "a"; enhancedPrompt := lit "A";
                prompt_role := Some writer;
                createdAt := Some ms_per_day |} l.
Proof.
  assert (Hid : user_id sample_user <> 0) by discriminate.
  assert (Hlim : plan_is_free sample_user = true ->
                 setDate utc (3 * ms_per_day)
                   (getDate utc (3 * ms_per_day) - 7) <= ms_per_day)
    by (intros _; vm_compute; discriminate).
  split; [reflexivity |]. split; [reflexivity |]. split; [exact Hid |].
  split; [exact Hlim |].
  exact (saved_prompt_is_in_history utc ms_per_day (3 * ms_per_day)
           (3 * ms_per_day) (lit "c1") sample_body sample_user
           sample_storage eq_refl eq_refl Hid Hlim).
Defined.

Lemma paid_plan_has_no_limit_witness :
  wf pro_storage /\ truthy (lit "p1") = true
  /\ getUserByClerkId (lit "p1") pro_storage = Some pro_user
  /\ plan pro_user <> Some free
  /\ exists s' u',
       enhance_all utc (lit "p1") eleven_requests pro_storage
       = (repeat 200 11, s')
       /\ getUserByClerkId (lit "p1") s' = Some u'
       /\ or_zero (promptsUsedToday u') = 0 + 11.
Proof.
  assert (Hwf : wf pro_storage) by (apply wf_run; exact wf_constructor).
  assert (Hplan : plan pro_user <> Some free) by discriminate.
  split; [exact Hwf |]. split; [reflexivity |]. split; [reflexivity |].
  split; [exact Hplan |].
  exact (paid_plan_has_no_limit utc (lit "p1") eleven_requests pro_storage
           pro_user Hwf eq_refl eq_refl Hplan).
Defined.

End StorageProperties.

(* ================================================================== *)
(** * More about the enhancement *)
(* ================================================================== *)

Module EnhanceProperties.
Import JS RegExp AiEngine EnhanceFacts.

(** A search that succeeds on [s] wherever [s] stands succeeds on every
    subject that ends in [s]. *)
Lemma search_list_suffix (f : flags) (r : regex) (s : jsstring) :
  (forall b i, search_list f r b i s <> None) ->
  forall pre b i, search_list f r b i (pre ++ s) <> None.
Proof.
  intros Hs pre. induction pre as [|x pre IH]; intros b i; [apply Hs |].
  simpl.
  destruct (match_at f r {| before := b; index := i;
                            rest := x :: pre ++ s |}); [discriminate |].
  apply IH.
Qed.

Lemma test_suffix (f : flags) (r : regex) (pre s : jsstring) :
  (forall b i, search_list f r b i s <> None) ->
  test f r (pre ++ s) = true.
Proof.
  intros Hs. unfold test, search, start_of. simpl.
  pose proof (search_list_suffix f r s Hs pre None 0) as H.
  destruct (search_list f r None 0 (pre ++ s)); [reflexivity | contradiction].
Qed.

Lemma detailed_is_found (w : jsstring) :
  forall b i,
    search_list flags_i specific_terms b i
      (lit "Provide a detailed and comprehensive " ++ w) <> None.
Proof. intros b i. cbv. discriminate. Qed.


Lemma specific_is_found (role : UserRole) :
  forall b i,
    search_list flags_i specific_terms b i
      (nl ++ nl ++ lit "Please include:" ++ nl
       ++ bullets (firstn 1 enhancementTemplates.context
                   ++ firstn 1 enhancementTemplates.structure
                   ++ firstn 2 enhancementTemplates.details
                   ++ firstn 2 (roleSpecificEnhancements role))) <> None.
Proof. intros b i. destruct role; cbv; discriminate. Qed.

Lemma calculateSpecificity_high (text : jsstring) :
  15 < word_starts true text ->
  test flags_i specific_terms text = true ->
  calculateSpecificity text = high.
Proof.
  intros Hw Ht. unfold calculateSpecificity. rewrite Ht.
  assert (H : (15 <? List.length (split_ws text)) = true).
  { apply Nat.ltb_lt. rewrite <- countWords_word_starts in Hw.
    unfold countWords in Hw.
    pose proof (filter_length_le truthy (split_ws text)). lia. }
  rewrite H. reflexivity.
Qed.

Lemma word_starts_ge (a s : jsstring) (b : bool) :
  word_starts b a + word_starts false s <= word_starts b (a ++ s).
Proof.
  rewrite word_starts_app.
  pose proof (word_starts_false_le s (ends_in_space b a)). lia.
Qed.

Lemma frame_words (a topics t tail : jsstring) (b : bool) :
  word_starts b a + word_starts false tail
  <= word_starts b (a ++ topics ++ t ++ tail).
Proof.
  rewrite !word_starts_app.
  pose proof (word_starts_false_le tail
                (ends_in_space (ends_in_space (ends_in_space b a) topics) t)).
  lia.
Qed.

Lemma tail_words (t tail : jsstring) (b : bool) :
  word_starts false tail <= word_starts b (t ++ tail).
Proof. pose proof (word_starts_ge t tail b). lia. Qed.

Section Host.

Variable toLowerCase : jsstring -> jsstring.

(** X12: a prompt of fewer than 15 words is always labelled high after
    the enhancement, whatever it says: the text added to it has more
    than 15 words and one of the words the label looks for. *)
Theorem short_prompt_is_labelled_high (originalPrompt : jsstring)
  (role : UserRole) (shouldAddSections : bool) :
  truthy (trim originalPrompt) = true ->
  countWords originalPrompt < 15 ->
  specificity (enhancePrompt toLowerCase originalPrompt role
                 shouldAddSections) = high.
Proof.
  intros Hne Hlt. unfold enhancePrompt. rewrite Hne. cbv zeta.
  change (negb true) with false. cbv iota.
  rewrite countWords_trim.
  set (t := trim originalPrompt).
  set (topics := if 0 <? List.length (detectTopics toLowerCase t)
                 then join (lit "/") (detectTopics toLowerCase t) ++ lit " "
                 else []).
  unfold specificity.
  destruct (countWords originalPrompt <? 5).
  - assert (Hr : (0 <? List.length (firstn 2 (roleSpecificEnhancements role)))
                 = true) by (destruct role; reflexivity).
    rewrite Hr. apply calculateSpecificity_high.
    + destruct shouldAddSections; rewrite <- !app_assoc;
        (eapply Nat.lt_le_trans; [| apply frame_words]);
        destruct role; vm_compute; lia.
    + destruct shouldAddSections; rewrite <- !app_assoc;
        apply (test_suffix _ _ []), detailed_is_found.
  - destruct (countWords originalPrompt <? 15) eqn:E.
    + apply calculateSpecificity_high.
      * rewrite <- !app_assoc.
        eapply Nat.lt_le_trans; [| apply tail_words].
        destruct role; vm_compute; lia.
      * rewrite <- !app_assoc. apply test_suffix, specific_is_found.
    + apply Nat.ltb_ge in E. lia.
Qed.

(** X13: the enhanced text always contains the trimmed prompt, unchanged
    and in one piece; a prompt of 5 words or more stands at its very
    start, so that the enhancement only appends to it. *)
Theorem enhanced_contains_prompt (originalPrompt : jsstring)
  (role : UserRole) (shouldAddSections : bool) :
  exists front back,
    enhanced (enhancePrompt toLowerCase originalPrompt role
                shouldAddSections)
    = front ++ trim originalPrompt ++ back
    /\ (5 <= countWords originalPrompt -> front = []).
Proof.
  unfold enhancePrompt.
  destruct (truthy (trim originalPrompt)) eqn:Hne; cbv zeta; simpl negb;
    cbv iota.
  - rewrite countWords_trim. unfold enhanced.
    destruct (countWords originalPrompt <? 5) eqn:E5.
    + apply Nat.ltb_lt in E5.
      destruct (0 <? List.length (firstn 2 (roleSpecificEnhancements role)));
        destruct shouldAddSections; rewrite <- ?app_assoc;
        eexists (_ ++ _); eexists; (split; [| lia]);
        apply app_assoc.
    + destruct (countWords originalPrompt <? 15);
        rewrite <- !app_assoc; exists []; eexists;
        (split; [reflexivity | reflexivity]).
  - destruct (trim originalPrompt); [| discriminate].
    exists [], empty_message. split; reflexivity.
Qed.

(** X14: for a prompt that is empty or all white space the answer is the
    fixed request for a prompt, with the empty string as original and
    the label low, which is also what calculateSpecificity gives for the
    message.  The enhanced word count written into the answer is 7,
    while the message has 6 words by countWords. *)
Theorem blank_prompt_is_refused (originalPrompt : jsstring)
  (role : UserRole) (shouldAddSections : bool) :
  forallb isSpace originalPrompt = true ->
  enhancePrompt toLowerCase originalPrompt role shouldAddSections
  = {| original := [];
       enhanced := empty_message;
       wordCount := {| wc_original := countWords originalPrompt;
                       wc_enhanced := 7 |};
       specificity := calculateSpecificity empty_message |}
  /\ countWords originalPrompt = 0
  /\ countWords empty_message = 6
  /\ calculateSpecificity empty_message = low.
Proof.
  intros Hb.
  assert (Ht : trimStart originalPrompt = []).
  { induction originalPrompt as [|c s IH]; [reflexivity |].
    simpl in *. apply andb_true_iff in Hb. destruct Hb as [Hc Hs].
    rewrite Hc. exact (IH Hs). }
  assert (Hw : countWords originalPrompt = 0).
  { rewrite countWords_word_starts. apply word_starts_spaces. exact Hb. }
  assert (E6 : countWords empty_message = 6) by (vm_compute; reflexivity).
  assert (El : calculateSpecificity empty_message = low)
    by (vm_compute; reflexivity).
  split; [| split; [exact Hw | split; [exact E6 | exact El]]].
  unfold enhancePrompt, trim. rewrite Ht, Hw, El.
  change (trimEnd []) with (@nil char). reflexivity.
Qed.

End Host.


Lemma short_prompt_is_labelled_high_witness :
  truthy (trim (lit "fix my code")) = true
  /\ countWords (lit "fix my code") < 15
  /\ specificity (enhancePrompt ascii_toLowerCase (lit "fix my code")
                    developer true) = high.
Proof.
  assert (H1 : truthy (trim (lit "fix my code")) = true) by reflexivity.
  assert (H2 : countWords (lit "fix my code") < 15) by (vm_compute; lia).
  split; [exact H1 |]. split; [exact H2 |].
  exact (short_prompt_is_labelled_high ascii_toLowerCase
           (lit "fix my code") developer true H1 H2).
Defined.

Lemma blank_prompt_is_refused_witness :
  forallb isSpace (lit "  ") = true
  /\ enhanced (enhancePrompt ascii_toLowerCase (lit "  ") writer true)
     = empty_message
  /\ wc_enhanced
       (wordCount (enhancePrompt ascii_toLowerCase (lit "  ") writer true))
     = 7
  /\ countWords empty_message = 6.
Proof.
  destruct (blank_prompt_is_refused ascii_toLowerCase (lit "  ") writer
              true eq_refl) as [H1 [H2 [H3 H4]]].
  split; [reflexivity |]. rewrite H1.
  split; [reflexivity |]. split; [reflexivity | exact H3].
Defined.

End EnhanceProperties.

(* ================================================================== *)
(** * More about the quality analysis *)
(* ================================================================== *)

Module QualityProperties.
Import JS RegExp QualityAnalyzer QualityAnalyzer.qualityPatterns QualityFacts.
Local Open Scope Z_scope.

Lemma In_push_new {A : Type} (x : A) (l : list A) :
  In x (push true x l).
Proof. unfold push. apply in_or_app. right. left. reflexivity. Qed.

Lemma In_push_old {A : Type} (c : bool) (x y : A) (l : list A) :
  In x l -> In x (push c y l).
Proof.
  intros H. unfold push. destruct c; [| exact H].
  apply in_or_app. left. exact H.
Qed.

Lemma length_push {A : Type} (c : bool) (x : A) (l : list A) :
  List.length (push c x l) = (List.length l + if c then 1 else 0)%nat.
Proof.
  unfold push. destruct c; [| lia]. rewrite length_app. reflexivity.
Qed.

Lemma positive_score_zero (text : jsstring) (patterns : list pattern) :
  count_matches text patterns = 0%nat ->
  calculateAspectScore text patterns true = 0.
Proof. intros H. unfold calculateAspectScore. rewrite H. reflexivity. Qed.

Lemma strengths_of_analysis (text : jsstring) (st : RegExpState) :
  strengths (fst (analyzePromptQuality text st))
  = fst (identifyStrengths text (snd (identifyIssues text st))).
Proof.
  unfold analyzePromptQuality.
  destruct (identifyIssues text st) as [i st1]. cbn [snd].
  destruct (identifyStrengths text st1) as [g st2].
  destruct (calculateOverallScore text st2) as [n st3]. reflexivity.
Qed.

Lemma feedback_of_analysis (text : jsstring) (st : RegExpState) :
  overallFeedback (fst (analyzePromptQuality text st))
  = generateOverallFeedback (score (fst (analyzePromptQuality text st)))
      (List.length (issues (fst (analyzePromptQuality text st)))).
Proof.
  unfold analyzePromptQuality.
  destruct (identifyIssues text st) as [i st1].
  destruct (identifyStrengths text st1) as [g st2].
  destruct (calculateOverallScore text st2) as [n st3]. reflexivity.
Qed.

Lemma strengths_found (text : jsstring) (st : RegExpState) :
  ((0 <? count_matches text structure_sections)%nat
   || (0 <? count_matches text structure_formatting)%nat = true ->
   In GoodStructure (fst (identifyStrengths text st)))
  /\ ((0 <? count_matches text specificity_measures)%nat = true ->
      In SpecificMeasurements (fst (identifyStrengths text st)))
  /\ (some_test context_defined text = true ->
      In ClearContext (fst (identifyStrengths text st))).
Proof.
  unfold identifyStrengths.
  destruct (completeness_tests text st) as [has st']. cbv zeta. cbn [fst].
  set (wc := wordCount text).
  assert (Hlen : forall (x : Strength) l,
             In x l ->
             In x (if (10 <? wc)%nat && (wc <? 20)%nat then l ++ [Concise]
                   else if (20 <=? wc)%nat && (wc <=? 100)%nat
                        then l ++ [GoodDetail]
                        else if (100 <? wc)%nat then l ++ [Comprehensive]
                             else l)).
  { intros x l H.
    destruct ((10 <? wc)%nat && (wc <? 20)%nat);
      [apply in_or_app; left; exact H |].
    destruct ((20 <=? wc)%nat && (wc <=? 100)%nat);
      [apply in_or_app; left; exact H |].
    destruct (100 <? wc)%nat; [apply in_or_app; left |]; exact H. }
  split; [| split]; intros H; rewrite H; apply Hlen;
    repeat first [apply In_push_new | apply In_push_old].
Qed.


Lemma excellent_score (score : Z) (issueCount : nat) :
  generateOverallFeedback score issueCount = Excellent -> 90 <= score.
Proof.
  unfold generateOverallFeedback.
  destruct (90 <=? score) eqn:E; [intros _; apply Z.leb_le; exact E |].
  destruct (75 <=? score); [discriminate |].
  destruct (60 <=? score); [discriminate |].
  destruct (40 <=? score); discriminate.
Qed.

Lemma exact_score_bounds (c l m x s f p : Z) :
  1000 * exact_score c l m x s f p
  <= 250 * c + 100 * l + 150 * m + 200 * x + 75 * s + 75 * f + 150 * p + 500
  < 1000 * exact_score c l m x s f p + 1000.
Proof.
  unfold exact_score.
  pose proof (Z.div_mod
                (250 * c + 100 * l + 150 * m + 200 * x + 75 * s + 75 * f
                 + 150 * p + 500) 1000 ltac:(lia)).
  pose proof (Z.mod_pos_bound
                (250 * c + 100 * l + 150 * m + 200 * x + 75 * s + 75 * f
                 + 150 * p + 500) 1000 ltac:(lia)).
  lia.
Qed.

(** X15: a prompt is called excellent (a score of 90 or more) only if it
    has all three of: a section or list marker, a measurement, and a
    stated context; each of them is then listed among its strengths. *)
Theorem excellent_prompt_has_strengths (text : jsstring)
  (st : RegExpState) :
  overallFeedback (fst (analyzePromptQuality text st)) = Excellent ->
  In GoodStructure (strengths (fst (analyzePromptQuality text st)))
  /\ In SpecificMeasurements (strengths (fst (analyzePromptQuality text st)))
  /\ In ClearContext (strengths (fst (analyzePromptQuality text st))).
Proof.
  intros H. rewrite feedback_of_analysis in H. apply excellent_score in H.
  rewrite score_formula in H. cbv zeta in H.
  unfold other_aspects in H. cbn [ambiguous_matches lacking_score
    measures_score context_found sections_score formatting_score
    completeness_found] in H.
  set (p := completeness_points _) in H.
  set (c := clarity_score _ _) in H.
  pose proof (exact_score_bounds c
                (calculateAspectScore text specificity_lacking false)
                (calculateAspectScore text specificity_measures true)
                (if some_test context_defined text then 80 else 40)
                (calculateAspectScore text structure_sections true)
                (calculateAspectScore text structure_formatting true) p)
    as Hb.
  pose proof (clarity_score_bounds (vague_matches text)
                (count_matches text clarity_ambiguous)) as Hc. fold c in Hc.
  pose proof (completeness_values_bounds p
                (completeness_points_values _)) as Hp.
  pose proof (aspect_values_bounds _
                (calculateAspectScore_values text specificity_lacking false))
    as Hl.
  pose proof (aspect_values_bounds _
                (calculateAspectScore_values text specificity_measures true))
    as Hm.
  pose proof (aspect_values_bounds _
                (calculateAspectScore_values text structure_sections true))
    as Hs.
  pose proof (aspect_values_bounds _
                (calculateAspectScore_values text structure_formatting true))
    as Hf.
  rewrite strengths_of_analysis.
  destruct (strengths_found text (snd (identifyIssues text st)))
    as [Gs [Gm Gx]].
  split; [| split].
  - apply Gs.
    destruct (0 <? count_matches text structure_sections)%nat eqn:E1;
      [reflexivity |].
    destruct (0 <? count_matches text structure_formatting)%nat eqn:E2;
      [reflexivity |].
    exfalso. apply Nat.ltb_ge in E1, E2.
    rewrite (positive_score_zero text structure_sections) in * by lia.
    rewrite (positive_score_zero text structure_formatting) in * by lia.
    destruct (some_test context_defined text); lia.
  - apply Gm.
    destruct (0 <? count_matches text specificity_measures)%nat eqn:E1;
      [reflexivity |].
    exfalso. apply Nat.ltb_ge in E1.
    rewrite (positive_score_zero text specificity_measures) in * by lia.
    destruct (some_test context_defined text); lia.
  - apply Gx. destruct (some_test context_defined text); [reflexivity |].
    exfalso. lia.
Qed.

(** X16: a text in which no vague word, no ambiguous pronoun and no
    unspecific descriptor is found scores at least 43, so that it is
    never told to need significant revision; the empty text is such a
    text. *)
Theorem plain_text_scores_at_least_43 (text : jsstring) (st : RegExpState) :
  count_matches text (clarity_vague ++ clarity_ambiguous) = 0%nat ->
  count_matches text specificity_lacking = 0%nat ->
  43 <= score (fst (analyzePromptQuality text st))
  /\ overallFeedback (fst (analyzePromptQuality text st))
     <> SignificantRevision.
Proof.
  intros Hc Hl.
  assert (H : 43 <= score (fst (analyzePromptQuality text st))).
  { rewrite score_formula. cbv zeta.
    unfold other_aspects. cbn [ambiguous_matches lacking_score
      measures_score context_found sections_score formatting_score
      completeness_found].
    set (p := completeness_points _).
    rewrite count_matches_app in Hc.
    unfold clarity_score, vague_matches.
    replace (count_matches text clarity_vague
             + count_matches text clarity_ambiguous)%nat with 0%nat by lia.
    unfold calculateAspectScore at 1. rewrite Hl.
    change (Z.max 0 (100 - Z.of_nat 0 * 20)) with 100.
    pose proof (exact_score_bounds 100 100
                  (calculateAspectScore text specificity_measures true)
                  (if some_test context_defined text then 80 else 40)
                  (calculateAspectScore text structure_sections true)
                  (calculateAspectScore text structure_formatting true) p)
      as Hb.
    pose proof (completeness_values_bounds p
                  (completeness_points_values _)) as Hp.
    pose proof (aspect_values_bounds _
                  (calculateAspectScore_values text specificity_measures
                     true)) as Hm.
    pose proof (aspect_values_bounds _
                  (calculateAspectScore_values text structure_sections true))
      as Hs.
    pose proof (aspect_values_bounds _
                  (calculateAspectScore_values text structure_formatting
                     true)) as Hf.
    destruct (some_test context_defined text); lia. }
  split; [exact H |].
  rewrite feedback_of_analysis. unfold generateOverallFeedback.
  destruct (90 <=? _); [discriminate |].
  destruct (75 <=? _); [discriminate |].
  destruct (60 <=? _); [discriminate |].
  destruct (40 <=? score (fst (analyzePromptQuality text st))) eqn:E;
    [discriminate |].
  apply Z.leb_gt in E. lia.
Qed.


Lemma issues_of_analysis (text : jsstring) (st : RegExpState) :
  issues (fst (analyzePromptQuality text st)) = fst (identifyIssues text st).
Proof.
  unfold analyzePromptQuality.
  destruct (identifyIssues text st) as [i st1]. cbn [fst].
  destruct (identifyStrengths text st1) as [g st2].
  destruct (calculateOverallScore text st2) as [n st3]. reflexivity.
Qed.

Definition issue_list (b1 b2 b3 b4 b5 b6 b7 b8 : bool) (s1 s2 : Severity)
  : list QualityIssue :=
  push b8 {| issue_type := completeness; severity := low;
             explanation := NoAudience |}
    (push b7 {| issue_type := completeness; severity := low;
                explanation := NoConstraints |}
       (push b6 {| issue_type := completeness; severity := medium;
                   explanation := NoGoal |}
          (push b5 {| issue_type := structure; severity := medium;
                      explanation := LacksStructure |}
             (push b4 {| issue_type := context; severity := high;
                         explanation := LacksContext |}
                (push b3 {| issue_type := specificity; severity := medium;
                            explanation := NoMeasurements |}
                   (push b2 {| issue_type := clarity; severity := s2;
                               explanation := AmbiguousPronouns |}
                      (push b1 {| issue_type := clarity; severity := s1;
                                  explanation := VagueLanguage |} []))))))).

Lemma issue_list_facts (b1 b2 b3 b4 b5 b6 b7 b8 : bool) (s1 s2 : Severity) :
  (b4 && b5 = false ->
   List.length (issue_list b1 b2 b3 b4 b5 b6 b7 b8 s1 s2) <= 7)%nat
  /\ (In LacksContext
        (map explanation (issue_list b1 b2 b3 b4 b5 b6 b7 b8 s1 s2)) ->
      b4 = true)
  /\ (In LacksStructure
        (map explanation (issue_list b1 b2 b3 b4 b5 b6 b7 b8 s1 s2)) ->
      b5 = true).
Proof.
  destruct b1, b2, b3, b4, b5, b6, b7, b8; cbn;
    (split; [intros H; first [discriminate H | lia] |]);
    (split; intros H; first [reflexivity | intuition discriminate]).
Qed.

(** X17: an analysis reports at most 7 of its 8 issues: the missing
    context is reported for texts of fewer than 50 pieces only, the
    missing structure for texts of more than 50 only, so the two never
    come together. *)
Theorem at_most_seven_issues (text : jsstring) (st : RegExpState) :
  (List.length (issues (fst (analyzePromptQuality text st))) <= 7)%nat
  /\ ~ (In LacksContext
          (map explanation (issues (fst (analyzePromptQuality text st))))
        /\ In LacksStructure
             (map explanation (issues (fst (analyzePromptQuality text st))))).
Proof.
  rewrite issues_of_analysis. unfold identifyIssues.
  destruct (completeness_tests text st) as [has st']. cbv zeta. cbn [fst].
  set (wc := wordCount text).
  match goal with
  | |- context [push ?c8 _ (push ?c7 _ (push ?c6 _ (push ?c5 _ (push ?c4 _
         (push ?c3 _ (push ?c2 {| issue_type := _; severity := ?s2;
                                  explanation := _ |}
                        (push ?c1 {| issue_type := _; severity := ?s1;
                                     explanation := _ |} _)))))))] =>
      pose proof (issue_list_facts c1 c2 c3 c4 c5 c6 c7 c8 s1 s2)
        as [Hlen [H4 H5]];
      assert (Hx : c4 && c5 = false)
  end.
  { destruct (wc <? 50)%nat eqn:E1; destruct (50 <? wc)%nat eqn:E2;
      [ apply Nat.ltb_lt in E1, E2; lia | | | ];
      rewrite ?andb_false_r; reflexivity. }
  split; [exact (Hlen Hx) |].
  intros [G4 G5]. apply H4 in G4. apply H5 in G5.
  rewrite G4, G5 in Hx. discriminate.
Qed.


Local Close Scope Z_scope.

(** ** Patterns of words between word boundaries *)

(** Patterns built from code units, sequence, choice and [\b]. *)
Fixpoint simple (r : regex) : bool :=
  match r with
  | Emp | Chr _ | WordB => true
  | Cat a b | Alt a b => simple a && simple b
  | _ => false
  end.

(** The least number of code units a match of a simple pattern takes. *)
Fixpoint min_len (r : regex) : nat :=
  match r with
  | Chr _ => 1
  | Cat a b => min_len a + min_len b
  | Alt a b => Nat.min (min_len a) (min_len b)
  | _ => 0
  end.

(** The position [n] code units after [c]. *)
Fixpoint advance_n (n : nat) (c : cursor) : option cursor :=
  match n with
  | 0 => Some c
  | S n' =>
      match advance c with
      | Some c' => advance_n n' c'
      | None => None
      end
  end.

Lemma advance_n_add (n m : nat) :
  forall c c1 c2,
    advance_n n c = Some c1 -> advance_n m c1 = Some c2 ->
    advance_n (n + m) c = Some c2.
Proof.
  induction n as [|n IH]; intros c c1 c2 H1 H2; simpl in *.
  - injection H1 as <-. exact H2.
  - destruct (advance c) as [c'|]; [| discriminate].
    exact (IH c' c1 c2 H1 H2).
Qed.

Lemma advance_n_facts (n : nat) :
  forall c c',
    advance_n n c = Some c' ->
    index c' = index c + n
    /\ List.length (rest c) = List.length (rest c') + n.
Proof.
  induction n as [|n IH]; intros c c' H; simpl in H.
  - injection H as <-. lia.
  - unfold advance in H. destruct (rest c) as [|x s] eqn:E; [discriminate |].
    destruct (IH _ _ H) as [H1 H2]. simpl in *. lia.
Qed.

Lemma run_simple (f : flags) (r : regex) :
  simple r = true ->
  forall k c e,
    run f r k c = Some e ->
    exists n c',
      min_len r <= n /\ advance_n n c = Some c' /\ k c' = Some e.
Proof.
  induction r as [| p | neg rs | | r1 IHr1 r2 IHr2 | r1 IHr1 r2 IHr2
                 | lo hi gr r1 IHr1 | pos r1 IHr1 | rs | | |];
    intros Hs k c e H; simpl in Hs; try discriminate.
  - exists 0, c. simpl in *. auto.
  - simpl in H. destruct (rest c) as [|x s] eqn:E; [discriminate |].
    destruct (chr_matches f p x); [| discriminate].
    destruct (advance c) as [c'|] eqn:Ea; [| discriminate].
    exists 1, c'. simpl. rewrite Ea. auto.
  - apply andb_true_iff in Hs. destruct Hs as [Hs1 Hs2]. simpl in H.
    destruct (IHr1 Hs1 _ _ _ H) as [n1 [c1 [L1 [A1 K1]]]].
    destruct (IHr2 Hs2 _ _ _ K1) as [n2 [c2 [L2 [A2 K2]]]].
    exists (n1 + n2), c2. simpl.
    split; [lia |]. split; [exact (advance_n_add _ _ _ _ _ A1 A2) | exact K2].
  - apply andb_true_iff in Hs. destruct Hs as [Hs1 Hs2]. simpl in H.
    destruct (run f r1 k c) as [e1|] eqn:E1.
    + injection H as <-.
      destruct (IHr1 Hs1 _ _ _ E1) as [n [c' [L [A K]]]].
      exists n, c'. simpl. split; [lia | auto].
    + destruct (IHr2 Hs2 _ _ _ H) as [n [c' [L [A K]]]].
      exists n, c'. simpl. split; [lia | auto].
  - simpl in H. destruct (at_word_boundary c); [| discriminate].
    exists 0, c. simpl. auto.
Qed.


Lemma search_list_eq (f : flags) (r : regex) (b : option char) (i : nat)
  (s : jsstring) :
  search_list f r b i s
  = match match_at f r {| before := b; index := i; rest := s |} with
    | Some e => Some (i, e)
    | None =>
        match s with
        | [] => None
        | x :: s' => search_list f r (Some x) (S i) s'
        end
    end.
Proof. destruct s; reflexivity. Qed.

Lemma cursor_at_advance (n : nat) :
  forall b i s,
    cursor_at b i s n
    = advance_n n {| before := b; index := i; rest := s |}.
Proof.
  induction n as [|n IH]; intros b i s; destruct s as [|x s];
    try reflexivity.
  simpl. apply IH.
Qed.

Section Rounds.

Variable f : flags.
Variable r : regex.
Hypothesis r_simple : simple r = true.
Hypothesis r_consumes : 1 <= min_len r.
Variable s : jsstring.

(** A match found from [c] on ends at least one code unit behind the
    place where it starts, which is [c] or a later position. *)
Lemma search_reach (c : cursor) (j : nat) (e : cursor) :
  search f r c = Some (j, e) ->
  exists m, advance_n m c = Some e /\ index c <= j < index e.
Proof.
  unfold search. destruct c as [b i t]. cbn [before index rest].
  revert b i. induction t as [|x t IH]; intros b i H;
    rewrite search_list_eq in H;
    destruct (match_at f r {| before := b; index := i; rest := _ |})
      as [e0|] eqn:E.
  - injection H as <- <-. unfold match_at in E.
    destruct (run_simple f r r_simple _ _ _ E) as [n [c' [L [A K]]]].
    injection K as <-. exists n. split; [exact A |].
    apply advance_n_facts in A. simpl in A. lia.
  - discriminate.
  - injection H as <- <-. unfold match_at in E.
    destruct (run_simple f r r_simple _ _ _ E) as [n [c' [L [A K]]]].
    injection K as <-. exists n. split; [exact A |].
    apply advance_n_facts in A. simpl in A. lia.
  - destruct (IH _ _ H) as [m [A Hj]]. exists (S m).
    split; [exact A | lia].
Qed.

(** The positions of the subject [s]. *)
Definition position (c : cursor) : Prop :=
  exists n, advance_n n (start_of s) = Some c.

Lemma position_start : position (start_of s).
Proof. exists 0. reflexivity. Qed.

Lemma test_g_at (c : cursor) :
  position c ->
  test_g f r s (index c)
  = match search f r c with
    | Some (_, e) => (true, index e)
    | None => (false, 0)
    end.
Proof.
  intros [n A]. unfold test_g.
  pose proof (advance_n_facts _ _ _ A) as [Hi _]. simpl in Hi.
  rewrite Hi, cursor_at_advance. fold (start_of s). rewrite A. reflexivity.
Qed.

Lemma search_position (c : cursor) (j : nat) (e : cursor) :
  position c -> search f r c = Some (j, e) ->
  position e /\ index e <> j
  /\ List.length (rest e) < List.length (rest c).
Proof.
  intros [n A] H. destruct (search_reach c j e H) as [m [B Hj]].
  split; [exists (n + m); exact (advance_n_add _ _ _ _ _ A B) |].
  pose proof (advance_n_facts _ _ _ B) as [Hi Hl]. lia.
Qed.

Lemma count_from_S (fuel : nat) (c : cursor) :
  count_from f r (S fuel) c
  = match search f r c with
    | Some (_, e) => S (count_from f r fuel e)
    | None => 0
    end.
Proof.
  cbn [count_from]. destruct (search f r c) as [[j e]|] eqn:E;
    [| reflexivity].
  destruct (search_reach c j e E) as [m [_ Hj]].
  destruct (index e =? j) eqn:En; [apply Nat.eqb_eq in En; lia |].
  reflexivity.
Qed.

(** Three calls of [test] in a row on the subject [s], the first with
    [lastIndex] at 0: the first succeeds when there is a match, the
    second when there are two, the third when there is one match or
    there are three or more. *)
Lemma three_tests :
  let n := match_count f r s in
  let t1 := test_g f r s 0 in
  let t2 := test_g f r s (snd t1) in
  let t3 := test_g f r s (snd t2) in
  fst t1 = (1 <=? n) /\ fst t2 = (2 <=? n)
  /\ fst t3 = ((n =? 1) || (3 <=? n)).
Proof.
  intros n t1 t2 t3. subst n t1 t2 t3. unfold match_count.
  pose proof (test_g_at _ position_start) as T0.
  change (index (start_of s)) with 0 in T0.
  rewrite count_from_S. rewrite T0.
  destruct (search f r (start_of s)) as [[j1 e1]|] eqn:S1.
  2:{ cbn [fst snd]. rewrite T0. cbn [fst snd]. rewrite T0. auto. }
  destruct (search_position _ _ _ position_start S1) as [P1 [_ L1]].
  cbn [fst snd]. rewrite (test_g_at _ P1).
  change (rest (start_of s)) with s in L1.
  destruct (List.length s) as [|fuel] eqn:El; [lia |].
  rewrite count_from_S.
  destruct (search f r e1) as [[j2 e2]|] eqn:S2.
  2:{ cbn [fst snd]. rewrite T0. auto. }
  destruct (search_position _ _ _ P1 S2) as [P2 [_ L2]].
  cbn [fst snd]. rewrite (test_g_at _ P2).
  destruct fuel as [|fuel]; [lia |].
  rewrite count_from_S.
  destruct (search f r e2) as [[j3 e3]|] eqn:S3; auto.
Qed.

End Rounds.


(** ** The completeness keywords in an analysis *)

(** The number of matches of a pattern with the [g] flag. *)
Definition keyword_matches (p : pattern) (text : jsstring) : nat :=
  match_count (fst p) (snd p) text.

(** What the third [test] in a row says for [n] matches. *)
Definition counted (n : nat) : bool := (n =? 1) || (3 <=? n).

Lemma completeness_tests_eq (text : jsstring) (st : RegExpState) :
  completeness_tests text st
  = ({| hasGoals :=
          fst (test_g (fst completeness_goals) (snd completeness_goals)
                 text (goals_lastIndex st));
        hasConstraints :=
          fst (test_g (fst completeness_constraints)
                 (snd completeness_constraints) text
                 (constraints_lastIndex st));
        hasAudience :=
          fst (test_g (fst completeness_audience)
                 (snd completeness_audience) text (audience_lastIndex st)) |},
     {| goals_lastIndex :=
          snd (test_g (fst completeness_goals) (snd completeness_goals)
                 text (goals_lastIndex st));
        constraints_lastIndex :=
          snd (test_g (fst completeness_constraints)
                 (snd completeness_constraints) text
                 (constraints_lastIndex st));
        audience_lastIndex :=
          snd (test_g (fst completeness_audience)
                 (snd completeness_audience) text (audience_lastIndex st)) |}).
Proof.
  unfold completeness_tests.
  destruct (test_g (fst completeness_goals) _ text _) as [g gi].
  destruct (test_g (fst completeness_constraints) _ text _) as [c ci].
  destruct (test_g (fst completeness_audience) _ text _) as [a ai].
  reflexivity.
Qed.

Lemma keyword_tests (p : pattern) (text : jsstring) :
  simple (snd p) = true -> 1 <= min_len (snd p) ->
  let t1 := test_g (fst p) (snd p) text 0 in
  let t2 := test_g (fst p) (snd p) text (snd t1) in
  let t3 := test_g (fst p) (snd p) text (snd t2) in
  fst t1 = (1 <=? keyword_matches p text)
  /\ fst t2 = (2 <=? keyword_matches p text)
  /\ fst t3 = counted (keyword_matches p text).
Proof. intros Hs Hl. exact (three_tests (fst p) (snd p) Hs Hl text). Qed.

(** The flags that the three functions of an analysis read, one after
    the other, when the analysis starts with every [lastIndex] at 0. *)
Lemma flags_of_analysis (text : jsstring) :
  let st1 := snd (completeness_tests text fresh_state) in
  let st2 := snd (completeness_tests text st1) in
  fst (completeness_tests text st1)
  = {| hasGoals := 2 <=? keyword_matches completeness_goals text;
       hasConstraints := 2 <=? keyword_matches completeness_constraints text;
       hasAudience := 2 <=? keyword_matches completeness_audience text |}
  /\ fst (completeness_tests text st2)
     = {| hasGoals := counted (keyword_matches completeness_goals text);
          hasConstraints :=
            counted (keyword_matches completeness_constraints text);
          hasAudience :=
            counted (keyword_matches completeness_audience text) |}.
Proof.
  intros st1 st2. subst st1 st2.
  destruct (keyword_tests completeness_goals text eq_refl)
    as [_ [G2 G3]]; [vm_compute; lia |].
  destruct (keyword_tests completeness_constraints text eq_refl)
    as [_ [C2 C3]]; [vm_compute; lia |].
  destruct (keyword_tests completeness_audience text eq_refl)
    as [_ [A2 A3]]; [vm_compute; lia |].
  rewrite !completeness_tests_eq.
  cbn [fst snd goals_lastIndex constraints_lastIndex audience_lastIndex
       fresh_state].
  rewrite G2, G3, C2, C3, A2, A3. split; reflexivity.
Qed.


Definition strength_list (b1 b2 b3 g c a w1 w2 w3 : bool) : list Strength :=
  let found :=
    push a SpecifiesAudience
      (push c IncludesConstraints
         (push g StatesGoal
            (push b3 ClearContext
               (push b2 SpecificMeasurements (push b1 GoodStructure [])))))
  in
  if w1 then found ++ [Concise]
  else if w2 then found ++ [GoodDetail]
       else if w3 then found ++ [Comprehensive] else found.

Lemma strength_list_flags (b1 b2 b3 g c a w1 w2 w3 : bool) :
  (In StatesGoal (strength_list b1 b2 b3 g c a w1 w2 w3) <-> g = true)
  /\ (In IncludesConstraints (strength_list b1 b2 b3 g c a w1 w2 w3)
      <-> c = true)
  /\ (In SpecifiesAudience (strength_list b1 b2 b3 g c a w1 w2 w3)
      <-> a = true).
Proof.
  destruct b1, b2, b3, g, c, a, w1, w2, w3; cbn;
    intuition (discriminate || congruence).
Qed.

Lemma strengths_flags (text : jsstring) (st : RegExpState) :
  let has := fst (completeness_tests text st) in
  (In StatesGoal (fst (identifyStrengths text st)) <-> hasGoals has = true)
  /\ (In IncludesConstraints (fst (identifyStrengths text st))
      <-> hasConstraints has = true)
  /\ (In SpecifiesAudience (fst (identifyStrengths text st))
      <-> hasAudience has = true).
Proof.
  unfold identifyStrengths.
  destruct (completeness_tests text st) as [has st']. cbv zeta. cbn [fst].
  apply strength_list_flags.
Qed.

(** X18: in an analysis that starts with every lastIndex at 0, a
    completeness keyword counts as a strength only when it is found at
    least twice: identifyStrengths applies the patterns, which carry the
    g flag, right after identifyIssues has, and so its search starts
    behind the first match.  A prompt that states its goal once is not
    told that it clearly states the goal. *)
Theorem keyword_is_a_strength_when_found_twice (text : jsstring) :
  (In StatesGoal (strengths (fst (analyzePromptQuality text fresh_state)))
   <-> 2 <= keyword_matches completeness_goals text)
  /\ (In IncludesConstraints
        (strengths (fst (analyzePromptQuality text fresh_state)))
      <-> 2 <= keyword_matches completeness_constraints text)
  /\ (In SpecifiesAudience
        (strengths (fst (analyzePromptQuality text fresh_state)))
      <-> 2 <= keyword_matches completeness_audience text).
Proof.
  rewrite strengths_of_analysis, identifyIssues_state.
  destruct (strengths_flags text (snd (completeness_tests text fresh_state)))
    as [Hg [Hc Ha]].
  destruct (flags_of_analysis text) as [E _]. rewrite E in Hg, Hc, Ha.
  cbn [hasGoals hasConstraints hasAudience] in Hg, Hc, Ha.
  rewrite Hg, Hc, Ha, !Nat.leb_le. tauto.
Qed.

(** X19: in an analysis that starts with every lastIndex at 0, the score
    gives the points of a completeness keyword (40 for a goal, 30 for a
    constraint, 30 for an audience) when the keyword is found once or
    three times and more, and not when it is found exactly twice:
    calculateOverallScore is the third to apply the patterns, and after
    two matches its search finds nothing more. *)
Theorem keyword_scores_unless_found_twice (text : jsstring) :
  let o := other_aspects text fresh_state in
  let found :=
    {| hasGoals := counted (keyword_matches completeness_goals text);
       hasConstraints :=
         counted (keyword_matches completeness_constraints text);
       hasAudience :=
         counted (keyword_matches completeness_audience text) |} in
  completeness_found o = found
  /\ score (fst (analyzePromptQuality text fresh_state))
     = exact_score
         (clarity_score (vague_matches text) (ambiguous_matches o))
         (lacking_score o) (measures_score o)
         (if context_found o then 80 else 40)%Z
         (sections_score o) (formatting_score o)
         (completeness_points found).
Proof.
  intros o found.
  assert (E : completeness_found o = found).
  { subst o found. unfold other_aspects. cbn [completeness_found].
    unfold state_before_score.
    exact (proj2 (flags_of_analysis text)). }
  split; [exact E |]. rewrite <- E. apply score_formula.
Qed.


(** ** Examples *)

Definition brief : jsstring :=
  lit "Goal: a page for one user in 10 days. Avoid 5 px, 6 px, 7 px and 8 px. 1. a 2. b 3. c 4. d 5. e".

Lemma excellent_prompt_has_strengths_witness :
  overallFeedback (fst (analyzePromptQuality brief fresh_state)) = Excellent
  /\ In GoodStructure (strengths (fst (analyzePromptQuality brief fresh_state)))
  /\ In SpecificMeasurements
       (strengths (fst (analyzePromptQuality brief fresh_state)))
  /\ In ClearContext (strengths (fst (analyzePromptQuality brief fresh_state))).
Proof.
  assert (H : overallFeedback (fst (analyzePromptQuality brief fresh_state))
              = Excellent) by (vm_compute; reflexivity).
  split; [exact H |].
  exact (excellent_prompt_has_strengths brief fresh_state H).
Defined.

Lemma plain_text_scores_at_least_43_witness :
  count_matches [] (clarity_vague ++ clarity_ambiguous) = 0
  /\ count_matches [] specificity_lacking = 0
  /\ (43 <= score (fst (analyzePromptQuality [] fresh_state)))%Z
  /\ overallFeedback (fst (analyzePromptQuality [] fresh_state))
     <> SignificantRevision.
Proof.
  split; [reflexivity |]. split; [reflexivity |].
  exact (plain_text_scores_at_least_43 [] fresh_state eq_refl eq_refl).
Defined.

End QualityProperties.

(* ================================================================== *)
(** * The template library *)
(* ================================================================== *)

Module TemplateProperties.
Import JS Storage TemplateManager TemplateLibrary.
Local Open Scope Z_scope.

(** ** The listings *)

Section Descending.

Variable key : PromptTemplate -> Z.

(** [a] does not come after [b] by mistake: its key is at least [b]'s. *)
Definition at_least (a b : PromptTemplate) : Prop := key b <= key a.

Lemma insert_desc_sorted (x : PromptTemplate) (l : list PromptTemplate) :
  Sorted at_least l -> Sorted at_least (insert_desc key x l).
Proof.
  induction l as [|a l IH]; simpl; intros Hs.
  - repeat constructor.
  - destruct (key x <? key a) eqn:E.
    + apply Z.ltb_lt in E. inversion Hs as [|? ? Hs' Hhd]; subst.
      constructor; [exact (IH Hs') |].
      destruct l as [|q l']; simpl.
      * constructor. unfold at_least. lia.
      * destruct (key x <? key q).
        -- constructor. inversion Hhd; subst. assumption.
        -- constructor. unfold at_least. lia.
    + apply Z.ltb_ge in E. constructor; [exact Hs |].
      constructor. unfold at_least. lia.
Qed.

Lemma sort_desc_sorted (l : list PromptTemplate) :
  StronglySorted at_least (sort_desc key l).
Proof.
  apply Sorted_StronglySorted.
  - intros a b c Hab Hbc. unfold at_least in *. lia.
  - induction l as [|a l IH]; simpl; [constructor |].
    apply insert_desc_sorted. exact IH.
Qed.

Lemma insert_desc_perm (x : PromptTemplate) (l : list PromptTemplate) :
  Permutation (insert_desc key x l) (x :: l).
Proof.
  induction l as [|a l IH]; simpl; [reflexivity |].
  destruct (key x <? key a); [| reflexivity].
  rewrite IH. apply perm_swap.
Qed.

Lemma sort_desc_perm (l : list PromptTemplate) :
  Permutation (sort_desc key l) l.
Proof.
  induction l as [|a l IH]; simpl; [reflexivity |].
  rewrite insert_desc_perm. constructor. exact IH.
Qed.

Lemma sorted_app (a b : list PromptTemplate) :
  StronglySorted at_least (a ++ b) ->
  StronglySorted at_least a
  /\ forall x y, In x a -> In y b -> at_least x y.
Proof.
  induction a as [|c a IH]; simpl; intros H.
  - split; [constructor | intros x y []].
  - inversion H as [|? ? Hs Hall]; subst.
    destruct (IH Hs) as [Ha Hab]. split.
    + constructor; [exact Ha |].
      rewrite Forall_forall in *. intros x Hx. apply Hall.
      apply in_or_app. left. exact Hx.
    + intros x y [Hx | Hx] Hy.
      * subst x. rewrite Forall_forall in Hall. apply Hall.
        apply in_or_app. right. exact Hy.
      * exact (Hab x y Hx Hy).
Qed.

(** The first [limit] of the templates sorted by [key]: they are sorted,
    as many as asked for if there are that many, and none of the
    templates left out has a larger key than one of them. *)
Lemma top_of_sorted (templates : list PromptTemplate) (limit : Z) :
  0 <= limit ->
  let top := slice0 limit (sort_desc key templates) in
  List.length top = Nat.min (Z.to_nat limit) (List.length templates)
  /\ StronglySorted at_least top
  /\ exists rest,
       Permutation templates (top ++ rest)
       /\ forall x y, In x top -> In y rest -> at_least x y.
Proof.
  intros Hl top. subst top. unfold slice0.
  destruct (limit <? 0) eqn:E; [apply Z.ltb_lt in E; lia |].
  pose proof (sort_desc_sorted templates) as Hs.
  pose proof (sort_desc_perm templates) as Hp.
  rewrite <- (firstn_skipn (Z.to_nat limit) (sort_desc key templates))
    in Hs, Hp.
  destruct (sorted_app _ _ Hs) as [Ha Hab].
  split; [| split; [exact Ha |]].
  - rewrite length_firstn.
    rewrite (Permutation_length (sort_desc_perm templates)). reflexivity.
  - exists (skipn (Z.to_nat limit) (sort_desc key templates)).
    split; [symmetry; exact Hp | exact Hab].
Qed.

End Descending.

(** [top] holds the first [limit] of [templates] by [key]. *)
Definition top_by (key : PromptTemplate -> Z)
  (templates : list PromptTemplate) (limit : Z)
  (top : list PromptTemplate) : Prop :=
  List.length top = Nat.min (Z.to_nat limit) (List.length templates)
  /\ StronglySorted (at_least key) top
  /\ exists rest,
       Permutation templates (top ++ rest)
       /\ forall x y, In x top -> In y rest -> key y <= key x.

(** X23: getPopularTemplates returns the most used templates, most used
    first, and getRecentTemplates the templates updated last, the latest
    first: for a limit that is not negative each returns [limit]
    templates (all of them if there are fewer), in descending order of
    usageCount (of updatedAt), and no template it leaves out has more
    uses (a later update) than one it returns. *)
Theorem listings_return_the_top (templates : list PromptTemplate)
  (limit : Z) :
  0 <= limit ->
  top_by usageCount templates limit (getPopularTemplates templates limit)
  /\ top_by updatedAt templates limit (getRecentTemplates templates limit).
Proof.
  intros H. split.
  - exact (top_of_sorted usageCount templates limit H).
  - exact (top_of_sorted updatedAt templates limit H).
Qed.

Lemma role_eqb_eq (a b : UserRole) : role_eqb a b = true <-> a = b.
Proof. destruct a, b; simpl; split; congruence. Qed.

Lemma firstn_In {A : Type} (n : nat) (l : list A) (x : A) :
  In x (firstn n l) -> In x l.
Proof.
  intros H. rewrite <- (firstn_skipn n l). apply in_or_app. left. exact H.
Qed.

Lemma slice0_In {A : Type} (limit : Z) (l : list A) (x : A) :
  In x (slice0 limit l) -> In x l.
Proof. unfold slice0. destruct (limit <? 0); apply firstn_In. Qed.

Lemma slice0_length {A : Type} (limit : Z) (l : list A) :
  0 <= limit -> (List.length (slice0 limit l) <= Z.to_nat limit)%nat.
Proof.
  intros H. unfold slice0.
  destruct (limit <? 0) eqn:E; [apply Z.ltb_lt in E; lia |].
  rewrite length_firstn. lia.
Qed.

Lemma firstn_sorted (key : PromptTemplate -> Z) (n : nat)
  (l : list PromptTemplate) :
  StronglySorted (at_least key) l ->
  StronglySorted (at_least key) (firstn n l).
Proof.
  intros H. rewrite <- (firstn_skipn n l) in H.
  apply sorted_app in H. tauto.
Qed.

Lemma slice0_sorted (key : PromptTemplate -> Z) (limit : Z)
  (l : list PromptTemplate) :
  StronglySorted (at_least key) l ->
  StronglySorted (at_least key) (slice0 limit l).
Proof. unfold slice0. destruct (limit <? 0); apply firstn_sorted. Qed.

(** X24: getRecommendedTemplates never recommends a template the user has
    used, returns at most [limit] templates for a limit that is not
    negative, and puts the templates of the user's role first: its
    result is a run of templates of that role followed by a run of
    templates of other roles, each run in descending order of
    usageCount. *)
Theorem recommended_templates_shape (templates : list PromptTemplate)
  (userRole : UserRole) (userUsedTemplateIds : list jsstring) (limit : Z) :
  (forall t,
      In t (getRecommendedTemplates templates userRole userUsedTemplateIds
              limit) ->
      In t templates /\ has userUsedTemplateIds (id t) = false)
  /\ (0 <= limit ->
      (List.length (getRecommendedTemplates templates userRole
                      userUsedTemplateIds limit) <= Z.to_nat limit)%nat)
  /\ exists own others,
       getRecommendedTemplates templates userRole userUsedTemplateIds limit
       = own ++ others
       /\ Forall (fun t => role t = userRole) own
       /\ Forall (fun t => role t <> userRole) others
       /\ StronglySorted (at_least usageCount) own
       /\ StronglySorted (at_least usageCount) others.
Proof.
  unfold getRecommendedTemplates.
  set (unused := filter (fun t => negb (has userUsedTemplateIds (id t)))
                        templates).
  set (own := sort_desc usageCount (filter (role_is userRole) unused)).
  set (rest := sort_desc usageCount
                 (filter (fun t => negb (role_is userRole t)) unused)).
  assert (Hunused : forall t, In t unused ->
             In t templates /\ has userUsedTemplateIds (id t) = false).
  { intros t H. apply filter_In in H. destruct H as [H1 H2].
    split; [exact H1 |]. apply negb_true_iff. exact H2. }
  assert (Hown : forall t, In t own -> In t unused /\ role t = userRole).
  { intros t H. apply (Permutation_in _ (sort_desc_perm _ _)) in H.
    apply filter_In in H. destruct H as [H1 H2].
    split; [exact H1 |]. apply role_eqb_eq. exact H2. }
  assert (Hrest : forall t, In t rest -> In t unused /\ role t <> userRole).
  { intros t H. apply (Permutation_in _ (sort_desc_perm _ _)) in H.
    apply filter_In in H. destruct H as [H1 H2].
    split; [exact H1 |]. apply negb_true_iff in H2. intros E.
    apply role_eqb_eq in E. unfold role_is in H2. congruence. }
  destruct (Z.of_nat (List.length own) <? limit) eqn:E.
  - apply Z.ltb_lt in E. split; [| split].
    + intros t H. apply in_app_or in H. destruct H as [H | H].
      * apply Hunused, Hown, H.
      * apply slice0_In in H. apply Hunused, Hrest, H.
    + intros Hl. rewrite length_app.
      pose proof (slice0_length (limit - Z.of_nat (List.length own)) rest
                    ltac:(lia)). lia.
    + exists own, (slice0 (limit - Z.of_nat (List.length own)) rest).
      split; [reflexivity |].
      split; [apply Forall_forall; intros t H; apply Hown, H |].
      split; [apply Forall_forall; intros t H; apply slice0_In in H;
              apply Hrest, H |].
      split; [apply sort_desc_sorted |].
      apply slice0_sorted, sort_desc_sorted.
  - split; [| split].
    + intros t H. apply slice0_In in H. apply Hunused, Hown, H.
    + intros Hl. apply slice0_length. exact Hl.
    + exists (slice0 limit own), []. rewrite app_nil_r.
      split; [reflexivity |].
      split; [apply Forall_forall; intros t H; apply slice0_In in H;
              apply Hown, H |].
      split; [constructor |].
      split; [apply slice0_sorted, sort_desc_sorted | constructor].
Qed.


(** ** Extraction, creation and validation *)

Lemma has_In (a : list jsstring) (x : jsstring) :
  has a x = true <-> In x a.
Proof.
  unfold has. rewrite existsb_exists. split.
  - intros [y [Hy E]]. apply TemplateFacts.str_eqb_eq in E. subst y.
    exact Hy.
  - intros H. exists x. split; [exact H |].
    apply TemplateFacts.str_eqb_eq. reflexivity.
Qed.

Lemma filter_none {A : Type} (f : A -> bool) (l : list A) :
  (forall x, In x l -> f x = false) -> filter f l = [].
Proof.
  induction l as [|a l IH]; simpl; intros H; [reflexivity |].
  rewrite (H a (or_introl eq_refl)). apply IH. intros x Hx. apply H.
  right. exact Hx.
Qed.

Section Extraction.

Variable generateId : nat -> jsstring.

Lemma collect_fresh (caps : list jsstring) :
  forall seen k,
    NoDup (map var_name (collect generateId seen k caps))
    /\ forall x, In x (collect generateId seen k caps) ->
                 ~ In (var_name x) seen
                 /\ defaultValue x = [] /\ required x = true
                 /\ var_description x = lit "Value for " ++ var_name x.
Proof.
  induction caps as [|c caps IH]; intros seen k; simpl.
  - split; [constructor | intros x []].
  - destruct (existsb (str_eqb (trim c)) seen) eqn:E; [apply IH |].
    destruct (IH (trim c :: seen) (S k)) as [Hnd Hall].
    simpl. split.
    + constructor; [| exact Hnd].
      intros Hin. apply in_map_iff in Hin. destruct Hin as [x [Ex Hx]].
      destruct (Hall x Hx) as [Hnot _]. apply Hnot. left. auto.
    + intros x [Hx | Hx].
      * subst x. simpl. split; [| auto].
        intros Hin.
        assert (Ht : existsb (str_eqb (trim c)) seen = true).
        { apply existsb_exists. exists (trim c). split; [exact Hin |].
          apply TemplateFacts.str_eqb_eq. reflexivity. }
        congruence.
      * destruct (Hall x Hx) as [Hnot Hrest]. split; [| exact Hrest].
        intros Hin. apply Hnot. right. exact Hin.
Qed.

(** X20: extractVariablesFromContent returns every name once: the names
    of its variables are pairwise different, and each variable is
    required, has the empty default value and the description
    [Value for <name>]. *)
Theorem extracted_names_are_distinct (content : jsstring) :
  NoDup (map var_name (extractVariablesFromContent generateId content))
  /\ Forall (fun x => defaultValue x = [] /\ required x = true
                      /\ var_description x = lit "Value for " ++ var_name x)
            (extractVariablesFromContent generateId content).
Proof.
  unfold extractVariablesFromContent.
  destruct (collect_fresh (captures content) [] 0) as [Hnd Hall].
  split; [exact Hnd |]. apply Forall_forall. intros x Hx.
  apply Hall. exact Hx.
Qed.

End Extraction.

Lemma collect_names_same (g1 g2 : nat -> jsstring) (caps : list jsstring) :
  forall seen k1 k2,
    map var_name (collect g1 seen k1 caps)
    = map var_name (collect g2 seen k2 caps).
Proof.
  induction caps as [|c caps IH]; intros seen k1 k2; simpl; [reflexivity |].
  destruct (existsb (str_eqb (trim c)) seen); [apply IH |].
  simpl. f_equal. apply IH.
Qed.

Lemma indexOf_from_fresh (pre r : list jsstring) (x : jsstring) (i : nat) :
  ~ In x pre ->
  indexOf_from i (pre ++ x :: r) x = Some (i + List.length pre)%nat.
Proof.
  revert i. induction pre as [|y pre IH]; intros i Hnot; simpl.
  - rewrite EnhanceFacts.str_eqb_refl. f_equal. lia.
  - destruct (str_eqb y x) eqn:E.
    + apply TemplateFacts.str_eqb_eq in E. exfalso. apply Hnot. left.
      exact E.
    + rewrite IH by (intros H; apply Hnot; right; exact H).
      f_equal. lia.
Qed.

Lemma no_duplicates_found (suf : list jsstring) :
  forall pre,
    NoDup (pre ++ suf) ->
    filter_indexed
      (fun name index =>
         match indexOf (pre ++ suf) name with
         | Some i => negb (i =? index)%nat
         | None => true
         end) (List.length pre) suf = [].
Proof.
  induction suf as [|x suf IH]; intros pre Hnd; simpl; [reflexivity |].
  assert (Hnot : ~ In x pre).
  { apply NoDup_remove_2 in Hnd. intros H. apply Hnd. apply in_or_app.
    left. exact H. }
  unfold indexOf at 1. rewrite (indexOf_from_fresh pre suf x 0 Hnot).
  simpl. rewrite Nat.eqb_refl. simpl.
  specialize (IH (pre ++ [x])). rewrite <- app_assoc in IH. simpl in IH.
  rewrite length_app in IH. simpl in IH.
  replace (S (List.length pre)) with (List.length pre + 1)%nat by lia.
  apply IH. exact Hnd.
Qed.

(** X21: a template made by createTemplate passes validateTemplate with no
    warning, and with no error unless one of its placeholders has a name
    of white space only: no variable is undefined, unused or
    duplicated. *)
Theorem created_template_is_valid (generateId generateId' : nat -> jsstring)
  (now : Date) (input : CreateTemplateInput) :
  let template := createTemplate generateId now input in
  let blank :=
    existsb (fun v => str_eqb (trim (var_name v)) []) (variables template) in
  validateTemplate generateId' template
  = {| isValid := negb blank;
       errors := if blank
                 then [lit "Empty variable names are not allowed"]
                 else [];
       warnings := [] |}.
Proof.
  intros template blank. unfold validateTemplate.
  assert (Hnames :
            map var_name
              (extractVariablesFromContent generateId' (content template))
            = map var_name (variables template)).
  { apply collect_names_same. }
  rewrite (filter_none
             (fun v => negb (has (map var_name (variables template))
                               (var_name v)))).
  2:{ intros x Hx. apply negb_false_iff. apply has_In. rewrite <- Hnames.
      apply in_map. exact Hx. }
  rewrite (filter_none
             (fun v =>
                negb (existsb
                        (fun ref => str_eqb (var_name ref) (var_name v))
                        (extractVariablesFromContent generateId'
                           (content template))))).
  2:{ intros x Hx. apply negb_false_iff. apply existsb_exists.
      assert (Hin : In (var_name x)
                      (map var_name
                         (extractVariablesFromContent generateId'
                            (content template)))).
      { rewrite Hnames. apply in_map. exact Hx. }
      apply in_map_iff in Hin. destruct Hin as [ref [E Hr]].
      exists ref. split; [exact Hr |].
      apply TemplateFacts.str_eqb_eq. exact E. }
  pose proof (no_duplicates_found (map var_name (variables template)) []
                (proj1 (collect_fresh generateId
                          (captures (new_content input)) [] 0))) as Hd.
  cbn [app List.length] in Hd. rewrite Hd.
  fold blank. simpl. destruct blank; reflexivity.
Qed.


(** ** Versions *)

Lemma nothing_new (l : list jsstring) :
  filter (fun line => negb (has l line)) l = [].
Proof.
  apply filter_none. intros x Hx. apply negb_false_iff. apply has_In.
  exact Hx.
Qed.

Lemma no_new_variable (vars : list TemplateVariable) :
  filter (fun v => negb (has (map var_name vars) (var_name v))) vars = [].
Proof.
  apply filter_none. intros x Hx. apply negb_false_iff. apply has_In.
  apply in_map. exact Hx.
Qed.

Lemma compare_same_content (a b : PromptTemplate) :
  content b = content a -> variables b = variables a ->
  contentDiff (compareTemplateVersions a b) = {| added := []; removed := [] |}
  /\ variablesAdded (compareTemplateVersions a b) = []
  /\ variablesRemoved (compareTemplateVersions a b) = [].
Proof.
  intros Hc Hv. unfold compareTemplateVersions.
  cbn [contentDiff variablesAdded variablesRemoved].
  rewrite Hc, Hv, nothing_new, !no_new_variable. tauto.
Qed.

(** X22: a version made by createTemplateVersion with updates that leave
    the content as it is (no content, the empty string, or the same
    text) keeps the variables of its base with their identifiers, and
    compareTemplateVersions reports no line and no variable added or
    removed between the two; the version number is one more than the
    base's, the base is its previous version, and the creation date is
    the base's. *)
Theorem version_with_same_content (generateId : nat -> jsstring)
  (now : Date) (existingTemplate : PromptTemplate)
  (updates : TemplateUpdates) :
  content (createTemplateVersion generateId now existingTemplate updates)
  = content existingTemplate ->
  let newVersion :=
    createTemplateVersion generateId now existingTemplate updates in
  variables newVersion = variables existingTemplate
  /\ contentDiff (compareTemplateVersions existingTemplate newVersion)
     = {| added := []; removed := [] |}
  /\ variablesAdded (compareTemplateVersions existingTemplate newVersion)
     = []
  /\ variablesRemoved (compareTemplateVersions existingTemplate newVersion)
     = []
  /\ version newVersion = version existingTemplate + 1
  /\ previousVersionId newVersion = Some (id existingTemplate)
  /\ createdAt newVersion = createdAt existingTemplate.
Proof.
  intros Hc newVersion.
  assert (Hv : variables newVersion = variables existingTemplate).
  { subst newVersion. unfold createTemplateVersion in *. simpl in *.
    destruct (upd_content updates) as [c|]; [| reflexivity].
    simpl in Hc. destruct (truthy c); [| reflexivity]. simpl.
    subst c. rewrite EnhanceFacts.str_eqb_refl. reflexivity. }
  split; [exact Hv |].
  fold newVersion in Hc.
  destruct (compare_same_content existingTemplate newVersion Hc Hv)
    as [H1 [H2 H3]].
  split; [exact H1 |]. split; [exact H2 |]. split; [exact H3 |].
  split; [reflexivity |]. split; reflexivity.
Qed.

(** ** Grouping *)

Definition in_category (k : jsstring) (t : PromptTemplate) : bool :=
  str_eqb (category_key t) k.

(** The group the object holds under the key [k] once [done] has been
    gone through. *)
Definition group_of (done : list PromptTemplate) (k : jsstring)
  : option (list PromptTemplate) :=
  if existsb (in_category k) done then Some (filter (in_category k) done)
  else None.

Lemma group_of_snoc (done : list PromptTemplate) (t : PromptTemplate)
  (k : jsstring) :
  group_of (done ++ [t]) k
  = if in_category k t
    then Some (match group_of done k with
               | Some group => group ++ [t]
               | None => [t]
               end)
    else group_of done k.
Proof.
  unfold group_of. rewrite existsb_app, filter_app. simpl.
  destruct (in_category k t).
  - rewrite orb_true_r.
    destruct (existsb (in_category k) done) eqn:E; [reflexivity |].
    rewrite (filter_none (in_category k) done); [reflexivity |].
    intros x Hx. destruct (in_category k x) eqn:Ex; [| reflexivity].
    assert (existsb (in_category k) done = true)
      by (apply existsb_exists; exists x; auto).
    congruence.
  - rewrite orb_false_r, app_nil_r. reflexivity.
Qed.

Lemma group_templates_spec (rest : list PromptTemplate) :
  forall done grouped,
    (forall k, JSMap.get str_eqb k grouped = group_of done k) ->
    (forall t, In t rest -> has prototype_keys (category_key t) = false) ->
    exists grouped',
      group_templates rest grouped = Returns grouped'
      /\ forall k, JSMap.get str_eqb k grouped' = group_of (done ++ rest) k.
Proof.
  induction rest as [|t rest IH]; intros done grouped Hg Hok.
  - exists grouped. rewrite app_nil_r. split; [reflexivity | exact Hg].
  - assert (Hstep : exists grouped1,
               group_template grouped t = Returns grouped1
               /\ forall k, JSMap.get str_eqb k grouped1
                            = group_of (done ++ [t]) k).
    { unfold group_template. rewrite (Hg (category_key t)).
      rewrite (Hok t (or_introl eq_refl)).
      destruct (group_of done (category_key t)) as [group|] eqn:El;
        (eexists; split; [reflexivity |]);
        intros k; rewrite group_of_snoc; unfold in_category at 1;
        (destruct (str_eqb (category_key t) k) eqn:E;
         [ apply TemplateFacts.str_eqb_eq in E; subst k; rewrite El;
           apply (MapFacts.get_set_same _ _ str_eqb TemplateFacts.str_eqb_eq)
         | rewrite <- (Hg k);
           apply (MapFacts.get_set_other _ _ str_eqb
                    TemplateFacts.str_eqb_eq);
           intros H; apply TemplateFacts.str_eqb_eq in H; congruence ]). }
    destruct Hstep as [grouped1 [E1 Hg1]].
    destruct (IH (done ++ [t]) grouped1 Hg1
                (fun x Hx => Hok x (or_intror Hx))) as [grouped' [E' Hg']].
    exists grouped'. simpl. rewrite E1. split; [exact E' |].
    intros k. rewrite (Hg' k), <- app_assoc. reflexivity.
Qed.

Lemma group_templates_throws (templates : list PromptTemplate)
  (t : PromptTemplate) :
  In t templates -> has prototype_keys (category_key t) = true ->
  forall grouped,
    (forall k, has prototype_keys k = true ->
               JSMap.get str_eqb k grouped = None) ->
    exists message, group_templates templates grouped = Throws message.
Proof.
  intros Hin Hbad.
  induction templates as [|x rest IH]; intros grouped Hg; [destruct Hin |].
  simpl. unfold group_template.
  destruct (has prototype_keys (category_key x)) eqn:Ex.
  - rewrite (Hg _ Ex). eexists. reflexivity.
  - destruct Hin as [Hin | Hin]; [subst x; congruence |].
    destruct (JSMap.get str_eqb (category_key x) grouped) as [group|];
      apply (IH Hin); intros k Hk;
      (rewrite (MapFacts.get_set_other _ _ str_eqb TemplateFacts.str_eqb_eq);
       [exact (Hg k Hk) | intros E; subst k; congruence]).
Qed.

(** X25: groupTemplatesByCategory returns an object exactly when no
    template has a category such as constructor or toString, the name of
    a property that the empty object inherits.  The object then holds,
    under each category that occurs (Uncategorized for the empty
    category), the templates of that category in their order in the
    list, and no other key.  With such a category the call throws: no
    array is created for it and the call of push fails. *)
Theorem grouping_by_category (templates : list PromptTemplate) :
  match groupTemplatesByCategory templates with
  | Returns grouped =>
      (forall t, In t templates ->
                 has prototype_keys (category_key t) = false)
      /\ forall k,
           JSMap.get str_eqb k grouped
           = if existsb (fun t => str_eqb (category_key t) k) templates
             then Some (filter (fun t => str_eqb (category_key t) k)
                               templates)
             else None
  | Throws _ =>
      exists t, In t templates
                /\ has prototype_keys (category_key t) = true
  end.
Proof.
  destruct (forallb (fun t => negb (has prototype_keys (category_key t)))
                    templates) eqn:E.
  - assert (Hok : forall t, In t templates ->
                            has prototype_keys (category_key t) = false).
    { intros t Ht. rewrite forallb_forall in E. apply negb_true_iff.
      exact (E t Ht). }
    destruct (group_templates_spec templates []
                (JSMap.empty jsstring (list PromptTemplate))
                (fun k => eq_refl) Hok) as [grouped [Eg Hg]].
    unfold groupTemplatesByCategory. rewrite Eg.
    split; [exact Hok | exact Hg].
  - assert (Hbad : exists t, In t templates
                             /\ has prototype_keys (category_key t) = true).
    { induction templates as [|x rest IH]; [discriminate |].
      simpl in E. apply andb_false_iff in E. destruct E as [E | E].
      - exists x. split; [left; reflexivity |].
        apply negb_false_iff. exact E.
      - destruct (IH E) as [t [Ht Hb]]. exists t. split; [right |]; auto. }
    destruct Hbad as [t [Ht Hb]].
    destruct (group_templates_throws templates t Ht Hb
                (JSMap.empty jsstring (list PromptTemplate))
                (fun k _ => eq_refl)) as [message Em].
    unfold groupTemplatesByCategory. rewrite Em.
    exists t. split; assumption.
Qed.

(** ** Search *)

Lemma includes_unfold (s p : jsstring) :
  includes s p
  = startsWith p s
    || match s with
       | [] => false
       | _ :: s' => includes s' p
       end.
Proof. destruct s; reflexivity. Qed.

Lemma includes_app (a w b : jsstring) : includes (a ++ w ++ b) w = true.
Proof.
  induction a as [|c a IH].
  - rewrite includes_unfold. simpl app.
    rewrite TemplateFacts.startsWith_app. reflexivity.
  - simpl. rewrite IH. apply orb_true_r.
Qed.

Lemma split_ws_aux_pieces (s : jsstring) :
  forall in_sep cur w,
    In w (split_ws_aux in_sep cur s) ->
    exists a b, rev cur ++ s = a ++ w ++ b.
Proof.
  induction s as [|c s IH]; intros in_sep cur w; simpl.
  - intros [H | []]. subst w. exists [], []. rewrite !app_nil_r.
    reflexivity.
  - destruct (isSpace c).
    + assert (Hrest : In w (split_ws_aux true [] s) ->
                      exists a b, rev cur ++ c :: s = a ++ w ++ b).
      { intros H. destruct (IH true [] w H) as [a [b E]]. simpl in E.
        exists (rev cur ++ c :: a), b. rewrite E, <- app_assoc.
        reflexivity. }
      destruct in_sep; [exact Hrest |].
      intros [H | H]; [| exact (Hrest H)].
      subst w. exists [], (c :: s). reflexivity.
    + intros H. destruct (IH false (c :: cur) w H) as [a [b E]].
      exists a, b. rewrite <- E. simpl. rewrite <- app_assoc. reflexivity.
Qed.

Lemma term_is_included (s w : jsstring) :
  In w (filter truthy (split_ws s)) -> includes s w = true.
Proof.
  intros H. apply filter_In in H. destruct H as [H _].
  destruct (split_ws_aux_pieces s false [] w H) as [a [b E]].
  simpl in E. rewrite E. apply includes_app.
Qed.

Section Host.

Variable toLowerCase : jsstring -> jsstring.

Lemma some_term (s : jsstring) (terms : list jsstring) :
  terms <> [] ->
  (forall w, In w terms -> includes s w = true) ->
  existsb (fun term => includes s term) terms = true.
Proof.
  intros Hne Hall. destruct terms as [|w terms]; [congruence |].
  simpl. rewrite (Hall w (or_introl eq_refl)). reflexivity.
Qed.

(** X26: searchTemplates finds a template by its own texts: a query that
    is the name, the description, the content, a tag or a variable name
    of a template of the list returns that template, in any letter case
    the host maps to the same lower case. *)
Theorem template_is_found_by_own_text (templates : list PromptTemplate)
  (t : PromptTemplate) (query : jsstring) :
  In t templates ->
  toLowerCase query = toLowerCase (name t)
  \/ toLowerCase query = toLowerCase (description t)
  \/ toLowerCase query = toLowerCase (content t)
  \/ (exists tag, In tag (tags t) /\ toLowerCase query = toLowerCase tag)
  \/ (exists variable,
        In variable (variables t)
        /\ toLowerCase query = toLowerCase (var_name variable)) ->
  In t (searchTemplates toLowerCase templates query).
Proof.
  intros Hin Hq. unfold searchTemplates.
  set (terms := filter truthy (split_ws (toLowerCase query))).
  destruct (List.length terms =? 0)%nat eqn:E; [exact Hin |].
  apply filter_In. split; [exact Hin |].
  assert (Hne : terms <> []) by (intros H; rewrite H in E; discriminate).
  assert (Hall : forall w, In w terms ->
                           includes (toLowerCase query) w = true)
    by (intros w Hw; apply term_is_included; exact Hw).
  pose proof (some_term _ terms Hne Hall) as Hs.
  destruct Hq as [Hq | [Hq | [Hq | [[tag [Ht Hq]] | [x [Hx Hq]]]]]];
    rewrite Hq in Hs.
  - fold terms. rewrite Hs. reflexivity.
  - fold terms. rewrite Hs. rewrite !orb_true_r. reflexivity.
  - fold terms. rewrite Hs. rewrite !orb_true_r. reflexivity.
  - assert (Hg : existsb (fun tag =>
                   existsb (fun term => includes (toLowerCase tag) term)
                           terms) (tags t) = true)
      by (apply existsb_exists; exists tag; auto).
    rewrite Hg. rewrite !orb_true_r. reflexivity.
  - assert (Hg : existsb (fun variable =>
                   existsb (fun term =>
                              includes (toLowerCase (var_name variable))
                                       term) terms) (variables t) = true)
      by (apply existsb_exists; exists x; auto).
    rewrite Hg. rewrite !orb_true_r. reflexivity.
Qed.

End Host.



(** ** Examples *)

Definition memo_ids (k : nat) : jsstring :=
  match k with
  | 0%nat => lit "i0"
  | 1%nat => lit "i1"
  | _ => lit "i2"
  end.

Definition memo : PromptTemplate :=
  createTemplate memo_ids 5
    {| new_name := lit "Memo"; new_description := lit "a short memo";
       new_userId := 1; new_role := writer; new_category := lit "office";
       new_tags := [lit "note"]; new_content := lit "To {{who}}: {{what}}";
       new_isPublic := true |}.

Definition renamed : TemplateUpdates :=
  {| upd_name := Some (lit "Note"); upd_description := None;
     upd_userId := None; upd_role := None; upd_category := None;
     upd_tags := None; upd_content := Some []; upd_isPublic := None |}.

Lemma version_with_same_content_witness :
  content (createTemplateVersion memo_ids 9 memo renamed) = content memo
  /\ variables (createTemplateVersion memo_ids 9 memo renamed)
     = variables memo
  /\ version (createTemplateVersion memo_ids 9 memo renamed) = 2.
Proof.
  assert (H : content (createTemplateVersion memo_ids 9 memo renamed)
              = content memo) by reflexivity.
  destruct (version_with_same_content memo_ids 9 memo renamed H)
    as [H1 [_ [_ [_ [H5 _]]]]].
  split; [exact H |]. split; [exact H1 | exact H5].
Defined.

(** The memo under the name [n], used [uses] times and last updated at
    [updated]. *)
Definition shelved (n : jsstring) (uses updated : Z) : PromptTemplate :=
  {| id := n; name := n; description := description memo;
     createdAt := createdAt memo; updatedAt := updated;
     userId := userId memo; role := role memo; category := category memo;
     tags := tags memo; content := content memo;
     variables := variables memo; usageCount := uses;
     isPublic := isPublic memo; version := version memo;
     previousVersionId := previousVersionId memo |}.

(** Five templates, in neither order; two of them are used equally
    often. *)
Definition shelf : list PromptTemplate :=
  [ shelved (lit "a") 3 40; shelved (lit "b") 9 10; shelved (lit "c") 1 30;
    shelved (lit "d") 7 20; shelved (lit "e") 9 5 ].

Lemma listings_return_the_top_witness :
  0 <= 3
  /\ top_by usageCount shelf 3 (getPopularTemplates shelf 3)
  /\ top_by updatedAt shelf 3 (getRecentTemplates shelf 3)
  /\ map name (getPopularTemplates shelf 3) = [lit "b"; lit "e"; lit "d"]
  /\ map name (getRecentTemplates shelf 3) = [lit "a"; lit "c"; lit "d"].
Proof.
  assert (H : 0 <= 3) by lia.
  destruct (listings_return_the_top shelf 3 H) as [H1 H2].
  split; [exact H |]. split; [exact H1 |]. split; [exact H2 |].
  split; reflexivity.
Defined.

Lemma template_is_found_by_own_text_witness :
  In memo [memo]
  /\ In memo (searchTemplates AiEngine.ascii_toLowerCase [memo] (lit "MEMO")).
Proof.
  assert (H : In memo [memo]) by (left; reflexivity).
  split; [exact H |].
  exact (template_is_found_by_own_text AiEngine.ascii_toLowerCase [memo] memo
           (lit "MEMO") H (or_introl eq_refl)).
Defined.

End TemplateProperties.

(* ================================================================== *)
(** * The prompt blocks *)
(* ================================================================== *)

Module BlockProperties.
Import JS BlockBuilder.
Local Open Scope Z_scope.

Lemma find_id (bs : list PromptBlock) (blockId : jsstring) (m : PromptBlock) :
  find (fun b => str_eqb (id b) blockId) bs = Some m ->
  In m bs /\ id m = blockId.
Proof.
  intros H. apply find_some in H. destruct H as [H E].
  split; [exact H |]. apply TemplateFacts.str_eqb_eq. exact E.
Qed.

Lemma find_id_none (bs : list PromptBlock) (blockId : jsstring)
  (b : PromptBlock) :
  find (fun b => str_eqb (id b) blockId) bs = None ->
  In b bs -> str_eqb (id b) blockId = false.
Proof. intros H Hin. exact (find_none _ _ H b Hin). Qed.

(** Two blocks of a list that has no key twice are the same block when
    their keys are the same. *)
Lemma same_key {K : Type} (key : PromptBlock -> K) (bs : list PromptBlock)
  (a b : PromptBlock) :
  NoDup (map key bs) -> In a bs -> In b bs -> key a = key b -> a = b.
Proof.
  induction bs as [|x bs IH]; simpl; intros Hnd Ha Hb E; [destruct Ha |].
  inversion Hnd as [|? ? Hnot Hnd']; subst.
  destruct Ha as [Ha | Ha], Hb as [Hb | Hb].
  - congruence.
  - subst x. exfalso. apply Hnot. rewrite E. apply in_map. exact Hb.
  - subst x. exfalso. apply Hnot. rewrite <- E. apply in_map. exact Ha.
  - exact (IH Hnd' Ha Hb E).
Qed.

(** X27: removeBlock never removes a required block from a structure
    whose blocks have pairwise different ids: whatever id is asked for,
    every required block is still there, and nothing is added. *)
Theorem required_blocks_stay (promptStructure : PromptStructure)
  (blockId : jsstring) :
  NoDup (map id (blocks promptStructure)) ->
  (forall b, In b (blocks promptStructure) -> required b = true ->
             In b (blocks (removeBlock promptStructure blockId)))
  /\ (forall b, In b (blocks (removeBlock promptStructure blockId)) ->
                In b (blocks promptStructure)).
Proof.
  intros Hnd. unfold removeBlock.
  destruct (find (fun b => str_eqb (id b) blockId) (blocks promptStructure))
    as [m|] eqn:Ef.
  - destruct (find_id _ _ _ Ef) as [Hm Eid].
    destruct (required m) eqn:Er; [tauto |].
    simpl. split.
    + intros b Hb Hreq. apply filter_In. split; [exact Hb |].
      apply negb_true_iff. destruct (str_eqb (id b) blockId) eqn:E;
        [| reflexivity].
      apply TemplateFacts.str_eqb_eq in E.
      assert (b = m) by (apply (same_key id _ _ _ Hnd Hb Hm); congruence).
      congruence.
    + intros b Hb. apply filter_In in Hb. tauto.
  - simpl. split.
    + intros b Hb _. apply filter_In. split; [exact Hb |].
      apply negb_true_iff. exact (find_id_none _ _ _ Ef Hb).
    + intros b Hb. apply filter_In in Hb. tauto.
Qed.

Lemma find_app_new (bs : list PromptBlock) (x : PromptBlock) :
  ~ In (id x) (map id bs) ->
  find (fun b => str_eqb (id b) (id x)) (bs ++ [x]) = Some x.
Proof.
  induction bs as [|y bs IH]; simpl; intros Hnot.
  - rewrite EnhanceFacts.str_eqb_refl. reflexivity.
  - destruct (str_eqb (id y) (id x)) eqn:E.
    + apply TemplateFacts.str_eqb_eq in E. exfalso. apply Hnot. left.
      exact E.
    + apply IH. tauto.
Qed.

Lemma filter_app_new (bs : list PromptBlock) (x : PromptBlock) :
  ~ In (id x) (map id bs) ->
  filter (fun b => negb (str_eqb (id b) (id x))) (bs ++ [x]) = bs.
Proof.
  induction bs as [|y bs IH]; simpl; intros Hnot.
  - rewrite EnhanceFacts.str_eqb_refl. reflexivity.
  - destruct (str_eqb (id y) (id x)) eqn:E.
    + apply TemplateFacts.str_eqb_eq in E. exfalso. apply Hnot. left.
      exact E.
    + simpl. f_equal. apply IH. tauto.
Qed.

(** X28: a block added by addBlock under a fresh id is removed again by
    removeBlock, which gives back the blocks as they were, unless the
    block type is a required one (context or goal): then the removal is
    refused and the block stays. *)
Theorem added_block_is_removed_unless_required (newId : jsstring)
  (promptStructure : PromptStructure) (blockType : PromptBlockType) :
  ~ In newId (map id (blocks promptStructure)) ->
  blocks (removeBlock (addBlock newId promptStructure blockType) newId)
  = match blockType with
    | context | goal =>
        blocks (addBlock newId promptStructure blockType)
    | _ => blocks promptStructure
    end.
Proof.
  intros Hnew. unfold removeBlock, addBlock.
  cbn [blocks].
  set (x := createBlock newId blockType
              (max_order (blocks promptStructure) + 1) None).
  change newId with (id x) at 1 2.
  rewrite (find_app_new (blocks promptStructure) x Hnew).
  destruct blockType; cbn [required x createBlock tpl_required blockTemplates];
    try reflexivity;
    cbn [blocks]; apply filter_app_new; exact Hnew.
Qed.


(** ** Orders *)

Lemma with_order_same (b : PromptBlock) : with_order b (order b) = b.
Proof. destruct b. reflexivity. Qed.

(** X29: reorderBlocks changes nothing but order numbers, whatever the
    orders are: the blocks keep their ids, types, contents, required
    flags and descriptions, each in its position.  Every block with the
    id asked for gets the new order, and a block with another id whose
    order lies below both the old and the new place of the moved block,
    or above both, is left as it is.  For an id that no block has, the
    structure is returned as it was given. *)
Theorem reorder_changes_orders_only (promptStructure : PromptStructure)
  (blockId : jsstring) (newOrder : Z) :
  let updated := blocks (reorderBlocks promptStructure blockId newOrder) in
  (map id updated = map id (blocks promptStructure)
   /\ map type updated = map type (blocks promptStructure)
   /\ map content updated = map content (blocks promptStructure)
   /\ map required updated = map required (blocks promptStructure)
   /\ map description updated = map description (blocks promptStructure))
  /\ (forall blockToMove,
        find (fun b => str_eqb (id b) blockId) (blocks promptStructure)
        = Some blockToMove ->
        (forall b, In b (blocks promptStructure) -> id b = blockId ->
                   In (with_order b newOrder) updated)
        /\ (forall b,
              In b (blocks promptStructure) -> id b <> blockId ->
              order b < Z.min (order blockToMove) newOrder
              \/ Z.max (order blockToMove) newOrder < order b ->
              In b updated))
  /\ (find (fun b => str_eqb (id b) blockId) (blocks promptStructure) = None ->
      reorderBlocks promptStructure blockId newOrder = promptStructure).
Proof.
  intros updated. subst updated. unfold reorderBlocks.
  destruct (find (fun b => str_eqb (id b) blockId) (blocks promptStructure))
    as [m|] eqn:Ef.
  2:{ split; [repeat split |]. split; [discriminate | reflexivity]. }
  cbn [blocks]. set (g := fun block : PromptBlock => _).
  assert (Hg : forall b,
             id (g b) = id b /\ type (g b) = type b
             /\ content (g b) = content b /\ required (g b) = required b
             /\ description (g b) = description b).
  { intros b. subst g. cbv beta.
    destruct (str_eqb (id b) blockId); [repeat split |].
    destruct ((order m <? newOrder) && (order m <? order b)
              && (order b <=? newOrder)); [repeat split |].
    destruct ((newOrder <? order m) && (newOrder <=? order b)
              && (order b <? order m)); repeat split. }
  assert (Hmap : forall (A : Type) (p : PromptBlock -> A),
             (forall b, p (g b) = p b) ->
             map p (map g (blocks promptStructure))
             = map p (blocks promptStructure)).
  { intros A p H. rewrite map_map. apply map_ext. exact H. }
  split.
  { repeat split; apply Hmap; intros b; apply (Hg b). }
  split; [| discriminate].
  intros blockToMove E. injection E as <-. split.
  - intros b Hb Eb.
    replace (with_order b newOrder) with (g b); [apply in_map; exact Hb |].
    subst g. cbv beta.
    rewrite (proj2 (TemplateFacts.str_eqb_eq _ _) Eb). reflexivity.
  - intros b Hb Eb Hout.
    replace b with (g b) at 1; [apply in_map; exact Hb |].
    subst g. cbv beta.
    destruct (str_eqb (id b) blockId) eqn:E;
      [apply TemplateFacts.str_eqb_eq in E; contradiction |].
    destruct ((order m <? newOrder) && (order m <? order b)
              && (order b <=? newOrder)) eqn:E1.
    { rewrite !andb_true_iff, !Z.ltb_lt, Z.leb_le in E1. lia. }
    destruct ((newOrder <? order m) && (newOrder <=? order b)
              && (order b <? order m)) eqn:E2; [| reflexivity].
    rewrite !andb_true_iff, !Z.ltb_lt, Z.leb_le in E2. lia.
Qed.


(** ** The combined prompt *)









(** ** Examples *)

Definition block_ids (k : nat) : jsstring :=
  match k with
  | 0%nat => lit "b0"
  | 1%nat => lit "b1"
  | 2%nat => lit "b2"
  | 3%nat => lit "b3"
  | 4%nat => lit "b4"
  | _ => lit "b5"
  end.

Definition default_structure : PromptStructure :=
  createDefaultPromptStructure block_ids.

Definition tone_block : PromptBlock :=
  createBlock (lit "b3") tone 3 None.

Lemma default_ids_differ : NoDup (map id (blocks default_structure)).
Proof.
  repeat constructor; simpl; intuition discriminate.
Qed.


Lemma required_blocks_stay_witness :
  NoDup (map id (blocks default_structure))
  /\ In (createBlock (lit "b0") context 0 None)
        (blocks (removeBlock default_structure (lit "b0"))).
Proof.
  split; [exact default_ids_differ |].
  apply (proj1 (required_blocks_stay default_structure (lit "b0")
                  default_ids_differ)).
  - left. reflexivity.
  - reflexivity.
Defined.

Lemma added_block_is_removed_unless_required_witness :
  ~ In (lit "b9") (map id (blocks default_structure))
  /\ blocks (removeBlock (addBlock (lit "b9") default_structure examples)
               (lit "b9"))
     = blocks default_structure.
Proof.
  assert (H : ~ In (lit "b9") (map id (blocks default_structure)))
    by (simpl; intuition discriminate).
  split; [exact H |].
  exact (added_block_is_removed_unless_required (lit "b9")
           default_structure examples H).
Defined.

Lemma reorder_changes_orders_only_witness :
  find (fun b => str_eqb (id b) (lit "b3")) (blocks default_structure)
  = Some tone_block
  /\ map id (blocks (reorderBlocks default_structure (lit "b3") 0))
     = map id (blocks default_structure)
  /\ In (with_order tone_block 0)
        (blocks (reorderBlocks default_structure (lit "b3") 0))
  /\ In (createBlock (lit "b5") constraints 5 None)
        (blocks (reorderBlocks default_structure (lit "b3") 0))
  /\ map order (blocks (reorderBlocks default_structure (lit "b3") 0))
     = [1; 2; 3; 0; 4; 5].
Proof.
  assert (E : find (fun b => str_eqb (id b) (lit "b3"))
                (blocks default_structure) = Some tone_block)
    by reflexivity.
  destruct (reorder_changes_orders_only default_structure (lit "b3") 0)
    as [[H1 _] [H2 _]].
  destruct (H2 tone_block E) as [H3 H4].
  split; [exact E |]. split; [exact H1 |]. split; [| split].
  - apply (H3 tone_block); [| reflexivity].
    right; right; right; left; reflexivity.
  - apply (H4 (createBlock (lit "b5") constraints 5 None)).
    + do 5 right. left. reflexivity.
    + discriminate.
    + right. simpl. lia.
  - reflexivity.
Defined.


End BlockProperties.
